(** * lambda-money-manager: record store, financial model, message parser
      and ingestion orchestrator

    A shallow embedding of
      - [Models/DynamoDBModel.py]   (generic CRUD over one DynamoDB table),
      - [Models/Money.py]           (totals and monthly summary),
      - [Services/SendLineService.py] (writes to [line_transaction_t]),
      - [lambda_function.py]        ([_parse_message], [_process_line_messages]),
    followed by the properties of the specification that concern them.

    Conventions.
      - A Python [str] is a list of Unicode code points ([pystr]).  Literals
        are written as in the source and decoded from UTF-8 by [u].
      - Python values that travel through dictionaries (webhook payloads,
        table items, keyword arguments) are of type [pyval].
      - Numbers are exact rationals ([Q]); the rounding of binary floating
        point is not modelled.
      - Code that can raise returns [res A]; code that also talks to the
        table or reads the clock lives in the monad [M].
      - The DynamoDB table is a finite map from key to item.  A storage call
        can fail with any exception: the world carries an oracle [fault]
        that is consulted once per storage call.  A scan returns every item
        that passes its filter (paging is not modelled).
      - The keyword arguments of a call [f(x, **kwargs)] are the list of
        the keywords in call order.  Python binds them to the signature
        before the body runs: see [bind_keywords]. *)

From Stdlib Require Import ZArith NArith QArith Ascii String List Bool Lia.
From stdpp Require Import base option list gmap strings fin_maps.

Set Warnings "-register-all".
Local Open Scope N_scope.

(** ** Python strings *)

Abbreviation codepoint := N.
Abbreviation pystr := (list codepoint).

Definition bytes_of_string (s : string) : list N :=
  map (fun b => N.of_nat (nat_of_ascii b)) (list_ascii_of_string s).

(** UTF-8 decoding, used only to write the literals of the source. *)
Fixpoint utf8_decode (bs : list N) : pystr :=
  match bs with
  | [] => []
  | b0 :: r0 =>
    if b0 <? 128 then b0 :: utf8_decode r0
    else match r0 with
    | [] => [b0]
    | b1 :: r1 =>
      if b0 <? 224 then ((b0 - 192) * 64 + (b1 - 128)) :: utf8_decode r1
      else match r1 with
      | [] => [b0; b1]
      | b2 :: r2 =>
        if b0 <? 240
        then ((b0 - 224) * 4096 + (b1 - 128) * 64 + (b2 - 128)) :: utf8_decode r2
        else match r2 with
        | [] => [b0; b1; b2]
        | b3 :: r3 =>
          ((b0 - 240) * 262144 + (b1 - 128) * 4096 + (b2 - 128) * 64 + (b3 - 128))
            :: utf8_decode r3
        end
      end
    end
  end.

Definition u (s : string) : pystr := utf8_decode (bytes_of_string s).

Fixpoint pystr_eqb (a b : pystr) : bool :=
  match a, b with
  | [], [] => true
  | x :: a', y :: b' => (x =? y) && pystr_eqb a' b'
  | _, _ => false
  end.

(** Code point order, which is also the order of the UTF-8 encodings that
    DynamoDB compares. *)
Fixpoint pystr_leb (a b : pystr) : bool :=
  match a, b with
  | [], _ => true
  | _ :: _, [] => false
  | x :: a', y :: b' => (x <? y) || ((x =? y) && pystr_leb a' b')
  end.

(** [needle in haystack] *)
Fixpoint starts_with (p s : pystr) : bool :=
  match p, s with
  | [], _ => true
  | _ :: _, [] => false
  | x :: p', y :: s' => (x =? y) && starts_with p' s'
  end.

Fixpoint contains (needle hay : pystr) : bool :=
  starts_with needle hay ||
  match hay with
  | [] => false
  | _ :: hay' => contains needle hay'
  end.

(** [any(keyword in text for keyword in keywords)] *)
Definition any_in (keywords : list pystr) (text : pystr) : bool :=
  existsb (fun keyword => contains keyword text) keywords.

(** ** Python values *)

Inductive pyval : Type :=
| PNone
| PBool (b : bool)
| PNum (q : Q)
| PStr (s : pystr)
| PList (l : list pyval)
| PDict (d : list (string * pyval)).

Definition is_none (v : pyval) : bool :=
  match v with PNone => true | _ => false end.

(** [v == s] for a string literal [s]. *)
Definition eq_str (v : pyval) (s : pystr) : bool :=
  match v with PStr t => pystr_eqb t s | _ => false end.

Definition Qzero_b (q : Q) : bool := (Qnum q =? 0)%Z.

(** Truth value of [v] in a condition. *)
Definition truthy (v : pyval) : bool :=
  match v with
  | PNone => false
  | PBool b => b
  | PNum q => negb (Qzero_b q)
  | PStr s => match s with [] => false | _ => true end
  | PList l => match l with [] => false | _ => true end
  | PDict d => match d with [] => false | _ => true end
  end.

(** ** Exceptions and results *)

Record exn : Type := Exn { exn_type : string; exn_msg : pystr }.

(** [str(e)] *)
Definition str_exn (e : exn) : pystr := exn_msg e.

Inductive res (A : Type) : Type :=
| Ok (a : A)
| Raise (e : exn).
Arguments Ok {A} a.
Arguments Raise {A} e.

Definition res_bind {A B} (r : res A) (f : A -> res B) : res B :=
  match r with Ok a => f a | Raise e => Raise e end.

Definition raises {A} (r : res A) : Prop := exists e, r = Raise e.

Definition ValueError (msg : string) : exn := Exn "ValueError" (u msg).
Definition TypeError (msg : string) : exn := Exn "TypeError" (u msg).
Definition AttributeError (msg : string) : exn := Exn "AttributeError" (u msg).
Definition ClientError (msg : string) : exn := Exn "ClientError" (u msg).

(** ** What the Python runtime provides *)

(** Digits [ds] (most significant first) read in base ten. *)
Definition decimal_value (ds : list N) : N :=
  fold_left (fun acc d => 10 * acc + d) ds 0.

Section DecimalLiteral.
(** The decimal-digit property of the Unicode database: [Some d] for a
    character of category Nd that stands for the digit [d]. *)
Variable unicode_decimal : codepoint -> option N.

Definition is_digit (c : codepoint) : bool :=
  match unicode_decimal c with Some _ => true | None => false end.

(** The longest prefix of digits (as digit values) and what follows it. *)
Fixpoint span_digits (s : pystr) : list N * pystr :=
  match s with
  | [] => ([], [])
  | c :: s' =>
    match unicode_decimal c with
    | Some d => let (ds, rest) := span_digits s' in (d :: ds, rest)
    | None => ([], s)
    end
  end.

(** The number written by a plain decimal literal: digits, then possibly
    a point and digits.  [None] for any other text. *)
Definition decimal_literal (s : pystr) : option Q :=
  match span_digits s with
  | ([], _) => None
  | (ip, []) => Some (inject_Z (Z.of_N (decimal_value ip)))
  | (ip, c :: rest) =>
    if c =? 46 then
      match span_digits rest with
      | (d :: fp, []) =>
        Some (Qmake (Z.of_N (decimal_value (ip ++ d :: fp)))
                    (Pos.pow 10 (Pos.of_nat (length (d :: fp)))))
      | _ => None
      end
    else None
  end.
End DecimalLiteral.

(** The parts of the runtime the source relies on and that are not in the
    repository: the Unicode database behind [\d] and [float], the text to
    number conversion [float], and [str] of a value that is not a string. *)
Class Runtime : Type := {
  unicode_decimal : codepoint -> option N;
  float_of_str : pystr -> res Q;
  repr_nonstring : pyval -> pystr;
  (* the comma and the point are not digits *)
  comma_not_digit : unicode_decimal 44 = None;
  point_not_digit : unicode_decimal 46 = None;
  (* [float] accepts every plain decimal literal and returns its value *)
  float_of_literal : forall s q,
    decimal_literal unicode_decimal s = Some q -> float_of_str s = Ok q
}.

(** [float(v)] *)
Definition float_of_value `{Runtime} (v : pyval) : res Q :=
  match v with
  | PNum q => Ok q
  | PBool b => Ok (if b then 1%Q else 0%Q)
  | PStr s => float_of_str s
  | _ => Raise (TypeError "float() argument must be a string or a real number")
  end.

(** [str(v)], as used by an f-string. *)
Definition py_str `{Runtime} (v : pyval) : pystr :=
  match v with
  | PStr s => s
  | _ => repr_nonstring v
  end.

(** ** Dates and their text forms *)

(** Decimal digits of [n], exactly [width] of them (zero padded). *)
Fixpoint zfill (width : nat) (n : Z) : pystr :=
  match width with
  | O => []
  | S w => zfill w (n / 10) ++ [48 + Z.to_N (n mod 10)]
  end.

Record datetime : Type := Datetime {
  dt_year : Z; dt_month : Z; dt_day : Z;
  dt_hour : Z; dt_minute : Z; dt_second : Z; dt_microsecond : Z
}.

Definition is_leap (y : Z) : bool :=
  ((y mod 4 =? 0) && negb (y mod 100 =? 0) || (y mod 400 =? 0))%Z.

Definition days_in_month (y m : Z) : Z :=
  (if m =? 2 then (if is_leap y then 29 else 28)
   else if (m =? 4) || (m =? 6) || (m =? 9) || (m =? 11) then 30
   else 31)%Z.

(** [datetime(year, month, day)]: the constructor checks its arguments. *)
Definition datetime_new (y m d : Z) : res datetime :=
  if negb ((1 <=? y) && (y <=? 9999))%Z
  then Raise (ValueError "year is out of range")
  else if negb ((1 <=? m) && (m <=? 12))%Z
  then Raise (ValueError "month must be in 1..12")
  else if negb ((1 <=? d) && (d <=? days_in_month y m))%Z
  then Raise (ValueError "day is out of range for month")
  else Ok (Datetime y m d 0 0 0 0).

(** [d.isoformat()]: the fraction is printed only when it is not zero. *)
Definition isoformat (d : datetime) : pystr :=
  zfill 4 (dt_year d) ++ u "-" ++ zfill 2 (dt_month d) ++ u "-" ++
  zfill 2 (dt_day d) ++ u "T" ++ zfill 2 (dt_hour d) ++ u ":" ++
  zfill 2 (dt_minute d) ++ u ":" ++ zfill 2 (dt_second d) ++
  (if (dt_microsecond d =? 0)%Z then [] else u "." ++ zfill 6 (dt_microsecond d)).

(** [d.strftime('%Y%m%d_%H%M%S_%f')] *)
Definition strftime_compact (d : datetime) : pystr :=
  zfill 4 (dt_year d) ++ zfill 2 (dt_month d) ++ zfill 2 (dt_day d) ++ u "_" ++
  zfill 2 (dt_hour d) ++ zfill 2 (dt_minute d) ++ zfill 2 (dt_second d) ++ u "_" ++
  zfill 6 (dt_microsecond d).

(** ** The world: one table, the clock, the failures of the backend *)

(** An item is an open bag of attributes. *)
Abbreviation item := (gmap string pyval).

Record world : Type := World {
  tbl : gmap pystr item;          (* the table, by key *)
  clock : nat -> datetime;        (* what [datetime.now()] answers, call after call *)
  ticks : nat;                    (* number of clock reads so far *)
  fault : nat -> option exn;      (* storage call number n fails with this *)
  calls : nat                     (* number of storage calls so far *)
}.

Definition set_tbl (t : gmap pystr item) (w : world) : world :=
  World t (clock w) (ticks w) (fault w) (calls w).

(** ** The monad of stateful code that can raise *)

Definition M (A : Type) : Type := world -> res A * world.

Definition ret {A} (a : A) : M A := fun w => (Ok a, w).

Definition bind {A B} (m : M A) (f : A -> M B) : M B :=
  fun w => match m w with
           | (Ok a, w') => f a w'
           | (Raise e, w') => (Raise e, w')
           end.

Definition lift {A} (r : res A) : M A := fun w => (r, w).

Definition throw {A} (e : exn) : M A := fun w => (Raise e, w).

(** [try: body except Exception as e: handler(e)].  What the body did to the
    world before it raised stays done. *)
Definition try_except {A} (body : M A) (handler : exn -> M A) : M A :=
  fun w => match body w with
           | (Ok a, w') => (Ok a, w')
           | (Raise e, w') => handler e w'
           end.

Declare Scope py_scope.
Delimit Scope py_scope with py.
Notation "'let*' x ':=' m 'in' k" := (bind m (fun x => k))
  (at level 10, x name, m at level 99, k at level 200,
   format "'[v' 'let*'  x  :=  m  'in' '/' k ']'") : py_scope.
Local Open Scope py_scope.

(** [datetime.now()] *)
Definition datetime_now : M datetime :=
  fun w => (Ok (clock w (ticks w)),
            World (tbl w) (clock w) (S (ticks w)) (fault w) (calls w)).

(** ** The DynamoDB table resource *)

Module Table.

(** Every request goes to the service once, and the service may refuse. *)
Definition request : M unit :=
  fun w =>
    let w' := World (tbl w) (clock w) (ticks w) (fault w) (S (calls w)) in
    match fault w (calls w) with
    | Some e => (Raise e, w')
    | None => (Ok tt, w')
    end.

Definition ValidationException : exn := ClientError "ValidationException".

(** [table.put_item(Item=item)]: the item replaces whatever has its key. *)
Definition put_item (key_name : string) (it : item) : M unit :=
  let* _ := request in
  match it !! key_name with
  | Some (PStr k) => fun w => (Ok tt, set_tbl (<[k := it]> (tbl w)) w)
  | _ => throw ValidationException
  end.

(** [table.get_item(Key={key_name: k})]: [Some] is the ['Item'] of the
    response, [None] a response without it. *)
Definition get_item (k : pystr) : M (option item) :=
  let* _ := request in
  fun w => (Ok (tbl w !! k), w).

(** [table.delete_item(Key={key_name: k})] *)
Definition delete_item (k : pystr) : M unit :=
  let* _ := request in
  fun w => (Ok tt, set_tbl (delete k (tbl w)) w).

(** An update expression [SET a1 = :p1, a2 = :p2, ...] is the list of its
    assignments (attribute, placeholder). *)
Definition update_expression := list (string * string).

Fixpoint has_dup (l : list string) : bool :=
  match l with
  | [] => false
  | x :: l' => existsb (String.eqb x) l' || has_dup l'
  end.

(** Placeholders are looked up in [ExpressionAttributeValues]. *)
Fixpoint resolve (expr : update_expression) (values : gmap string pyval)
  : option (list (string * pyval)) :=
  match expr with
  | [] => Some []
  | (a, p) :: expr' =>
    match values !! p, resolve expr' values with
    | Some v, Some l => Some ((a, v) :: l)
    | _, _ => None
    end
  end.

Definition apply_sets (sets : list (string * pyval)) (it : item) : item :=
  fold_left (fun acc av => <[fst av := snd av]> acc) sets it.

(** [table.update_item(Key=.., UpdateExpression=.., ExpressionAttributeValues=..,
    ReturnValues="ALL_NEW")].  The service rejects an expression that assigns
    one attribute twice or assigns the key, and a placeholder without value.
    An absent item is created.  The answer is the item after the update. *)
Definition update_item (key_name : string) (k : pystr)
    (expr : update_expression) (values : gmap string pyval) : M item :=
  let* _ := request in
  if has_dup (map fst expr) || existsb (String.eqb key_name) (map fst expr)
  then throw ValidationException
  else match resolve expr values with
       | None => throw ValidationException
       | Some sets =>
         fun w =>
           let old := default {[ key_name := PStr k ]} (tbl w !! k) in
           let new := apply_sets sets old in
           (Ok new, set_tbl (<[k := new]> (tbl w)) w)
       end.

(** The response of a scan: ['Items'] and ['Count']. *)
Record scan_response : Type := ScanResponse {
  Items : list item;
  Count : nat
}.

(** [table.scan(FilterExpression=..)]: the filter is given as a predicate. *)
Definition scan (keep : item -> bool) : M scan_response :=
  let* _ := request in
  fun w =>
    let found := filter (fun it => keep it = true) (map snd (map_to_list (tbl w))) in
    (Ok (ScanResponse found (length found)), w).

(** The conditions used by the filter expressions of the source. *)
Definition attribute_not_exists (a : string) (it : item) : bool :=
  match it !! a with None => true | Some _ => false end.

Definition attribute_equals (a : string) (s : pystr) (it : item) : bool :=
  match it !! a with Some (PStr t) => pystr_eqb t s | _ => false end.

(** [a BETWEEN :lo AND :hi] on strings: both ends belong to the range. *)
Definition attribute_between (a : string) (lo hi : pystr) (it : item) : bool :=
  match it !! a with
  | Some (PStr t) => pystr_leb lo t && pystr_leb t hi
  | _ => false
  end.

End Table.

(** ** Calls with keyword arguments *)

(** A call [f(x, **kwargs)] of a method [def f(self, p, **kwargs)] binds its
    arguments before the first statement of the body, so outside any [try]
    of the body.  A keyword that occurs twice (only unpacking several
    dictionaries can write one) raises [TypeError] while the arguments are
    collected, and a keyword that names a parameter that is already filled
    by position raises [TypeError] when they are bound.  In both cases the
    first offender in call order is reported. *)
Fixpoint repeated_keyword (seen : list string) (kwargs : list (string * pyval))
  : option string :=
  match kwargs with
  | [] => None
  | (key, _) :: kwargs' =>
    if existsb (String.eqb key) seen then Some key
    else repeated_keyword (key :: seen) kwargs'
  end.

Fixpoint filled_parameter (params : list string) (kwargs : list (string * pyval))
  : option string :=
  match kwargs with
  | [] => None
  | (key, _) :: kwargs' =>
    if existsb (String.eqb key) params then Some key
    else filled_parameter params kwargs'
  end.

Definition keyword_error (module_name qualname : string) (params : list string)
    (kwargs : list (string * pyval)) : option exn :=
  match repeated_keyword [] kwargs with
  | Some key =>
    Some (TypeError (module_name ++ "." ++ qualname
                     ++ "() got multiple values for keyword argument '" ++ key ++ "'"))
  | None =>
    match filled_parameter params kwargs with
    | Some key =>
      Some (TypeError (qualname ++ "() got multiple values for argument '" ++ key ++ "'"))
    | None => None
    end
  end.

Definition bind_keywords (module_name qualname : string) (params : list string)
    (kwargs : list (string * pyval)) : M unit :=
  match keyword_error module_name qualname params kwargs with
  | Some e => throw e
  | None => ret tt
  end.

(** ** Models/DynamoDBModel.py *)

(** The tagged dictionaries [{'success': True, 'data': ..}] and
    [{'success': False, 'error': ..}].  The raw ['response'] of the service
    is left out. *)
Inductive result (A : Type) : Type :=
| Success (data : A)
| Failure (error : pystr).
Arguments Success {A} data.
Arguments Failure {A} error.

(** The answer of the listing operations: ['data'] and ['count']. *)
Record listing : Type := Listing {
  data : list item;
  count : nat
}.

Definition opt_str (o : option pystr) : pyval :=
  match o with Some s => PStr s | None => PNone end.

Definition opt_num (o : option Q) : pyval :=
  match o with Some q => PNum q | None => PNone end.

(** [{k: v for k, v in item.items() if v is not None}] *)
Definition drop_none (it : item) : item :=
  filter (fun kv => is_none (snd kv) = false) it.

Module DynamoDBModel.

(** The fields of the pydantic model. *)
Record fields : Type := Fields {
  pk : pystr;
  created_at : option pystr;
  updated_at : option pystr;
  deleted_at : option pystr;
  transaction_type : option pystr;
  category : option pystr;
  description : option pystr;
  amount : option Q
}.

Definition _get_current_timestamp : M pystr :=
  let* now := datetime_now in
  ret (isoformat now).

Definition create (self : fields) : M (result item) :=
  let* current_time := _get_current_timestamp in
  let it : item := list_to_map [
    ("pk", PStr (pk self));
    ("created_at", PStr current_time);
    ("updated_at", PStr current_time);
    ("deleted_at", PNone);
    ("transaction_type", opt_str (transaction_type self));
    ("category", opt_str (category self));
    ("description", opt_str (description self));
    ("amount", opt_num (amount self)) ] in
  let it := drop_none it in
  try_except
    (let* response := Table.put_item "pk" it in
     ret (Success it))
    (fun e => ret (Failure (str_exn e))).

Definition read (pk : pystr) : M (result item) :=
  try_except
    (let* response := Table.get_item pk in
     match response with
     | Some it => ret (Success it)
     | None => ret (Failure (u "Item not found"))
     end)
    (fun e => ret (Failure (str_exn e))).

(** The loop of [update] over [kwargs.items()]: the expression grows by
    [", {key} = :{key}"] and the value is filed under [":{key}"]. *)
Definition add_field (key_name : string)
    (acc : Table.update_expression * gmap string pyval) (kv : string * pyval)
  : Table.update_expression * gmap string pyval :=
  let (key, value) := kv in
  if negb (String.eqb key key_name) && negb (is_none value)
  then (fst acc ++ [(key, (":" ++ key)%string)],
        <[(":" ++ key)%string := value]> (snd acc))
  else acc.

(** [def update(self, pk: str, **kwargs)], called as [record.update(pk, **kwargs)]. *)
Definition update (pk : pystr) (kwargs : list (string * pyval)) : M (result item) :=
  let* _ := bind_keywords "Models.DynamoDBModel" "DynamoDBModel.update"
                          ["self"; "pk"] kwargs in
  try_except
    (let* now := _get_current_timestamp in
     let update_expression := [("updated_at", ":updated_at")]%string in
     let expression_attribute_values : gmap string pyval :=
       {[ ":updated_at"%string := PStr now ]} in
     let '(update_expression, expression_attribute_values) :=
       fold_left (add_field "pk") kwargs
                 (update_expression, expression_attribute_values) in
     let* response :=
       Table.update_item "pk" pk update_expression expression_attribute_values in
     ret (Success response))
    (fun e => ret (Failure (str_exn e))).

Definition delete (pk : pystr) (soft_delete : bool) : M (result item) :=
  try_except
    (if soft_delete then
       let* now := _get_current_timestamp in
       let* response :=
         Table.update_item "pk" pk [("deleted_at", ":deleted_at")]%string
                           {[ ":deleted_at"%string := PStr now ]} in
       ret (Success response)
     else
       let* response := Table.delete_item pk in
       ret (Success ({[ "pk"%string := PStr pk ]} : item)))
    (fun e => ret (Failure (str_exn e))).

Definition list_all (include_deleted : bool) : M (result listing) :=
  try_except
    (let* response :=
       (if include_deleted then Table.scan (fun _ => true)
        else Table.scan (Table.attribute_not_exists "deleted_at")) in
     ret (Success (Listing (Table.Items response) (Table.Count response))))
    (fun e => ret (Failure (str_exn e))).

Definition query_by_transaction_type (transaction_type : pystr) : M (result listing) :=
  try_except
    (let* response :=
       Table.scan (fun it =>
         Table.attribute_equals "transaction_type" transaction_type it
         && Table.attribute_not_exists "deleted_at" it) in
     ret (Success (Listing (Table.Items response) (Table.Count response))))
    (fun e => ret (Failure (str_exn e))).

Definition query_by_category (category : pystr) : M (result listing) :=
  try_except
    (let* response :=
       Table.scan (fun it =>
         Table.attribute_equals "category" category it
         && Table.attribute_not_exists "deleted_at" it) in
     ret (Success (Listing (Table.Items response) (Table.Count response))))
    (fun e => ret (Failure (str_exn e))).

End DynamoDBModel.

(** ** Models/Money.py *)

Module Money.
Import DynamoDBModel.

(** The literals of the two recognised transaction types. *)
Definition income_tag : pystr := Eval vm_compute in u "収入".
Definition expense_tag : pystr := Eval vm_compute in u "支出".

Definition get_income_records : M (result listing) :=
  query_by_transaction_type income_tag.

Definition get_expense_records : M (result listing) :=
  query_by_transaction_type expense_tag.

Definition get_records_by_category (category : pystr) : M (result listing) :=
  query_by_category category.

(** The successful answer of [get_total_amount]. *)
Record totals : Type := Totals {
  total_amount : Q;
  record_count : nat;
  totals_transaction_type : option pystr
}.

(** The loop of [get_total_amount]:
    [if item.get('amount') is not None: total_amount += float(item['amount'])] *)
Fixpoint sum_amounts `{Runtime} (total_amount : Q) (items : list item) : res Q :=
  match items with
  | [] => Ok total_amount
  | it :: rest =>
    match it !! "amount"%string with
    | Some v =>
      if is_none v then sum_amounts total_amount rest
      else res_bind (float_of_value v)
             (fun x => sum_amounts (total_amount + x)%Q rest)
    | None => sum_amounts total_amount rest
    end
  end.

Definition get_total_amount `{Runtime} (transaction_type : option pystr)
  : M (result totals) :=
  let* result :=
    (match transaction_type with
     | Some (c :: t) => query_by_transaction_type (c :: t)
     | _ => list_all false
     end) in
  match result with
  | Failure error => ret (Failure error)
  | Success l =>
    let* total_amount := lift (sum_amounts 0%Q (data l)) in
    ret (Success (Totals total_amount (length (data l)) transaction_type))
  end.

(** The successful answer of [get_monthly_summary]. *)
Record summary : Type := Summary {
  year : Z;
  month : Z;
  income_total : Q;
  expense_total : Q;
  net_amount : Q;
  income_count : nat;
  expense_count : nat;
  total_records : nat
}.

(** The four accumulators of the summary loop. *)
Record tally : Type := Tally {
  t_income_total : Q;
  t_expense_total : Q;
  t_income_count : nat;
  t_expense_count : nat
}.

(** [total += amount] for a numeric total. *)
Definition add_amount (total : Q) (amount : pyval) : res Q :=
  match amount with
  | PNum q => Ok (total + q)%Q
  | PBool b => Ok (total + (if b then 1 else 0))%Q
  | _ => Raise (TypeError "unsupported operand type(s) for +=")
  end.

(** [record.get('amount', 0) or 0] *)
Definition amount_or_zero (record : item) : pyval :=
  let v := default (PNum 0) (record !! "amount"%string) in
  if truthy v then v else PNum 0.

(** One turn of the summary loop. *)
Definition tally_record (t : tally) (record : item) : res tally :=
  let amount := amount_or_zero record in
  let transaction_type := default (PStr []) (record !! "transaction_type"%string) in
  if eq_str transaction_type income_tag then
    res_bind (add_amount (t_income_total t) amount) (fun total =>
      Ok (Tally total (t_expense_total t) (S (t_income_count t)) (t_expense_count t)))
  else if eq_str transaction_type expense_tag then
    res_bind (add_amount (t_expense_total t) amount) (fun total =>
      Ok (Tally (t_income_total t) total (t_income_count t) (S (t_expense_count t))))
  else Ok t.

Fixpoint tally_records (t : tally) (records : list item) : res tally :=
  match records with
  | [] => Ok t
  | record :: rest => res_bind (tally_record t record) (fun t' => tally_records t' rest)
  end.

(** The filter of the monthly scan:
    [created_at BETWEEN :start_date AND :end_date AND attribute_not_exists(deleted_at)] *)
Definition monthly_filter (start_date end_date : pystr) (it : item) : bool :=
  Table.attribute_between "created_at" start_date end_date it
  && Table.attribute_not_exists "deleted_at" it.

Definition get_monthly_summary (year month : Z) : M (result summary) :=
  let* start_date := lift (res_bind (datetime_new year month 1)
                                    (fun d => Ok (isoformat d))) in
  let* end_date :=
    lift (if (month =? 12)%Z
          then res_bind (datetime_new (year + 1) 1 1) (fun d => Ok (isoformat d))
          else res_bind (datetime_new year (month + 1) 1) (fun d => Ok (isoformat d))) in
  try_except
    (let* response := Table.scan (monthly_filter start_date end_date) in
     let records := Table.Items response in
     let* t := lift (tally_records (Tally 0 0 0 0) records) in
     ret (Success (Summary year month
                     (t_income_total t) (t_expense_total t)
                     (t_income_total t - t_expense_total t)%Q
                     (t_income_count t) (t_expense_count t)
                     (length records))))
    (fun e => ret (Failure (str_exn e))).

End Money.

(** ** Services/SendLineService.py *)

Module SendLineService.

Definition _get_current_timestamp : M pystr :=
  let* now := datetime_now in
  ret (isoformat now).

(** The tagged dictionaries of the service carry a ['message'] as well. *)
Record answer (A : Type) : Type := Answer {
  outcome : result A;
  message : pystr
}.
Arguments Answer {A} outcome message.
Arguments outcome {A} a.
Arguments message {A} a.

Definition success {A} (a : answer A) : bool :=
  match outcome a with Success _ => true | Failure _ => false end.

(** The keyword arguments of [write_line_transaction] other than [lmn]. *)
Record write_data : Type := WriteData {
  wd_transaction_type : pyval;
  wd_category : pyval;
  wd_description : pyval;
  wd_amount : pyval;
  wd_line_user_id : pyval;
  wd_line_message : pyval;
  wd_additional_data : option (list (string * pyval))
}.

(** [item.update(additional_data)]: a later entry for a key replaces the
    earlier one. *)
Definition dict_update (it : item) (d : list (string * pyval)) : item :=
  fold_left (fun acc kv => <[fst kv := snd kv]> acc) d it.

Definition write_line_transaction (lmn : pystr) (args : write_data)
  : M (answer item) :=
  let* current_time := _get_current_timestamp in
  let it : item := list_to_map [
    ("lmn", PStr lmn);
    ("created_at", PStr current_time);
    ("updated_at", PStr current_time);
    ("deleted_at", PNone);
    ("transaction_type", wd_transaction_type args);
    ("category", wd_category args);
    ("description", wd_description args);
    ("amount", wd_amount args);
    ("line_user_id", wd_line_user_id args);
    ("line_message", wd_line_message args) ] in
  let it :=
    match wd_additional_data args with
    | Some (kv :: d) => dict_update it (kv :: d)
    | _ => it
    end in
  let it := drop_none it in
  try_except
    (let* response := Table.put_item "lmn" it in
     ret (Answer (Success it) (u "Line transaction written successfully")))
    (fun e => ret (Answer (Failure (str_exn e)) (u "Failed to write line transaction"))).

(** What the parser hands over: the four keys of its dictionary. *)
Record parsed : Type := Parsed {
  p_transaction_type : pystr;
  p_category : pystr;
  p_description : pyval;
  p_amount : option Q
}.

Definition write_from_line_message `{Runtime}
    (line_user_id line_message : pyval) (parsed_data : option parsed)
  : M (answer item) :=
  let* current_time := datetime_now in
  let lmn := u "lmn_" ++ py_str line_user_id ++ u "_" ++ strftime_compact current_time in
  let write_data :=
    match parsed_data with
    | Some d =>
      WriteData (PStr (p_transaction_type d)) (PStr (p_category d))
                (p_description d) (opt_num (p_amount d))
                line_user_id line_message None
    | None => WriteData PNone PNone PNone PNone line_user_id line_message None
    end in
  write_line_transaction lmn write_data.

(** [def update_line_transaction(self, lmn: str, **kwargs)], called as
    [service.update_line_transaction(lmn, **kwargs)]. *)
Definition update_line_transaction (lmn : pystr) (kwargs : list (string * pyval))
  : M (answer item) :=
  let* _ := bind_keywords "Services.SendLineService"
                          "SendLineService.update_line_transaction"
                          ["self"; "lmn"] kwargs in
  try_except
    (let* now := _get_current_timestamp in
     let update_expression := [("updated_at", ":updated_at")]%string in
     let expression_attribute_values : gmap string pyval :=
       {[ ":updated_at"%string := PStr now ]} in
     let '(update_expression, expression_attribute_values) :=
       fold_left (DynamoDBModel.add_field "lmn") kwargs
                 (update_expression, expression_attribute_values) in
     let* response :=
       Table.update_item "lmn" lmn update_expression expression_attribute_values in
     ret (Answer (Success response) (u "Line transaction updated successfully")))
    (fun e => ret (Answer (Failure (str_exn e)) (u "Failed to update line transaction"))).

Definition read_line_transaction (lmn : pystr) : M (answer item) :=
  try_except
    (let* response := Table.get_item lmn in
     match response with
     | Some it => ret (Answer (Success it) (u "Line transaction found"))
     | None =>
       ret (Answer (Failure (u "Item not found"))
                   (u "Line transaction with lmn " ++ lmn ++ u " not found"))
     end)
    (fun e => ret (Answer (Failure (str_exn e)) (u "Failed to read line transaction"))).

End SendLineService.

(** ** The regular expression engine behind [re.search] *)

Module Re.

Inductive regex : Type :=
| Eps
| Lit (c : codepoint)          (* one given character *)
| Digit                        (* [\d] *)
| Seq (a b : regex)
| Alt (a b : regex)            (* [a|b], [a] tried first *)
| Star (a : regex).            (* [a*], greedy *)

Definition Plus (a : regex) : regex := Seq a (Star a).      (* [a+] *)
Definition Opt (a : regex) : regex := Alt a Eps.            (* [a?] *)

(** Backtracking matcher: [exec r s k] matches [r] at the start of [s] and
    hands what is left to [k]; the first way that [k] accepts wins.  A
    greedy star tries one more turn before it tries to stop; a turn that
    consumes nothing is not repeated. *)
Fixpoint exec `{Runtime} (r : regex) (s : pystr) (k : pystr -> option pystr)
  {struct r} : option pystr :=
  match r with
  | Eps => k s
  | Lit c =>
    match s with
    | x :: s' => if x =? c then k s' else None
    | [] => None
    end
  | Digit =>
    match s with
    | x :: s' => if is_digit unicode_decimal x then k s' else None
    | [] => None
    end
  | Seq a b => exec a s (fun s' => exec b s' k)
  | Alt a b =>
    match exec a s k with
    | Some rest => Some rest
    | None => exec b s k
    end
  | Star a =>
    (fix loop (fuel : nat) (s : pystr) {struct fuel} : option pystr :=
       match fuel with
       | O => k s
       | S fuel' =>
         match exec a s (fun s' =>
                 if (length s' <? length s)%nat then loop fuel' s' else None) with
         | Some rest => Some rest
         | None => k s
         end
       end) (length s) s
  end.

(** [re.match(r, s)]: the matched text, if [r] matches at the start. *)
Definition match_at `{Runtime} (r : regex) (s : pystr) : option pystr :=
  match exec r s Some with
  | Some rest => Some (firstn (length s - length rest) s)
  | None => None
  end.

(** [re.search(r, s)]: the match at the leftmost position that has one. *)
Fixpoint search `{Runtime} (r : regex) (s : pystr) : option pystr :=
  match match_at r s with
  | Some m => Some m
  | None =>
    match s with
    | [] => None
    | _ :: s' => search r s'
    end
  end.

End Re.

(** ** lambda_function.py *)

Module LambdaFunction.
Import Re SendLineService.

(** [r'(\d+(?:,\d{3})*(?:\.\d+)?)'] *)
Definition amount_pattern : regex :=
  Seq (Plus Digit)
      (Seq (Star (Seq (Lit 44) (Seq Digit (Seq Digit Digit))))
           (Opt (Seq (Lit 46) (Plus Digit)))).

(** [s.replace(',', '')] *)
Definition remove_commas (s : pystr) : pystr :=
  filter (fun c => c <> 44) s.

Definition income_keywords : list pystr := Eval vm_compute in
  map u ["給与"; "ボーナス"; "賞与"; "収入"; "入金"; "売上"]%string.

Definition food_keywords : list pystr := Eval vm_compute in
  map u ["食費"; "食事"; "昼食"; "夕食"; "朝食"; "弁当"; "レストラン"]%string.
Definition transport_keywords : list pystr := Eval vm_compute in
  map u ["交通費"; "電車"; "バス"; "タクシー"; "ガソリン"]%string.
Definition housing_keywords : list pystr := Eval vm_compute in
  map u ["家賃"; "住居費"; "賃貸"]%string.
Definition utilities_keywords : list pystr := Eval vm_compute in
  map u ["光熱費"; "電気"; "ガス"; "水道"]%string.
Definition medical_keywords : list pystr := Eval vm_compute in
  map u ["医療費"; "病院"; "薬"]%string.
Definition entertainment_keywords : list pystr := Eval vm_compute in
  map u ["娯楽"; "映画"; "ゲーム"; "本"]%string.
Definition shopping_keywords : list pystr := Eval vm_compute in
  map u ["買い物"; "ショッピング"; "服"; "雑貨"]%string.

Definition kw_salary : pystr := Eval vm_compute in u "給与".
Definition kw_bonus : pystr := Eval vm_compute in u "ボーナス".
Definition kw_bonus2 : pystr := Eval vm_compute in u "賞与".

Definition type_income : pystr := Eval vm_compute in u "収入".
Definition type_expense : pystr := Eval vm_compute in u "支出".

Definition cat_other : pystr := Eval vm_compute in u "その他".
Definition cat_salary : pystr := Eval vm_compute in u "給与".
Definition cat_income : pystr := Eval vm_compute in u "収入".
Definition cat_food : pystr := Eval vm_compute in u "食費".
Definition cat_transport : pystr := Eval vm_compute in u "交通費".
Definition cat_housing : pystr := Eval vm_compute in u "住居費".
Definition cat_utilities : pystr := Eval vm_compute in u "光熱費".
Definition cat_medical : pystr := Eval vm_compute in u "医療費".
Definition cat_entertainment : pystr := Eval vm_compute in u "娯楽費".
Definition cat_shopping : pystr := Eval vm_compute in u "買い物".

(** The body of the [try] of [_parse_message]. *)
Definition parse_body `{Runtime} (message_text : pyval) : res parsed :=
  (* re.search needs a string *)
  res_bind
    (match message_text with
     | PStr s => Ok s
     | _ => Raise (TypeError "expected string or bytes-like object")
     end) (fun text =>
  let amount_match := search amount_pattern text in
  res_bind
    (match amount_match with
     | Some m =>
       let amount_str := remove_commas m in
       res_bind (float_of_str amount_str) (fun amount => Ok (Some amount))
     | None => Ok None
     end) (fun amount =>
  let category := cat_other in
  let transaction_type := type_expense in
  let '(transaction_type, category) :=
    if any_in income_keywords text then
      (type_income,
       if contains kw_salary text || contains kw_bonus text || contains kw_bonus2 text
       then cat_salary else cat_income)
    else
      (transaction_type,
       if any_in food_keywords text then cat_food
       else if any_in transport_keywords text then cat_transport
       else if any_in housing_keywords text then cat_housing
       else if any_in utilities_keywords text then cat_utilities
       else if any_in medical_keywords text then cat_medical
       else if any_in entertainment_keywords text then cat_entertainment
       else if any_in shopping_keywords text then cat_shopping
       else category) in
  Ok (Parsed transaction_type category message_text amount))).

(** The dictionary returned by the [except] branch. *)
Definition parse_default (message_text : pyval) : parsed :=
  Parsed type_expense cat_other message_text None.

Definition _parse_message `{Runtime} (message_text : pyval) : res parsed :=
  match parse_body message_text with
  | Ok d => Ok d
  | Raise e => Ok (parse_default message_text)
  end.

(** [d.get(key, default)]; only a dictionary has [get]. *)
Fixpoint assoc (key : string) (d : list (string * pyval)) : option pyval :=
  match d with
  | [] => None
  | (k, v) :: d' => if String.eqb k key then Some v else assoc key d'
  end.

Definition py_get (d : pyval) (key : string) (default : pyval) : res pyval :=
  match d with
  | PDict l => Ok (match assoc key l with Some v => v | None => default end)
  | _ => Raise (AttributeError "object has no attribute 'get'")
  end.

(** The elements that [for x in v] visits. *)
Definition py_iter (v : pyval) : res (list pyval) :=
  match v with
  | PList l => Ok l
  | PDict d => Ok (map (fun kv => PStr (u (fst kv))) d)
  | PStr s => Ok (map (fun c => PStr [c]) s)
  | _ => Raise (TypeError "object is not iterable")
  end.

(** One turn of the loop of [_process_line_messages]; the answer is the new
    value of [processed_count]. *)
Definition process_event `{Runtime} (event : pyval) (processed_count : nat) : M nat :=
  let* ty := lift (py_get event "type" PNone) in
  if negb (eq_str ty (u "message")) then ret processed_count else
  let* message := lift (py_get event "message" (PDict [])) in
  let* mty := lift (py_get message "type" PNone) in
  if negb (eq_str mty (u "text")) then ret processed_count else
  let* source := lift (py_get event "source" (PDict [])) in
  let* user_id := lift (py_get source "userId" PNone) in
  let* message_text := lift (py_get message "text" (PStr [])) in
  if negb (truthy user_id) || negb (truthy message_text) then ret processed_count else
  let* parsed_data := lift (_parse_message message_text) in
  let* result := write_from_line_message user_id message_text (Some parsed_data) in
  if success result then ret (S processed_count) else ret processed_count.

Fixpoint process_events `{Runtime} (events : list pyval) (processed_count : nat)
  : M nat :=
  match events with
  | [] => ret processed_count
  | event :: rest =>
    let* processed_count := process_event event processed_count in
    process_events rest processed_count
  end.

(** The answer is [{'success': True, 'processed_count': n}] or
    [{'success': False, 'error': ..}]. *)
Definition _process_line_messages `{Runtime} (body : pyval) : M (result nat) :=
  try_except
    (let* events := lift (py_get body "events" (PList [])) in
     let* events := lift (py_iter events) in
     let* processed_count := process_events events 0%nat in
     ret (Success processed_count))
    (fun e => ret (Failure (str_exn e))).

End LambdaFunction.

(** * Properties *)

(** ** A concrete runtime *)

(** A runtime that knows the ASCII digits and the full-width digits, and
    whose [float] reads plain decimal literals only. *)
Definition sample_decimal (c : codepoint) : option N :=
  if (48 <=? c) && (c <=? 57) then Some (c - 48)
  else if (65296 <=? c) && (c <=? 65305) then Some (c - 65296)
  else None.

Definition sample_float (s : pystr) : res Q :=
  match decimal_literal sample_decimal s with
  | Some q => Ok q
  | None => Raise (ValueError "could not convert string to float")
  end.

Lemma sample_float_of_literal s q :
  decimal_literal sample_decimal s = Some q -> sample_float s = Ok q.
Proof. unfold sample_float. intros ->. reflexivity. Qed.

Definition sample_runtime : Runtime :=
  {| unicode_decimal := sample_decimal;
     float_of_str := sample_float;
     repr_nonstring := fun _ => u "<object>";
     comma_not_digit := eq_refl;
     point_not_digit := eq_refl;
     float_of_literal := sample_float_of_literal |}.

(** ** A concrete world *)

Definition sample_clock (n : nat) : datetime :=
  Datetime 2024 12 1 9 30 (Z.of_nat n) 0.

Definition no_fault : nat -> option exn := fun _ => None.

Definition empty_world : world := World ∅ sample_clock 0 no_fault 0.

(** The first record of [example_usage.py]. *)
Definition lunch : DynamoDBModel.fields :=
  DynamoDBModel.Fields (u "user123_20241201_001") None None None
    (Some (u "支出")) (Some (u "食費")) (Some (u "昼食代")) (Some 850%Q).

(** The world after [lunch] was created in an empty table. *)
Definition lunch_world : world := snd (DynamoDBModel.create lunch empty_world).

(** ** Strings *)

Lemma pystr_eqb_eq (a b : pystr) : pystr_eqb a b = true <-> a = b.
Proof.
  revert b. induction a as [|x a IH]; intros [|y b]; simpl; try (split; congruence).
  rewrite andb_true_iff, N.eqb_eq, IH. split.
  - intros [-> ->]. reflexivity.
  - intros [= -> ->]. auto.
Qed.

Lemma pystr_eqb_refl (a : pystr) : pystr_eqb a a = true.
Proof. apply pystr_eqb_eq. reflexivity. Qed.

Lemma pystr_leb_refl (a : pystr) : pystr_leb a a = true.
Proof.
  induction a as [|x a IH]; simpl; [reflexivity|].
  rewrite N.eqb_refl, IH. apply orb_true_r.
Qed.

(** ** The table *)

Section TableFacts.
Import Table.

Lemma request_ok w :
  fault w (calls w) = None ->
  request w = (Ok tt, World (tbl w) (clock w) (ticks w) (fault w) (S (calls w))).
Proof. unfold request. intros ->. reflexivity. Qed.

Lemma request_inv w r w' :
  request w = (r, w') ->
  w' = World (tbl w) (clock w) (ticks w) (fault w) (S (calls w)) /\
  match r with
  | Ok _ => fault w (calls w) = None
  | Raise e => fault w (calls w) = Some e
  end.
Proof.
  unfold request. destruct (fault w (calls w)); intros ?; simplify_eq/=; auto.
Qed.

(** What a scan finds: the stored items that pass the filter. *)
Lemma scan_inv keep w resp w' :
  scan keep w = (Ok resp, w') ->
  tbl w' = tbl w /\
  fault w (calls w) = None /\
  Count resp = length (Items resp) /\
  forall it, it ∈ Items resp <-> (exists k, tbl w !! k = Some it) /\ keep it = true.
Proof.
  unfold scan, bind. destruct (request w) as [[[]|e] w1] eqn:Hreq; [|discriminate].
  apply request_inv in Hreq as [-> Hf]. intros ?; simplify_eq/=.
  split; [reflexivity|]. split; [exact Hf|]. split; [reflexivity|].
  intros it. split.
  - intros Hin. apply list_elem_of_filter in Hin as [Hk Hin].
    apply list_elem_of_fmap in Hin as [[k it'] [-> Hin]].
    split; [|exact Hk].
    exists k. apply elem_of_map_to_list. exact Hin.
  - intros [[k Hk] Hkeep]. apply list_elem_of_filter. split; [exact Hkeep|].
    apply list_elem_of_fmap. exists (k, it). split; [reflexivity|].
    apply elem_of_map_to_list. exact Hk.
Qed.

Lemma scan_ok keep w :
  fault w (calls w) = None ->
  exists resp w', scan keep w = (Ok resp, w').
Proof.
  intros Hf. unfold scan, bind. rewrite (request_ok w Hf). eauto.
Qed.

Lemma scan_raise keep w e w' :
  scan keep w = (Raise e, w') -> fault w (calls w) = Some e /\ tbl w' = tbl w.
Proof.
  unfold scan, bind. destruct (request w) as [[[]|e'] w1] eqn:Hreq.
  - discriminate.
  - apply request_inv in Hreq as [-> Hf]. intros ?; simplify_eq/=. auto.
Qed.
End TableFacts.

(** ** The record store *)

Section StoreFacts.
Import Table DynamoDBModel.

(** Every item is filed under the value of its key attribute. *)
Definition keyedb (key_name : string) (t : gmap pystr item) : bool :=
  forallb (fun kv => match snd kv !! key_name with
                     | Some (PStr k) => pystr_eqb k (fst kv)
                     | _ => false
                     end) (map_to_list t).

Lemma keyedb_lookup key_name t k it :
  keyedb key_name t = true -> t !! k = Some it -> it !! key_name = Some (PStr k).
Proof.
  unfold keyedb. rewrite forallb_forall. intros Hall Hk.
  specialize (Hall (k, it)). simpl in Hall.
  destruct (it !! key_name) as [[]|].
  all: try (discriminate Hall; apply list_elem_of_In, elem_of_map_to_list; exact Hk).
  f_equal. f_equal. apply pystr_eqb_eq. apply Hall.
  apply list_elem_of_In, elem_of_map_to_list. exact Hk.
Qed.

Lemma timestamp_run w :
  _get_current_timestamp w =
  (Ok (isoformat (clock w (ticks w))),
   World (tbl w) (clock w) (S (ticks w)) (fault w) (calls w)).
Proof. reflexivity. Qed.

Lemma update_item_inv key_name k expr values w new w' :
  update_item key_name k expr values w = (Ok new, w') ->
  fault w (calls w) = None /\
  has_dup (map fst expr) = false /\
  existsb (String.eqb key_name) (map fst expr) = false /\
  exists sets,
    resolve expr values = Some sets /\
    new = apply_sets sets (default {[ key_name := PStr k ]} (tbl w !! k)) /\
    w' = World (<[k := new]> (tbl w)) (clock w) (ticks w) (fault w) (S (calls w)).
Proof.
  unfold update_item, bind.
  destruct (request w) as [[[]|e] w1] eqn:Hreq; [|discriminate].
  apply request_inv in Hreq as [-> Hf].
  destruct (has_dup (map fst expr)) eqn:Hdup; [discriminate|].
  destruct (existsb (String.eqb key_name) (map fst expr)) eqn:Hkey; [discriminate|].
  simpl. destruct (resolve expr values) as [sets|] eqn:Hres; [|discriminate].
  intros ?; simplify_eq/=. eauto 10.
Qed.

Lemma update_item_ok key_name k expr values sets w :
  fault w (calls w) = None ->
  has_dup (map fst expr) = false ->
  existsb (String.eqb key_name) (map fst expr) = false ->
  resolve expr values = Some sets ->
  let new := apply_sets sets (default {[ key_name := PStr k ]} (tbl w !! k)) in
  update_item key_name k expr values w =
  (Ok new, World (<[k := new]> (tbl w)) (clock w) (ticks w) (fault w) (S (calls w))).
Proof.
  intros Hf Hdup Hkey Hres. unfold update_item, bind.
  rewrite (request_ok w Hf), Hdup, Hkey. simpl. rewrite Hres. reflexivity.
Qed.

(** A listing that succeeds holds the stored items, without the deleted
    ones unless they are asked for. *)
Lemma list_all_inv include_deleted w l w' :
  list_all include_deleted w = (Ok (Success l), w') ->
  tbl w' = tbl w /\
  count l = length (data l) /\
  forall it, it ∈ data l <->
    (exists k, tbl w !! k = Some it) /\
    (include_deleted = false -> it !! "deleted_at"%string = None).
Proof.
  unfold list_all, try_except, bind.
  destruct include_deleted.
  - destruct (scan _ w) as [[resp|e] w1] eqn:Hscan; simpl; [|discriminate].
    apply scan_inv in Hscan as (Ht & _ & Hc & Hin).
    intros ?; simplify_eq/=. split; [exact Ht|]. split; [exact Hc|].
    intros it. rewrite Hin. split; [intros [? _]|intros [? _]]; split; auto. discriminate.
  - destruct (scan _ w) as [[resp|e] w1] eqn:Hscan; simpl; [|discriminate].
    apply scan_inv in Hscan as (Ht & _ & Hc & Hin).
    intros ?; simplify_eq/=. split; [exact Ht|]. split; [exact Hc|].
    intros it. rewrite Hin. unfold attribute_not_exists.
    destruct (it !! "deleted_at"%string); split; intros [Hk H2]; split; auto.
    + discriminate H2.
    + discriminate (H2 eq_refl).
Qed.

(** A listing never raises, and fails only when the service does. *)
Lemma list_all_total include_deleted w :
  exists r w', list_all include_deleted w = (Ok r, w') /\
    match r with
    | Success _ => fault w (calls w) = None
    | Failure error => exists e, fault w (calls w) = Some e /\ error = str_exn e
    end.
Proof.
  unfold list_all, try_except, bind.
  destruct (fault w (calls w)) as [e|] eqn:Hf.
  - destruct include_deleted; unfold scan, bind, request; rewrite Hf; simpl;
      eexists _, _; (split; [reflexivity|]); simpl; eauto.
  - destruct include_deleted; unfold scan, bind; rewrite (request_ok w Hf); simpl;
      eexists _, _; (split; [reflexivity|]); simpl; eauto.
Qed.
End StoreFacts.

Section SoftDelete.
Import Table DynamoDBModel.

Lemma resolve_deleted_at now :
  resolve [("deleted_at", ":deleted_at")]%string
          {[ ":deleted_at"%string := PStr now ]}
  = Some [("deleted_at"%string, PStr now)].
Proof. unfold resolve. rewrite lookup_singleton_eq. reflexivity. Qed.

(** What a successful soft delete did. *)
Lemma soft_delete_inv k w d w1 :
  delete k true w = (Ok (Success d), w1) ->
  let now := isoformat (clock w (ticks w)) in
  d = <["deleted_at"%string := PStr now]> (default {[ "pk"%string := PStr k ]} (tbl w !! k)) /\
  w1 = World (<[k := d]> (tbl w)) (clock w) (S (ticks w)) (fault w) (S (calls w)).
Proof.
  unfold delete, try_except, bind. rewrite timestamp_run.
  destruct (update_item _ _ _ _ _) as [[new|e] w'] eqn:Hup; simpl; [|discriminate].
  apply update_item_inv in Hup as (_ & _ & _ & sets & Hres & Hnew & Hw).
  rewrite resolve_deleted_at in Hres. simplify_eq/=.
  intros ?; simplify_eq/=. split; reflexivity.
Qed.

(** A listing whose storage call is not refused succeeds. *)
Lemma list_all_succeeds include_deleted w :
  fault w (calls w) = None ->
  exists l w', list_all include_deleted w = (Ok (Success l), w').
Proof.
  intros Hf. destruct (list_all_total include_deleted w) as (r & w' & Hrun & Hr).
  destruct r as [l|error].
  - eauto.
  - destruct Hr as (e & He & _). congruence.
Qed.

(** C6.  After a successful soft delete of a stored record, the default
    listing leaves the record out, as it leaves out every item that has a
    [deleted_at] attribute whatever its value, and the listing that
    includes deleted items holds the record with [deleted_at] set to the
    time of the deletion.  Both listings are there to look at whenever the
    service does not refuse the scan. *)
Theorem soft_delete_filter (w w1 : world) (k : pystr) (R d : item) :
  keyedb "pk" (tbl w) = true ->
  tbl w !! k = Some R ->
  delete k true w = (Ok (Success d), w1) ->
  let now := isoformat (clock w (ticks w)) in
  d = <["deleted_at"%string := PStr now]> R /\
  d !! "deleted_at"%string = Some (PStr now) /\
  (forall l w2, list_all false w1 = (Ok (Success l), w2) ->
     (d ∉ data l) /\
     (forall it, it ∈ data l -> it !! "pk"%string <> Some (PStr k)) /\
     (forall it, it ∈ data l <->
        (exists k', tbl w1 !! k' = Some it) /\ it !! "deleted_at"%string = None)) /\
  (forall l w2, list_all true w1 = (Ok (Success l), w2) -> d ∈ data l) /\
  (fault w1 (calls w1) = None ->
     (exists l w2, list_all false w1 = (Ok (Success l), w2) /\
        (d ∉ data l) /\
        (forall it, it ∈ data l -> it !! "pk"%string <> Some (PStr k))) /\
     (exists l w2, list_all true w1 = (Ok (Success l), w2) /\
        d ∈ data l /\ d !! "deleted_at"%string = Some (PStr now))).
Proof.
  intros Hkeyed HR Hdel now.
  apply soft_delete_inv in Hdel as [Hd Hw1]. rewrite HR in Hd. simpl in Hd.
  fold now in Hd.
  assert (Hda : d !! "deleted_at"%string = Some (PStr now))
    by (rewrite Hd; apply lookup_insert_eq).
  assert (Ht1 : tbl w1 = <[k := d]> (tbl w)) by (rewrite Hw1; reflexivity).
  assert (Hactive : forall l w2, list_all false w1 = (Ok (Success l), w2) ->
     (d ∉ data l) /\
     (forall it, it ∈ data l -> it !! "pk"%string <> Some (PStr k)) /\
     (forall it, it ∈ data l <->
        (exists k', tbl w1 !! k' = Some it) /\ it !! "deleted_at"%string = None)).
  { intros l w2 Hl. apply list_all_inv in Hl as (_ & _ & Hin).
    assert (Hchar : forall it, it ∈ data l <->
        (exists k', tbl w1 !! k' = Some it) /\ it !! "deleted_at"%string = None).
    { intros it. rewrite Hin. split; intros [Hk Hn]; split; auto. }
    split; [|split; [|exact Hchar]].
    + intros Hd_in. apply Hchar in Hd_in as [_ Hn]. congruence.
    + intros it Hit. apply Hchar in Hit as [[k' Hk'] Hn].
      rewrite Ht1 in Hk'. destruct (decide (k = k')) as [<-|Hne].
      * rewrite lookup_insert_eq in Hk'. congruence.
      * rewrite lookup_insert_ne in Hk' by exact Hne.
        rewrite (keyedb_lookup _ _ _ _ Hkeyed Hk'). congruence. }
  assert (Hall : forall l w2, list_all true w1 = (Ok (Success l), w2) -> d ∈ data l).
  { intros l w2 Hl. apply list_all_inv in Hl as (_ & _ & Hin).
    apply Hin. split; [|discriminate].
    exists k. rewrite Ht1. apply lookup_insert_eq. }
  split; [exact Hd|]. split; [exact Hda|]. split; [exact Hactive|].
  split; [exact Hall|]. intros Hf. split.
  - destruct (list_all_succeeds false w1 Hf) as (l & w2 & Hl).
    exists l, w2. split; [exact Hl|].
    destruct (Hactive l w2 Hl) as (Hout & Hkeys & _). split; assumption.
  - destruct (list_all_succeeds true w1 Hf) as (l & w2 & Hl).
    exists l, w2. split; [exact Hl|]. split; [exact (Hall l w2 Hl)|exact Hda].
Qed.
End SoftDelete.

Definition lunch_item : item := default ∅ (tbl lunch_world !! DynamoDBModel.pk lunch).

Definition lunch_deleted : item :=
  match fst (DynamoDBModel.delete (DynamoDBModel.pk lunch) true lunch_world) with
  | Ok (Success d) => d
  | _ => ∅
  end.

(** The world after the soft delete of the record of [lunch_world]. *)
Definition lunch_deleted_world : world :=
  snd (DynamoDBModel.delete (DynamoDBModel.pk lunch) true lunch_world).

(** The soft delete and the two listings, run on the example record: the
    default listing comes back without the record, the full listing with
    it. *)
Lemma soft_delete_filter_witness :
  keyedb "pk" (tbl lunch_world) = true /\
  tbl lunch_world !! DynamoDBModel.pk lunch = Some lunch_item /\
  DynamoDBModel.delete (DynamoDBModel.pk lunch) true lunch_world
    = (Ok (Success lunch_deleted), lunch_deleted_world) /\
  fault lunch_deleted_world (calls lunch_deleted_world) = None /\
  lunch_deleted !! "deleted_at"%string = Some (PStr (u "2024-12-01T09:30:01")) /\
  (exists l w2,
     DynamoDBModel.list_all false lunch_deleted_world = (Ok (Success l), w2) /\
     lunch_deleted ∉ data l) /\
  (exists l w2,
     DynamoDBModel.list_all true lunch_deleted_world = (Ok (Success l), w2) /\
     lunch_deleted ∈ data l).
Proof.
  assert (H1 : keyedb "pk" (tbl lunch_world) = true) by (vm_compute; reflexivity).
  assert (H2 : tbl lunch_world !! DynamoDBModel.pk lunch = Some lunch_item)
    by (vm_compute; reflexivity).
  assert (H3 : DynamoDBModel.delete (DynamoDBModel.pk lunch) true lunch_world
               = (Ok (Success lunch_deleted), lunch_deleted_world))
    by (vm_compute; reflexivity).
  assert (H4 : fault lunch_deleted_world (calls lunch_deleted_world) = None)
    by (vm_compute; reflexivity).
  destruct (soft_delete_filter _ _ _ _ _ H1 H2 H3) as (_ & Hat & _ & _ & Hlists).
  destruct (Hlists H4) as [(l & w2 & Hl & Hout & _) (l' & w2' & Hl' & Hin & _)].
  split; [exact H1|]. split; [exact H2|]. split; [exact H3|]. split; [exact H4|].
  split; [exact Hat|]. split.
  - exists l, w2. split; assumption.
  - exists l', w2'. split; assumption.
Defined.

(** ** Update *)

Section Update.
Import Table DynamoDBModel.

Lemma existsb_eqb_false (x : string) (l : list string) :
  existsb (String.eqb x) l = false -> x ∉ l.
Proof.
  induction l as [|y l IH]; simpl; intros H Hin.
  - inversion Hin.
  - apply orb_false_iff in H as [Hxy Hl].
    apply elem_of_cons in Hin as [->|Hin].
    + rewrite String.eqb_refl in Hxy. discriminate.
    + exact (IH Hl Hin).
Qed.

Lemma has_dup_false (l : list string) : has_dup l = false -> NoDup l.
Proof.
  induction l as [|x l IH]; simpl; intros H.
  - constructor.
  - apply orb_false_iff in H as [Hx Hl].
    constructor; [apply existsb_eqb_false; exact Hx | exact (IH Hl)].
Qed.

Lemma apply_sets_notin sets (it : item) a :
  a ∉ map fst sets -> apply_sets sets it !! a = it !! a.
Proof.
  unfold apply_sets. revert it.
  induction sets as [|[b v] sets IH]; intros it Hn; simpl; [reflexivity|].
  simpl in Hn. apply not_elem_of_cons in Hn as [Hab Hn].
  rewrite (IH _ Hn). apply lookup_insert_ne. congruence.
Qed.

Lemma apply_sets_in sets (it : item) a v :
  NoDup (map fst sets) -> (a, v) ∈ sets -> apply_sets sets it !! a = Some v.
Proof.
  revert it. induction sets as [|[b x] sets IH]; intros it Hnd Hin.
  - inversion Hin.
  - simpl in Hnd. apply NoDup_cons in Hnd as [Hb Hnd].
    apply elem_of_cons in Hin as [Heq|Hin].
    + inversion Heq; subst b x. unfold apply_sets. simpl.
      fold (apply_sets sets (<[a:=v]> it)).
      rewrite (apply_sets_notin _ _ _ Hb). apply lookup_insert_eq.
    + unfold apply_sets. simpl. fold (apply_sets sets (<[b:=x]> it)).
      apply IH; assumption.
Qed.

(** The keyword arguments that [update] writes: not the key, not [None]. *)
Definition written (key_name : string) (kwargs : list (string * pyval))
  : list (string * pyval) :=
  List.filter (fun kv => negb (String.eqb (fst kv) key_name) && negb (is_none (snd kv)))
              kwargs.

Definition placeholders (l : list (string * pyval)) : update_expression :=
  map (fun kv => (fst kv, (":" ++ fst kv)%string)) l.

Definition bind_values (l : list (string * pyval)) (values : gmap string pyval)
  : gmap string pyval :=
  fold_left (fun acc kv => <[(":" ++ fst kv)%string := snd kv]> acc) l values.

Lemma fold_add_field key_name kwargs expr values :
  fold_left (add_field key_name) kwargs (expr, values) =
  (expr ++ placeholders (written key_name kwargs),
   bind_values (written key_name kwargs) values).
Proof.
  revert expr values. induction kwargs as [|[key value] kwargs IH]; intros expr values.
  - simpl. rewrite app_nil_r. reflexivity.
  - simpl. destruct (negb (String.eqb key key_name) && negb (is_none value)); simpl.
    + rewrite IH. rewrite <- app_assoc. reflexivity.
    + apply IH.
Qed.

Lemma placeholder_inj (a b : string) : (":" ++ a)%string = (":" ++ b)%string -> a = b.
Proof. cbv [String.append]. intros [= H]. exact H. Qed.

Lemma bind_values_cons b x l values :
  bind_values ((b, x) :: l) values = bind_values l (<[(":" ++ b)%string := x]> values).
Proof. reflexivity. Qed.

Lemma bind_values_notin l values p :
  (forall kv, kv ∈ l -> (":" ++ fst kv)%string <> p) ->
  bind_values l values !! p = values !! p.
Proof.
  revert values.
  induction l as [|[b v] l IH]; intros values Hn; [reflexivity|].
  rewrite bind_values_cons, IH.
  - apply lookup_insert_ne. apply (Hn (b, v)). left.
  - intros kv Hkv. apply Hn. right. exact Hkv.
Qed.

Lemma bind_values_in l values a v :
  NoDup (map fst l) -> (a, v) ∈ l ->
  bind_values l values !! (":" ++ a)%string = Some v.
Proof.
  revert values. induction l as [|[b x] l IH]; intros values Hnd Hin.
  - inversion Hin.
  - change (map fst ((b, x) :: l)) with (b :: map fst l) in Hnd.
    apply NoDup_cons in Hnd as [Hb Hnd]. rewrite bind_values_cons.
    apply elem_of_cons in Hin as [Heq|Hin].
    + inversion Heq; subst b x.
      rewrite bind_values_notin; [apply lookup_insert_eq|].
      intros kv Hkv Heq'. apply placeholder_inj in Heq'. apply Hb.
      rewrite <- Heq'. apply list_elem_of_fmap. exists kv. auto.
    + apply IH; assumption.
Qed.

Lemma resolve_placeholders l values :
  (forall a v, (a, v) ∈ l -> values !! (":" ++ a)%string = Some v) ->
  resolve (placeholders l) values = Some l.
Proof.
  induction l as [|[a v] l IH]; intros H; simpl; [reflexivity|].
  rewrite (H a v) by left. rewrite IH; [reflexivity|].
  intros a' v' Hin. apply H. right. exact Hin.
Qed.

(** The common body of [update] and [update_line_transaction]. *)
Definition update_body (key_name : string) (k : pystr) (kwargs : list (string * pyval))
  : M item :=
  let* now := _get_current_timestamp in
  let update_expression := [("updated_at", ":updated_at")]%string in
  let expression_attribute_values : gmap string pyval :=
    {[ ":updated_at"%string := PStr now ]} in
  let '(update_expression, expression_attribute_values) :=
    fold_left (add_field key_name) kwargs
              (update_expression, expression_attribute_values) in
  update_item key_name k update_expression expression_attribute_values.

(** What a successful update did. *)
Lemma update_body_inv key_name k kwargs w d w1 :
  update_body key_name k kwargs w = (Ok d, w1) ->
  let now := isoformat (clock w (ticks w)) in
  let old := default {[ key_name := PStr k ]} (tbl w !! k) in
  let sets := ("updated_at"%string, PStr now) :: written key_name kwargs in
  NoDup (map fst sets) /\
  (key_name ∉ map fst sets) /\
  d = apply_sets sets old /\
  w1 = World (<[k := d]> (tbl w)) (clock w) (S (ticks w)) (fault w) (S (calls w)).
Proof.
  unfold update_body, bind. rewrite timestamp_run. cbv zeta. rewrite fold_add_field.
  intros Hup. apply update_item_inv in Hup as (_ & Hdup & Hkey & sets & Hres & Hd & Hw).
  cbn [app map fst has_dup existsb tbl clock ticks fault calls] in *.
  assert (Hfst : map fst (placeholders (written key_name kwargs))
                 = map fst (written key_name kwargs)).
  { unfold placeholders. rewrite map_map. reflexivity. }
  rewrite Hfst in Hdup, Hkey.
  apply orb_false_iff in Hdup as [Hup_notin Hdup].
  apply existsb_eqb_false in Hup_notin. apply has_dup_false in Hdup.
  apply orb_false_iff in Hkey as [Hkey1 Hkey2].
  apply existsb_eqb_false in Hkey2.
  assert (Hvals : forall a v, (a, v) ∈ written key_name kwargs ->
            bind_values (written key_name kwargs)
              {[ ":updated_at"%string := PStr (isoformat (clock w (ticks w))) ]}
              !! (":" ++ a)%string = Some v).
  { intros a v Hin. apply bind_values_in; assumption. }
  cbn [resolve] in Hres.
  rewrite bind_values_notin in Hres.
  2:{ intros kv Hkv Heq. apply (placeholder_inj _ "updated_at") in Heq. apply Hup_notin.
      rewrite <- Heq. apply list_elem_of_fmap. exists kv. auto. }
  rewrite lookup_singleton_eq in Hres.
  rewrite (resolve_placeholders _ _ Hvals) in Hres. simplify_eq.
  split; [constructor; assumption|]. split.
  - intros Hin. apply elem_of_cons in Hin as [->|Hin].
    + discriminate.
    + exact (Hkey2 Hin).
  - split; reflexivity.
Qed.

Lemma has_dup_true (l : list string) : NoDup l -> has_dup l = false.
Proof.
  induction 1 as [|x l Hx Hnd IH]; simpl; [reflexivity|].
  rewrite IH, orb_false_r. apply not_true_is_false. intros Hex.
  apply existsb_exists in Hex as (y & Hy & Hxy).
  apply String.eqb_eq in Hxy as <-. apply Hx, list_elem_of_In. exact Hy.
Qed.

Lemma written_names_NoDup key_name kwargs :
  NoDup (map fst kwargs) -> NoDup (map fst (written key_name kwargs)).
Proof.
  unfold written. induction kwargs as [|[key value] kwargs IH]; simpl; intros Hnd.
  - constructor.
  - apply NoDup_cons in Hnd as [Hkey Hnd].
    destruct (negb (String.eqb key key_name) && negb (is_none value)); simpl.
    + constructor; [|exact (IH Hnd)].
      intros Hin. apply Hkey. apply list_elem_of_fmap in Hin as [kv [-> Hin]].
      apply list_elem_of_In, filter_In in Hin as [Hin _].
      apply list_elem_of_fmap. exists kv. split; [reflexivity|].
      apply list_elem_of_In. exact Hin.
    + exact (IH Hnd).
Qed.

(** An update goes through when the service does not refuse it and no
    keyword sets [updated_at], which the expression already assigns. *)
Lemma update_body_ok key_name k kwargs w :
  fault w (calls w) = None ->
  NoDup (map fst kwargs) ->
  key_name <> "updated_at"%string ->
  (forall v, ("updated_at"%string, v) ∈ kwargs -> v = PNone) ->
  exists d w1, update_body key_name k kwargs w = (Ok d, w1).
Proof.
  intros Hf Hnd Hkn Hup.
  assert (Hwnd : NoDup (map fst (written key_name kwargs)))
    by (apply written_names_NoDup; exact Hnd).
  assert (Hfst : map fst (placeholders (written key_name kwargs))
                 = map fst (written key_name kwargs)).
  { unfold placeholders. rewrite map_map. reflexivity. }
  assert (Hnot : forall a, (a = "updated_at"%string \/ a = key_name) ->
                   a ∉ map fst (written key_name kwargs)).
  { intros a Ha Hin. apply list_elem_of_fmap in Hin as [[a' v] [-> Hin]].
    unfold written in Hin. apply list_elem_of_In, filter_In in Hin as [Hin Hkeep].
    cbn [fst snd] in *. apply andb_true_iff in Hkeep as [Hk Hv].
    apply negb_true_iff in Hk, Hv. apply String.eqb_neq in Hk.
    destruct Ha as [->| ->]; [|exact (Hk eq_refl)].
    rewrite (Hup v) in Hv by (apply list_elem_of_In; exact Hin). discriminate. }
  unfold update_body, bind. rewrite timestamp_run. cbv zeta. rewrite fold_add_field.
  set (now := isoformat (clock w (ticks w))).
  erewrite (update_item_ok key_name k _ _
              (("updated_at"%string, PStr now) :: written key_name kwargs)).
  - eauto.
  - exact Hf.
  - cbn [app map fst has_dup]. rewrite Hfst, (has_dup_true _ Hwnd), orb_false_r.
    apply not_true_is_false. intros Hex. apply existsb_exists in Hex as (y & Hy & Hxy).
    apply String.eqb_eq in Hxy as <-.
    apply (Hnot "updated_at"%string); [left; reflexivity|apply list_elem_of_In; exact Hy].
  - cbn [app map fst existsb]. rewrite Hfst.
    apply orb_false_iff. split; [apply String.eqb_neq; exact Hkn|].
    apply not_true_is_false. intros Hex. apply existsb_exists in Hex as (y & Hy & Hxy).
    apply String.eqb_eq in Hxy as <-.
    apply (Hnot key_name); [right; reflexivity|apply list_elem_of_In; exact Hy].
  - cbn [app resolve]. rewrite bind_values_notin.
    2:{ intros kv Hkv Heq. apply (placeholder_inj _ "updated_at") in Heq.
        apply (Hnot "updated_at"%string); [left; reflexivity|].
        rewrite <- Heq. apply list_elem_of_fmap. exists kv. auto. }
    rewrite lookup_singleton_eq, resolve_placeholders; [reflexivity|].
    intros a v Hin. apply bind_values_in; assumption.
Qed.
End Update.

(** ** Binding the keyword arguments *)

Section Keywords.

Lemma existsb_eqb_true (x : string) (l : list string) :
  existsb (String.eqb x) l = true <-> x ∈ l.
Proof.
  rewrite existsb_exists. split.
  - intros (y & Hy & Hxy). apply String.eqb_eq in Hxy as <-.
    apply list_elem_of_In. exact Hy.
  - intros Hx. exists x. split; [apply list_elem_of_In; exact Hx|apply String.eqb_refl].
Qed.

(** The arguments that Python binds without complaint: no keyword twice,
    and none that names a parameter filled by position. *)
Definition bindable (params : list string) (kwargs : list (string * pyval)) : Prop :=
  NoDup (map fst kwargs) /\ forall key, key ∈ map fst kwargs -> key ∉ params.

Lemma repeated_keyword_none seen kwargs :
  repeated_keyword seen kwargs = None <->
  NoDup (map fst kwargs) /\ forall key, key ∈ map fst kwargs -> key ∉ seen.
Proof.
  revert seen. induction kwargs as [|[key value] kwargs IH]; intros seen; simpl.
  - split; [intros _; split; [constructor|intros key Hin; inversion Hin]|reflexivity].
  - destruct (existsb (String.eqb key) seen) eqn:Hseen.
    + split; [discriminate|]. intros [_ Hnot]. exfalso.
      apply (Hnot key); [left|]. apply existsb_eqb_true. exact Hseen.
    + assert (Hkey : key ∉ seen).
      { intros Hin. apply existsb_eqb_true in Hin. congruence. }
      rewrite IH. split.
      * intros [Hnd Hnot]. split.
        -- constructor; [|exact Hnd]. intros Hin. apply (Hnot key Hin). left.
        -- intros key' Hin. apply elem_of_cons in Hin as [->|Hin]; [exact Hkey|].
           intros Hs. apply (Hnot key' Hin). right. exact Hs.
      * intros [Hnd Hnot]. apply NoDup_cons in Hnd as [Hfresh Hnd].
        split; [exact Hnd|]. intros key' Hin Hs.
        apply elem_of_cons in Hs as [->|Hs]; [exact (Hfresh Hin)|].
        apply (Hnot key'); [right; exact Hin|exact Hs].
Qed.

Lemma filled_parameter_none params kwargs :
  filled_parameter params kwargs = None <->
  forall key, key ∈ map fst kwargs -> key ∉ params.
Proof.
  induction kwargs as [|[key value] kwargs IH]; simpl.
  - split; [intros _ key Hin; inversion Hin|reflexivity].
  - destruct (existsb (String.eqb key) params) eqn:Hp.
    + split; [discriminate|]. intros Hnot. exfalso.
      apply (Hnot key); [left|]. apply existsb_eqb_true. exact Hp.
    + rewrite IH. split.
      * intros Hnot key' Hin. apply elem_of_cons in Hin as [->|Hin]; [|exact (Hnot _ Hin)].
        intros Hin. apply existsb_eqb_true in Hin. congruence.
      * intros Hnot key' Hin. apply Hnot. right. exact Hin.
Qed.

Lemma keyword_error_none module_name qualname params kwargs :
  keyword_error module_name qualname params kwargs = None <-> bindable params kwargs.
Proof.
  unfold keyword_error, bindable.
  destruct (repeated_keyword [] kwargs) as [key|] eqn:Hrep.
  - split; [discriminate|]. intros [Hnd _].
    assert (Hnone : repeated_keyword [] kwargs = None).
    { apply repeated_keyword_none. split; [exact Hnd|]. intros key' _ Hin. inversion Hin. }
    congruence.
  - apply repeated_keyword_none in Hrep as [Hnd _].
    destruct (filled_parameter params kwargs) as [key|] eqn:Hfill.
    + split; [discriminate|]. intros [_ Hnot].
      apply (proj2 (filled_parameter_none params kwargs)) in Hnot. congruence.
    + split; [|reflexivity]. intros _. split; [exact Hnd|].
      exact (proj1 (filled_parameter_none params kwargs) Hfill).
Qed.

Lemma keyword_error_some module_name qualname params kwargs e :
  keyword_error module_name qualname params kwargs = Some e ->
  exn_type e = "TypeError"%string /\ ~ bindable params kwargs.
Proof.
  intros He. split.
  - unfold keyword_error in He.
    destruct (repeated_keyword [] kwargs); [|destruct (filled_parameter params kwargs)];
      simplify_eq/=; reflexivity.
  - intros Hb. apply (keyword_error_none module_name qualname) in Hb. congruence.
Qed.

Lemma bind_keywords_run module_name qualname params kwargs w :
  bind_keywords module_name qualname params kwargs w =
  match keyword_error module_name qualname params kwargs with
  | Some e => (Raise e, w)
  | None => (Ok tt, w)
  end.
Proof.
  unfold bind_keywords. destruct (keyword_error _ _ _ _); reflexivity.
Qed.

(** A keyword that names a parameter is enough for the call to raise. *)
Lemma keyword_error_named module_name qualname params kwargs key v :
  (key, v) ∈ kwargs -> key ∈ params ->
  exists e, keyword_error module_name qualname params kwargs = Some e /\
            exn_type e = "TypeError"%string.
Proof.
  intros Hin Hp.
  destruct (keyword_error module_name qualname params kwargs) as [e|] eqn:He.
  - exists e. split; [reflexivity|]. exact (proj1 (keyword_error_some _ _ _ _ _ He)).
  - apply keyword_error_none in He as [_ Hnot]. exfalso.
    apply (Hnot key); [|exact Hp]. apply list_elem_of_fmap. exists (key, v). auto.
Qed.
End Keywords.

Section UpdateClaim.
Import Table.

Lemma update_run k kwargs w :
  DynamoDBModel.update k kwargs w =
  match keyword_error "Models.DynamoDBModel" "DynamoDBModel.update"
                      ["self"; "pk"] kwargs with
  | Some e => (Raise e, w)
  | None =>
    match update_body "pk" k kwargs w with
    | (Ok d, w') => (Ok (Success d), w')
    | (Raise e, w') => (Ok (Failure (str_exn e)), w')
    end
  end.
Proof.
  unfold DynamoDBModel.update, bind. rewrite bind_keywords_run.
  destruct (keyword_error _ _ _ _); [reflexivity|].
  unfold update_body, try_except, bind.
  rewrite timestamp_run. cbv zeta.
  destruct (fold_left _ _ _) as [expr values].
  destruct (update_item _ _ _ _ _) as [[d|e] w']; reflexivity.
Qed.

Lemma update_line_transaction_run k kwargs w :
  SendLineService.update_line_transaction k kwargs w =
  match keyword_error "Services.SendLineService"
                      "SendLineService.update_line_transaction"
                      ["self"; "lmn"] kwargs with
  | Some e => (Raise e, w)
  | None =>
    match update_body "lmn" k kwargs w with
    | (Ok d, w') =>
      (Ok (SendLineService.Answer (Success d)
             (u "Line transaction updated successfully")), w')
    | (Raise e, w') =>
      (Ok (SendLineService.Answer (Failure (str_exn e))
             (u "Failed to update line transaction")), w')
    end
  end.
Proof.
  unfold SendLineService.update_line_transaction, bind. rewrite bind_keywords_run.
  destruct (keyword_error _ _ _ _); [reflexivity|].
  unfold update_body, try_except, bind.
  change (SendLineService._get_current_timestamp w)
    with (DynamoDBModel._get_current_timestamp w).
  rewrite timestamp_run. cbv zeta.
  destruct (fold_left _ _ _) as [expr values].
  destruct (update_item _ _ _ _ _) as [[d|e] w']; reflexivity.
Qed.

(** An update that answers with a success was bound without complaint and
    ran its body to the end. *)
Lemma update_success key_name k kwargs w d w1 :
  (key_name = "pk"%string /\
   DynamoDBModel.update k kwargs w = (Ok (Success d), w1)) \/
  (key_name = "lmn"%string /\
   exists msg, SendLineService.update_line_transaction k kwargs w
               = (Ok (SendLineService.Answer (Success d) msg), w1)) ->
  bindable ["self"; key_name] kwargs /\
  update_body key_name k kwargs w = (Ok d, w1).
Proof.
  intros [[-> H]|[-> [msg H]]].
  - rewrite update_run in H.
    destruct (keyword_error _ _ _ _) as [e|] eqn:He; [discriminate|].
    apply keyword_error_none in He. split; [exact He|].
    destruct (update_body _ _ _ _) as [[d'|e] w']; congruence.
  - rewrite update_line_transaction_run in H.
    destruct (keyword_error _ _ _ _) as [e|] eqn:He; [discriminate|].
    apply keyword_error_none in He. split; [exact He|].
    destruct (update_body _ _ _ _) as [[d'|e] w']; congruence.
Qed.

Lemma written_in key_name kwargs key v :
  (key, v) ∈ written key_name kwargs <->
  (key, v) ∈ kwargs /\ key <> key_name /\ v <> PNone.
Proof.
  unfold written. rewrite list_elem_of_In, filter_In, <- list_elem_of_In. simpl.
  rewrite andb_true_iff, !negb_true_iff, String.eqb_neq.
  destruct v; simpl; intuition congruence.
Qed.

(** C9.  What the claim describes for keyword arguments that include the
    primary key does not happen.  The loop of [update] has a guard that
    would skip the key, but the key is also the name of the positional
    parameter, so a call whose keywords name it is refused while Python
    binds the arguments: [TypeError] leaves [update] before its [try] has
    started, nothing is read or written, and no tagged result comes back.
    [update_line_transaction] does the same with [lmn]. *)
Theorem update_rejects_key (w : world) (k : pystr) (kwargs : list (string * pyval)) :
  (forall v, ("pk"%string, v) ∈ kwargs ->
     exists e, DynamoDBModel.update k kwargs w = (Raise e, w) /\
               exn_type e = "TypeError"%string) /\
  (forall v, ("lmn"%string, v) ∈ kwargs ->
     exists e, SendLineService.update_line_transaction k kwargs w = (Raise e, w) /\
               exn_type e = "TypeError"%string).
Proof.
  split; intros v Hin.
  - rewrite update_run.
    destruct (keyword_error_named "Models.DynamoDBModel" "DynamoDBModel.update"
                ["self"; "pk"]%string kwargs "pk" v Hin) as (e & -> & Hty).
    + right. left.
    + exists e. split; [reflexivity|exact Hty].
  - rewrite update_line_transaction_run.
    destruct (keyword_error_named "Services.SendLineService"
                "SendLineService.update_line_transaction"
                ["self"; "lmn"]%string kwargs "lmn" v Hin) as (e & -> & Hty).
    + right. left.
    + exists e. split; [reflexivity|exact Hty].
Qed.
End UpdateClaim.

(** The update of [example_usage.py], with a [None] thrown in. *)
Definition lunch_kwargs : list (string * pyval) :=
  [("description"%string, PStr (u "昼食代（コンビニ弁当）"));
   ("amount"%string, PNum 900);
   ("category"%string, PNone)].

(** The same call with the key among the keywords:
    [record.update("user123_20241201_001", pk="user999", description=..)]. *)
Definition keyed_kwargs : list (string * pyval) :=
  ("pk"%string, PStr (u "user999")) :: lunch_kwargs.

Lemma update_rejects_key_witness :
  ("pk"%string, PStr (u "user999")) ∈ keyed_kwargs /\
  exists e,
    DynamoDBModel.update (DynamoDBModel.pk lunch) keyed_kwargs lunch_world
      = (Raise e, lunch_world) /\
    exn_type e = "TypeError"%string.
Proof.
  assert (Hin : ("pk"%string, PStr (u "user999")) ∈ keyed_kwargs)
    by (apply elem_of_cons; left; reflexivity).
  split; [exact Hin|].
  exact (proj1 (update_rejects_key lunch_world (DynamoDBModel.pk lunch) keyed_kwargs)
           _ Hin).
Defined.

(** The exception of that call, and of its counterpart on the service. *)
Lemma update_with_key_raises :
  DynamoDBModel.update (DynamoDBModel.pk lunch) keyed_kwargs lunch_world
    = (Raise (TypeError "DynamoDBModel.update() got multiple values for argument 'pk'"),
       lunch_world) /\
  SendLineService.update_line_transaction (u "lmn_user123_20241201_001")
      [("description"%string, PStr (u "昼食代")); ("lmn"%string, PStr (u "lmn_other"))]
      empty_world
    = (Raise (TypeError
         "SendLineService.update_line_transaction() got multiple values for argument 'lmn'"),
       empty_world).
Proof. split; vm_compute; reflexivity. Qed.

(** ** No stored null *)

Section NoNull.
Import Table DynamoDBModel.

(** No attribute of a stored item is an explicit null. *)
Definition null_freeb (t : gmap pystr item) : bool :=
  forallb (fun kv => forallb (fun av => negb (is_none (snd av))) (map_to_list (snd kv)))
          (map_to_list t).

Definition item_null_free (it : item) : Prop :=
  forall a, it !! a <> Some PNone.

Definition null_free (t : gmap pystr item) : Prop :=
  forall k it, t !! k = Some it -> item_null_free it.

Lemma is_none_false v : is_none v = false <-> v <> PNone.
Proof. destruct v; simpl; split; congruence. Qed.

Lemma null_freeb_spec t : null_freeb t = true <-> null_free t.
Proof.
  unfold null_freeb, null_free, item_null_free. rewrite forallb_forall. split.
  - intros H k it Hk a Ha.
    specialize (H (k, it)). rewrite <- list_elem_of_In, elem_of_map_to_list in H.
    specialize (H Hk). simpl in H. rewrite forallb_forall in H.
    specialize (H (a, PNone)). rewrite <- list_elem_of_In, elem_of_map_to_list in H.
    specialize (H Ha). discriminate.
  - intros H [k it] Hin. apply list_elem_of_In, elem_of_map_to_list in Hin.
    simpl. apply forallb_forall. intros [a v] Hav.
    apply list_elem_of_In, elem_of_map_to_list in Hav. simpl.
    apply negb_true_iff, is_none_false. intros ->. exact (H k it Hin a Hav).
Qed.

Lemma null_free_insert t k it :
  null_free t -> item_null_free it -> null_free (<[k := it]> t).
Proof.
  intros Ht Hit k' it' Hk'. destruct (decide (k = k')) as [<-|Hne].
  - rewrite lookup_insert_eq in Hk'. congruence.
  - rewrite lookup_insert_ne in Hk' by exact Hne. exact (Ht _ _ Hk').
Qed.

Lemma null_free_delete t k : null_free t -> null_free (base.delete k t).
Proof.
  intros Ht k' it' Hk'. apply lookup_delete_Some in Hk' as [_ Hk']. exact (Ht _ _ Hk').
Qed.

Lemma drop_none_null_free it : item_null_free (drop_none it).
Proof.
  intros a Ha. unfold drop_none in Ha.
  apply map_lookup_filter_Some in Ha as [_ Hn]. discriminate.
Qed.

Lemma apply_sets_lookup sets (it : item) a v :
  apply_sets sets it !! a = Some v -> (a, v) ∈ sets \/ it !! a = Some v.
Proof.
  unfold apply_sets. revert it.
  induction sets as [|[b x] sets IH]; intros it H; simpl in H; [right; exact H|].
  apply IH in H as [H|H].
  - left. right. exact H.
  - destruct (decide (b = a)) as [<-|Hne].
    + rewrite lookup_insert_eq in H. injection H as ->. left. left.
    + rewrite lookup_insert_ne in H by exact Hne. right. exact H.
Qed.

Lemma default_item_null_free t key_name k :
  null_free t -> item_null_free (default {[ key_name := PStr k ]} (t !! k)).
Proof.
  intros Ht. destruct (t !! k) as [it|] eqn:Hk; simpl.
  - exact (Ht _ _ Hk).
  - intros a Ha. apply lookup_singleton_Some in Ha as [_ Ha]. discriminate.
Qed.

(** The table after a storage call that was refused is the table before. *)
Lemma update_item_raise key_name k expr values w e w1 :
  update_item key_name k expr values w = (Raise e, w1) -> tbl w1 = tbl w.
Proof.
  unfold update_item, bind, throw.
  destruct (request w) as [[[]|e'] w'] eqn:Hreq;
    apply request_inv in Hreq as [-> Hf].
  - destruct (_ || _); [intros ?; simplify_eq/=; reflexivity|].
    destruct (resolve expr values); intros ?; simplify_eq/=. reflexivity.
  - intros ?; simplify_eq/=. reflexivity.
Qed.

Lemma update_body_raise key_name k kwargs w e w1 :
  update_body key_name k kwargs w = (Raise e, w1) -> tbl w1 = tbl w.
Proof.
  unfold update_body, bind. rewrite timestamp_run. cbv zeta.
  destruct (fold_left _ _ _) as [expr values].
  intros H. apply update_item_raise in H. exact H.
Qed.

Lemma put_item_inv key_name (it : item) w r w1 :
  put_item key_name it w = (r, w1) ->
  (exists k, r = Ok tt /\ it !! key_name = Some (PStr k) /\ tbl w1 = <[k := it]> (tbl w)) \/
  (exists e, r = Raise e /\ tbl w1 = tbl w).
Proof.
  unfold put_item, bind, throw.
  destruct (request w) as [[[]|e'] w'] eqn:Hreq;
    apply request_inv in Hreq as [-> Hf].
  - destruct (it !! key_name) as [[]|] eqn:Hk;
      intros ?; simplify_eq/=; eauto.
  - intros ?; simplify_eq/=. eauto.
Qed.

Lemma delete_item_inv k w r w1 :
  delete_item k w = (r, w1) ->
  (r = Ok tt /\ tbl w1 = base.delete k (tbl w)) \/ (exists e, r = Raise e /\ tbl w1 = tbl w).
Proof.
  unfold delete_item, bind.
  destruct (request w) as [[[]|e'] w'] eqn:Hreq;
    apply request_inv in Hreq as [-> Hf]; intros ?; simplify_eq/=; eauto.
Qed.
End NoNull.

Section NoNullClaim.
Import Table DynamoDBModel.

Lemma create_inv self w r w1 :
  create self w = (r, w1) ->
  exists it : item,
    item_null_free it /\
    it !! "deleted_at"%string = None /\
    it !! "pk"%string = Some (PStr (pk self)) /\
    ((r = Ok (Success it) /\ tbl w1 = <[pk self := it]> (tbl w)) \/
     (exists e, r = Ok (Failure (str_exn e)) /\ tbl w1 = tbl w)).
Proof.
  unfold create, bind, try_except, ret. rewrite timestamp_run. cbv zeta.
  match goal with |- context [put_item _ ?x] => set (it := x) end.
  assert (Hdel : it !! "deleted_at"%string = None).
  { unfold it, drop_none. apply map_lookup_filter_None. right.
    intros v Hv Hn. vm_compute in Hv. injection Hv as <-. discriminate. }
  assert (Hpk : it !! "pk"%string = Some (PStr (pk self))).
  { unfold it, drop_none. apply map_lookup_filter_Some. split; reflexivity. }
  assert (Hnf : item_null_free it) by apply drop_none_null_free.
  clearbody it. intros H. exists it. split; [exact Hnf|]. split; [exact Hdel|].
  split; [exact Hpk|].
  destruct (put_item "pk" it _) as [[[]|e] w'] eqn:Hput;
    apply put_item_inv in Hput as [(k & Hr & Hk & Ht)|(e' & Hr & Ht)];
    simplify_eq/=.
  - left. auto.
  - right. eauto.
Qed.

(** C7, as amended.  No write path of the record store stores an explicit
    null: [create] writes the fields that are not [None] and never a
    [deleted_at]; [update] skips every supplied field that is [None], so an
    update that passes [deleted_at=None] leaves [deleted_at] as it was,
    while a [deleted_at] that is not [None] is written like any other
    field; a delete stores no null either. *)
Theorem no_null_stored (w w1 : world) :
  null_freeb (tbl w) = true ->
  (forall self r, create self w = (r, w1) ->
     null_freeb (tbl w1) = true /\
     forall d, r = Ok (Success d) ->
       d !! "deleted_at"%string = None /\ tbl w1 !! pk self = Some d) /\
  (forall k kwargs r, update k kwargs w = (r, w1) ->
     null_freeb (tbl w1) = true /\
     forall d, r = Ok (Success d) ->
       let old := default {[ "pk"%string := PStr k ]} (tbl w !! k) in
       tbl w1 !! k = Some d /\
       ((forall v, ("deleted_at"%string, v) ∈ kwargs -> v = PNone) ->
        d !! "deleted_at"%string = old !! "deleted_at"%string) /\
       (forall v, ("deleted_at"%string, v) ∈ kwargs -> v <> PNone ->
        d !! "deleted_at"%string = Some v)) /\
  (forall k soft_delete r, delete k soft_delete w = (r, w1) ->
     null_freeb (tbl w1) = true).
Proof.
  rewrite !null_freeb_spec. intros Hw. split; [|split].
  - intros self r Hc. apply create_inv in Hc as (it & Hnf & Hdel & Hpk & Hcase).
    destruct Hcase as [[-> Ht]|(e & -> & Ht)]; rewrite null_freeb_spec, Ht.
    + split; [apply null_free_insert; assumption|].
      intros d [= <-]. split; [exact Hdel|apply lookup_insert_eq].
    + split; [exact Hw|]. intros d [=].
  - intros k kwargs r Hu. rewrite update_run in Hu.
    destruct (keyword_error _ _ _ _) as [e|].
    { simplify_eq/=. rewrite null_freeb_spec. split; [exact Hw|]. intros d [=]. }
    destruct (update_body "pk" k kwargs w) as [[d|e] w'] eqn:Hbody;
      simplify_eq/=; rewrite null_freeb_spec.
    + apply update_body_inv in Hbody as (Hnd & Hkey & Hd & Hw1).
      assert (Hdnf : item_null_free d).
      { intros a Ha. rewrite Hd in Ha. apply apply_sets_lookup in Ha as [Ha|Ha].
        - apply elem_of_cons in Ha as [Ha|Ha]; [discriminate|].
          apply written_in in Ha as (_ & _ & Hv). congruence.
        - exact (default_item_null_free _ _ _ Hw a Ha). }
      rewrite Hw1. simpl. split; [apply null_free_insert; assumption|].
      intros d' [= <-]. split; [apply lookup_insert_eq|]. split.
      * intros Hnone. rewrite Hd at 1. apply apply_sets_notin.
        intros Hin. apply elem_of_cons in Hin as [Hin|Hin]; [discriminate|].
        apply list_elem_of_fmap in Hin as [[a v] [Ha Hin]]. simpl in Ha. subst a.
        apply written_in in Hin as (Hin & _ & Hv). exact (Hv (Hnone v Hin)).
      * intros v Hin Hv. rewrite Hd at 1. apply apply_sets_in; [exact Hnd|].
        right. apply written_in. repeat split; [exact Hin|discriminate|exact Hv].
    + apply update_body_raise in Hbody. rewrite Hbody.
      split; [exact Hw|]. intros d [=].
  - intros k soft r Hd. rewrite null_freeb_spec.
    unfold delete, try_except, bind, ret in Hd. destruct soft.
    + rewrite timestamp_run in Hd.
      destruct (update_item _ _ _ _ _) as [[d|e] w'] eqn:Hup; simplify_eq/=.
      * apply update_item_inv in Hup as (_ & _ & _ & sets & Hres & Hnew & Hw1).
        rewrite resolve_deleted_at in Hres. simplify_eq/=.
        apply null_free_insert; [exact Hw|].
        intros a Ha. destruct (decide (a = "deleted_at"%string)) as [->|Hne].
        -- rewrite lookup_insert_eq in Ha. discriminate.
        -- rewrite lookup_insert_ne in Ha by congruence.
           exact (default_item_null_free _ _ _ Hw a Ha).
      * apply update_item_raise in Hup. simpl in Hup. rewrite Hup. exact Hw.
    + destruct (delete_item k w) as [[[]|e] w'] eqn:Hdi;
        apply delete_item_inv in Hdi as [[Hr Ht]|(e' & Hr & Ht)]; simplify_eq/=;
        rewrite Ht; [apply null_free_delete|]; exact Hw.
Qed.
End NoNullClaim.

(** An update that supplies a [deleted_at]. *)
Definition mark_kwargs : list (string * pyval) :=
  [("deleted_at"%string, PStr (u "2025-01-01T00:00:00"))].

Definition lunch_marked : item :=
  match fst (DynamoDBModel.update (DynamoDBModel.pk lunch) mark_kwargs lunch_world) with
  | Ok (Success d) => d
  | _ => ∅
  end.

Definition lunch_marked_world : world :=
  snd (DynamoDBModel.update (DynamoDBModel.pk lunch) mark_kwargs lunch_world).

(** C7 as stated fails: [update] writes the [deleted_at] it is given.  The
    record of [lunch_world] has no [deleted_at]; after
    [update(pk, deleted_at="2025-01-01T00:00:00")] it has one, and the
    default listing no longer shows the record. *)
Lemma update_writes_deleted_at :
  tbl lunch_world !! DynamoDBModel.pk lunch = Some lunch_item /\
  lunch_item !! "deleted_at"%string = None /\
  DynamoDBModel.update (DynamoDBModel.pk lunch) mark_kwargs lunch_world
    = (Ok (Success lunch_marked), lunch_marked_world) /\
  tbl lunch_marked_world !! DynamoDBModel.pk lunch = Some lunch_marked /\
  lunch_marked !! "deleted_at"%string = Some (PStr (u "2025-01-01T00:00:00")) /\
  fst (DynamoDBModel.list_all false lunch_marked_world) = Ok (Success (Listing [] 0)).
Proof. repeat split; vm_compute; reflexivity. Qed.

Lemma no_null_stored_witness :
  null_freeb (tbl lunch_world) = true /\
  null_freeb (tbl (snd (DynamoDBModel.update (DynamoDBModel.pk lunch) lunch_kwargs
                          lunch_world))) = true.
Proof.
  assert (H : null_freeb (tbl lunch_world) = true) by (vm_compute; reflexivity).
  split; [exact H|].
  exact (proj1 (proj1 (proj2 (no_null_stored lunch_world _ H))
                  (DynamoDBModel.pk lunch) lunch_kwargs _ (surjective_pairing _))).
Defined.

(** ** Totals *)

Section Totals.
Import Table DynamoDBModel Money.
Context `{Runtime}.

Lemma query_by_transaction_type_inv t w l w' :
  query_by_transaction_type t w = (Ok (Success l), w') ->
  tbl w' = tbl w /\
  count l = length (data l) /\
  forall it, it ∈ data l <->
    (exists k, tbl w !! k = Some it) /\
    it !! "transaction_type"%string = Some (PStr t) /\
    it !! "deleted_at"%string = None.
Proof.
  unfold query_by_transaction_type, try_except, bind, ret.
  destruct (scan _ w) as [[resp|e] w1] eqn:Hscan; simpl; [|discriminate].
  apply scan_inv in Hscan as (Ht & _ & Hc & Hin).
  intros ?; simplify_eq/=. split; [exact Ht|]. split; [exact Hc|].
  intros it. rewrite Hin, andb_true_iff.
  unfold attribute_equals, attribute_not_exists.
  destruct (it !! "transaction_type"%string) as [[]|];
    destruct (it !! "deleted_at"%string);
    try rewrite pystr_eqb_eq; split; intros (Hk & H1); split; auto;
    try (destruct H1; split; congruence); try (destruct H1; discriminate).
Qed.

(** The amounts that are present, in the order of the records. *)
Fixpoint present_amounts (items : list item) : list Q :=
  match items with
  | [] => []
  | it :: rest =>
    match it !! "amount"%string with
    | Some (PNum q) => q :: present_amounts rest
    | _ => present_amounts rest
    end
  end.

(** Every amount that is present is a number. *)
Definition amounts_numeric (items : list item) : bool :=
  forallb (fun it : item => match it !! "amount"%string with
                     | Some (PNum _) | Some PNone | None => true
                     | _ => false
                     end) items.

Lemma sum_amounts_numeric items total :
  amounts_numeric items = true ->
  sum_amounts total items = Ok (fold_left Qplus (present_amounts items) total).
Proof.
  revert total. induction items as [|it rest IH]; intros total Hn; [reflexivity|].
  simpl in Hn. apply andb_true_iff in Hn as [Hit Hrest]. simpl.
  destruct (it !! "amount"%string) as [[]|]; try discriminate; simpl; apply IH; exact Hrest.
Qed.
End Totals.

Section TotalsClaim.
Import Table DynamoDBModel Money.
Context `{Runtime}.

(** C4, as amended.  [get_total_amount] takes its records from the
    transaction type query when the filter is a string that is not empty,
    and from [list_all()] (active records only) when there is no filter or
    the filter is the empty string.  When that query fails, its failure is
    the answer.  When it succeeds and every amount that is present is a
    number, the total is the sum of the amounts that are present, and the
    record count is the number of all the records of the query. *)
Theorem total_amount_sums (w w1 : world) (transaction_type : option pystr)
    (source : M (result listing)) (r : result listing) :
  (transaction_type = None /\ source = list_all false) \/
  (transaction_type = Some [] /\ source = list_all false) \/
  (exists c t, transaction_type = Some (c :: t) /\
               source = query_by_transaction_type (c :: t)) ->
  source w = (Ok r, w1) ->
  match r with
  | Failure error =>
    get_total_amount transaction_type w = (Ok (Failure error), w1)
  | Success l =>
    (forall it, it ∈ data l ->
       (exists k, tbl w !! k = Some it) /\ it !! "deleted_at"%string = None) /\
    (amounts_numeric (data l) = true ->
     get_total_amount transaction_type w =
     (Ok (Success (Totals (fold_left Qplus (present_amounts (data l)) 0%Q)
                          (length (data l)) transaction_type)), w1))
  end.
Proof.
  intros Hsrc Hrun.
  assert (Hget : get_total_amount transaction_type w =
                 bind source (fun result =>
                   match result with
                   | Failure error => ret (Failure error)
                   | Success l =>
                     let* total_amount := lift (sum_amounts 0%Q (data l)) in
                     ret (Success (Totals total_amount (length (data l)) transaction_type))
                   end) w).
  { destruct Hsrc as [[-> ->]|[[-> ->]|(c & t & -> & ->)]]; reflexivity. }
  destruct r as [l|error].
  2:{ rewrite Hget. unfold bind at 1. rewrite Hrun. reflexivity. }
  split.
  - intros it Hit.
    destruct Hsrc as [[_ ->]|[[_ ->]|(c & t & _ & ->)]].
    + apply list_all_inv in Hrun as (_ & _ & Hin). apply Hin in Hit as [Hk Hd]. auto.
    + apply list_all_inv in Hrun as (_ & _ & Hin). apply Hin in Hit as [Hk Hd]. auto.
    + apply query_by_transaction_type_inv in Hrun as (_ & _ & Hin).
      apply Hin in Hit as (Hk & _ & Hd). auto.
  - intros Hnum. rewrite Hget. unfold bind at 1. rewrite Hrun.
    unfold bind, lift, ret. rewrite (sum_amounts_numeric _ _ Hnum). reflexivity.
Qed.
End TotalsClaim.

(** The example of the specification: amounts 100, none, 50. *)
Definition record_of (key : string) (ty : string) (amount : option Q)
  : DynamoDBModel.fields :=
  DynamoDBModel.Fields (u key) None None None (Some (u ty)) None None amount.

Definition three_records_world : world :=
  snd (DynamoDBModel.create (record_of "r3" "支出" (Some 50%Q))
    (snd (DynamoDBModel.create (record_of "r2" "収入" None)
      (snd (DynamoDBModel.create (record_of "r1" "支出" (Some 100%Q)) empty_world))))).

(** C4 as stated fails for the filter that is the empty string: the code
    takes it for no filter and sums over every active record, while the
    query for that type finds nothing. *)
Lemma empty_filter_sums_everything :
  fst (DynamoDBModel.query_by_transaction_type [] three_records_world)
    = Ok (Success (Listing [] 0)) /\
  fst (@Money.get_total_amount sample_runtime (Some []) three_records_world)
    = Ok (Success (Money.Totals 150 3 (Some []))).
Proof. split; vm_compute; reflexivity. Qed.

Lemma total_amount_sums_witness :
  fst (@Money.get_total_amount sample_runtime None three_records_world)
  = Ok (Success (Money.Totals 150 3 None)).
Proof.
  pose (r := DynamoDBModel.list_all false three_records_world).
  assert (Hrun : DynamoDBModel.list_all false three_records_world
                 = (Ok (Success (match fst r with
                                 | Ok (Success l) => l
                                 | _ => Listing [] 0
                                 end)), snd r)) by (vm_compute; reflexivity).
  pose proof (@total_amount_sums sample_runtime three_records_world _ None _ _
                (or_introl (conj eq_refl eq_refl)) Hrun) as P.
  simpl in P. destruct P as [_ P].
  rewrite P by (vm_compute; reflexivity). vm_compute. reflexivity.
Defined.

(** ** Monthly summary *)

Section Monthly.
Import Table DynamoDBModel Money.

(** [datetime(year, month, 1).isoformat()] and the same for the month after. *)
Definition month_start (year month : Z) : pystr :=
  isoformat (Datetime year month 1 0 0 0 0).

Definition month_end (year month : Z) : pystr :=
  if (month =? 12)%Z then isoformat (Datetime (year + 1) 1 1 0 0 0 0)
  else isoformat (Datetime year (month + 1) 1 0 0 0 0).

(** The arguments for which both dates can be built. *)
Definition valid_month (year month : Z) : bool :=
  ((1 <=? year) && (year <=? 9999) && (1 <=? month) && (month <=? 12)
   && negb ((year =? 9999) && (month =? 12)))%Z.

Lemma days_in_month_pos y m : (1 <= days_in_month y m)%Z.
Proof.
  unfold days_in_month.
  destruct (m =? 2)%Z; [destruct (is_leap y); lia|].
  destruct (_ || _); lia.
Qed.

Lemma datetime_new_first y m :
  (1 <= y <= 9999)%Z -> (1 <= m <= 12)%Z ->
  datetime_new y m 1 = Ok (Datetime y m 1 0 0 0 0).
Proof.
  intros Hy Hm. unfold datetime_new.
  replace ((1 <=? y) && (y <=? 9999))%Z with true by (symmetry; apply andb_true_iff; lia).
  replace ((1 <=? m) && (m <=? 12))%Z with true by (symmetry; apply andb_true_iff; lia).
  pose proof (days_in_month_pos y m).
  replace ((1 <=? 1) && (1 <=? days_in_month y m))%Z with true
    by (symmetry; apply andb_true_iff; lia).
  reflexivity.
Qed.

Lemma datetime_new_ok y m d r :
  datetime_new y m d = Ok r -> (1 <= y <= 9999)%Z /\ (1 <= m <= 12)%Z.
Proof.
  unfold datetime_new.
  destruct ((1 <=? y) && (y <=? 9999))%Z eqn:Hy; [|discriminate].
  destruct ((1 <=? m) && (m <=? 12))%Z eqn:Hm; [|discriminate].
  intros _. apply andb_true_iff in Hy, Hm. lia.
Qed.

(** The part of [get_monthly_summary] inside the [try]. *)
Definition summary_body (year month : Z) (start_date end_date : pystr)
  : M (result summary) :=
  let* response := scan (monthly_filter start_date end_date) in
  let records := Items response in
  let* t := lift (tally_records (Tally 0 0 0 0) records) in
  ret (Success (Summary year month
                  (t_income_total t) (t_expense_total t)
                  (t_income_total t - t_expense_total t)%Q
                  (t_income_count t) (t_expense_count t)
                  (length records))).

Lemma get_monthly_summary_valid year month w :
  valid_month year month = true ->
  get_monthly_summary year month w =
  try_except (summary_body year month (month_start year month) (month_end year month))
             (fun e => ret (Failure (str_exn e))) w.
Proof.
  unfold valid_month. rewrite !andb_true_iff, negb_true_iff, andb_false_iff.
  intros [[[[Hy1 Hy2] Hm1] Hm2] Hlast].
  unfold get_monthly_summary, month_start, month_end.
  unfold bind at 1, lift at 1.
  rewrite datetime_new_first by lia. cbn [res_bind].
  unfold bind at 1, lift at 1.
  destruct (month =? 12)%Z eqn:H12.
  - rewrite datetime_new_first by lia. reflexivity.
  - rewrite datetime_new_first by lia. reflexivity.
Qed.

Lemma get_monthly_summary_invalid year month w :
  valid_month year month = false ->
  exists e, get_monthly_summary year month w = (Raise e, w).
Proof.
  intros Hv. unfold get_monthly_summary.
  unfold bind at 1, lift at 1.
  destruct (datetime_new year month 1) as [d|e] eqn:Hs; cbn [res_bind]; [|eauto].
  apply datetime_new_ok in Hs as [Hy Hm].
  unfold bind at 1, lift at 1.
  destruct (month =? 12)%Z eqn:H12.
  - destruct (datetime_new (year + 1) 1 1) as [d'|e] eqn:He; cbn [res_bind]; [|eauto].
    apply datetime_new_ok in He as [Hy' _].
    unfold valid_month in Hv. rewrite H12 in Hv.
    replace (year =? 9999)%Z with false in Hv by (symmetry; lia).
    rewrite !andb_false_iff in Hv. simpl in Hv. lia.
  - rewrite datetime_new_first by lia. cbn [res_bind].
    unfold valid_month in Hv. rewrite H12 in Hv.
    rewrite andb_false_r in Hv. simpl in Hv.
    rewrite !andb_false_iff in Hv. lia.
Qed.
End Monthly.

Section MonthlyClaims.
Import Table DynamoDBModel Money.

(** A record counts in a bucket when its type is one of the two tags. *)
Definition recognised (record : item) : bool :=
  let transaction_type := default (PStr []) (record !! "transaction_type"%string) in
  eq_str transaction_type income_tag || eq_str transaction_type expense_tag.

Lemma tally_record_unrecognised t record :
  recognised record = false -> tally_record t record = Ok t.
Proof.
  unfold recognised, tally_record. intros Hr.
  apply orb_false_iff in Hr as [-> ->]. reflexivity.
Qed.

Lemma tally_record_counts t record t' :
  tally_record t record = Ok t' ->
  (t_income_count t' + t_expense_count t' =
   t_income_count t + t_expense_count t + (if recognised record then 1 else 0))%nat.
Proof.
  unfold recognised, tally_record.
  destruct (eq_str _ income_tag); simpl.
  - destruct (add_amount _ _); simpl; intros ?; simplify_eq/=. lia.
  - destruct (eq_str _ expense_tag); simpl.
    + destruct (add_amount _ _); simpl; intros ?; simplify_eq/=. lia.
    + intros ?; simplify_eq/=. lia.
Qed.

Lemma tally_records_recognised t records :
  tally_records t records = tally_records t (List.filter recognised records).
Proof.
  revert t. induction records as [|record rest IH]; intros t; [reflexivity|].
  simpl. destruct (recognised record) eqn:Hr.
  - simpl. destruct (tally_record t record); simpl; [apply IH|reflexivity].
  - rewrite (tally_record_unrecognised _ _ Hr). simpl. apply IH.
Qed.

Lemma tally_records_counts t records t' :
  tally_records t records = Ok t' ->
  (t_income_count t' + t_expense_count t' =
   t_income_count t + t_expense_count t + length (List.filter recognised records))%nat.
Proof.
  revert t. induction records as [|record rest IH]; intros t; simpl.
  - intros ?; simplify_eq/=. lia.
  - destruct (tally_record t record) as [t1|e] eqn:H1; simpl; [|discriminate].
    intros Hrest. apply IH in Hrest. apply tally_record_counts in H1.
    destruct (recognised record); simpl; lia.
Qed.

Lemma filter_length_all {A} (f : A -> bool) (l : list A) :
  length (List.filter f l) = length l <-> Forall (fun x => f x = true) l.
Proof.
  induction l as [|x l IH]; simpl.
  - split; [constructor|reflexivity].
  - pose proof (List.filter_length_le f l) as Hle.
    destruct (f x) eqn:Hx; simpl.
    + split.
      * intros [= Hl]. constructor; [exact Hx|apply IH; exact Hl].
      * intros Hall. inversion Hall; subst. f_equal. apply IH. assumption.
    + split; [lia|]. intros Hall. inversion Hall; subst. congruence.
Qed.

(** What a summary that succeeds was computed from. *)
Lemma get_monthly_summary_inv year month w s w1 :
  get_monthly_summary year month w = (Ok (Success s), w1) ->
  valid_month year month = true /\
  exists records t,
    (forall it, it ∈ records <->
       (exists k, tbl w !! k = Some it) /\
       monthly_filter (month_start year month) (month_end year month) it = true) /\
    tally_records (Tally 0 0 0 0) records = Ok t /\
    s = Summary year month (t_income_total t) (t_expense_total t)
                (t_income_total t - t_expense_total t)%Q
                (t_income_count t) (t_expense_count t) (length records).
Proof.
  intros Hrun. destruct (valid_month year month) eqn:Hv.
  2:{ destruct (get_monthly_summary_invalid year month w Hv) as [e He]. congruence. }
  split; [reflexivity|].
  rewrite (get_monthly_summary_valid _ _ _ Hv) in Hrun.
  unfold try_except, summary_body, bind, lift, ret in Hrun.
  destruct (scan _ w) as [[resp|e] w'] eqn:Hscan; [|discriminate].
  apply scan_inv in Hscan as (_ & _ & _ & Hin).
  destruct (tally_records _ (Items resp)) as [t|e] eqn:Ht; [|discriminate].
  simplify_eq/=. exists (Items resp), t. auto.
Qed.

(** C2, where the code departs from it.  [get_monthly_summary] builds its
    two dates before it enters the [try]: for a month outside 1..12 the
    constructor of the date raises, nothing catches the exception and no
    tagged failure is returned. *)
Theorem monthly_summary_raises (w : world) (year month : Z) :
  (month < 1 \/ 12 < month)%Z ->
  exists e, get_monthly_summary year month w = (Raise e, w).
Proof.
  intros Hm. apply get_monthly_summary_invalid.
  unfold valid_month. rewrite !andb_false_iff. left.
  destruct Hm; [left; right|right]; lia.
Qed.

(** C10.  In a summary that succeeds, every matched record counts in
    [total_records]; the totals and the bucket counts are those of the
    matched records whose type is 収入 or 支出 alone, so that a record of
    any other type adds to no total and to neither bucket; the net amount
    is income minus expense; and the two bucket counts add up to at most
    [total_records], with equality exactly when every matched record has
    one of the two types. *)
Theorem summary_buckets (w w1 : world) (y m : Z) (s : summary) :
  get_monthly_summary y m w = (Ok (Success s), w1) ->
  exists records,
    (forall it, it ∈ records <->
       (exists k, tbl w !! k = Some it) /\
       monthly_filter (month_start y m) (month_end y m) it = true) /\
    total_records s = length records /\
    tally_records (Tally 0 0 0 0) (List.filter recognised records)
      = Ok (Tally (income_total s) (expense_total s)
                  (income_count s) (expense_count s)) /\
    net_amount s = (income_total s - expense_total s)%Q /\
    (income_count s + expense_count s <= total_records s)%nat /\
    ((income_count s + expense_count s = total_records s)%nat
     <-> Forall (fun record => recognised record = true) records).
Proof.
  intros Hrun. apply get_monthly_summary_inv in Hrun as (_ & records & t & Hin & Ht & ->).
  exists records. simpl. split; [exact Hin|]. split; [reflexivity|].
  split; [rewrite <- tally_records_recognised; destruct t; exact Ht|].
  split; [reflexivity|].
  pose proof (tally_records_counts _ _ _ Ht) as Hc. simpl in Hc.
  pose proof (List.filter_length_le recognised records) as Hle.
  split; [lia|]. rewrite Hc. apply filter_length_all.
Qed.
End MonthlyClaims.

Lemma monthly_summary_raises_witness :
  (12 < 13)%Z /\
  exists e, Money.get_monthly_summary 2024 13 lunch_world = (Raise e, lunch_world).
Proof.
  split; [lia|]. apply (monthly_summary_raises lunch_world 2024 13). right. lia.
Defined.

(** The last month of the last year cannot be summarised either: the end
    date would be in the year 10000. *)
Lemma monthly_summary_raises_last_month :
  fst (Money.get_monthly_summary 9999 12 lunch_world)
  = Raise (ValueError "year is out of range").
Proof. vm_compute. reflexivity. Qed.

(** An income, an expense and a transfer, all created in December 2024. *)
Definition mixed_world : world :=
  snd (DynamoDBModel.create (record_of "m3" "振替" (Some 30%Q))
    (snd (DynamoDBModel.create (record_of "m2" "支出" (Some 50%Q))
      (snd (DynamoDBModel.create (record_of "m1" "収入" (Some 100%Q)) empty_world))))).

Definition mixed_summary : Money.summary :=
  Money.Summary 2024 12 100 50 50 1 1 3.

Lemma summary_buckets_witness :
  Money.get_monthly_summary 2024 12 mixed_world
    = (Ok (Success mixed_summary), snd (Money.get_monthly_summary 2024 12 mixed_world)) /\
  (Money.income_count mixed_summary + Money.expense_count mixed_summary
   <= Money.total_records mixed_summary)%nat.
Proof.
  assert (H : Money.get_monthly_summary 2024 12 mixed_world
    = (Ok (Success mixed_summary), snd (Money.get_monthly_summary 2024 12 mixed_world)))
    by (vm_compute; reflexivity).
  split; [exact H|].
  destruct (summary_buckets _ _ _ _ _ H) as (records & _ & _ & _ & _ & Hle & _).
  exact Hle.
Defined.

(** ** The end of the month *)

(** A clock that stands at the first instant of February 2024. *)
Definition midnight_clock (n : nat) : datetime := Datetime 2024 2 1 0 0 0 0.

(** A table with one active record, created at that instant. *)
Definition february_world : world :=
  snd (DynamoDBModel.create (record_of "feb" "支出" (Some 500%Q))
         (World ∅ midnight_clock 0 no_fault 0)).

Definition february_item : item := default ∅ (tbl february_world !! u "feb").

(** The range filter of the monthly scan, spelled out: both ends of the
    range are in it. *)
Lemma monthly_filter_spec start_date end_date (it : item) :
  Money.monthly_filter start_date end_date it = true <->
  (exists t, it !! "created_at"%string = Some (PStr t) /\
             pystr_leb start_date t = true /\ pystr_leb t end_date = true) /\
  it !! "deleted_at"%string = None.
Proof.
  unfold Money.monthly_filter, Table.attribute_between, Table.attribute_not_exists.
  rewrite andb_true_iff.
  destruct (it !! "created_at"%string) as [[]|]; destruct (it !! "deleted_at"%string);
    split; try (intros [? ?]; discriminate);
    try (intros [(t & Ht & _) _]; discriminate);
    try (intros [_ ?]; discriminate).
  - intros [Hb _]. apply andb_true_iff in Hb as [? ?]. split; [eauto|reflexivity].
  - intros [(t & Ht & H1 & H2) _]. injection Ht as <-. rewrite H1, H2. auto.
Qed.

(** C1, where the code departs from it.  The end of the range is the first
    instant of the next month and [BETWEEN] includes it: the record created
    at 2024-02-01T00:00:00 is counted in the summary of January 2024, and
    in that of February 2024 as well. *)
Theorem next_month_start_is_counted :
  tbl february_world !! u "feb" = Some february_item /\
  february_item !! "created_at"%string = Some (PStr (u "2024-02-01T00:00:00")) /\
  february_item !! "deleted_at"%string = None /\
  month_end 2024 1 = u "2024-02-01T00:00:00" /\
  fst (Money.get_monthly_summary 2024 1 february_world)
    = Ok (Success (Money.Summary 2024 1 0 500 (0 - 500) 0 1 1)) /\
  fst (Money.get_monthly_summary 2024 2 february_world)
    = Ok (Success (Money.Summary 2024 2 0 500 (0 - 500) 0 1 1)).
Proof. repeat split; vm_compute; reflexivity. Qed.

(** The other boundaries are as the specification has them: the first
    instant of the month and its last microsecond are in the range, the
    microsecond after the end is not, and December ends on January 1 of
    the next year. *)
Lemma month_boundaries :
  month_start 2024 1 = u "2024-01-01T00:00:00" /\
  pystr_leb (month_start 2024 1) (u "2024-01-01T00:00:00") = true /\
  pystr_leb (u "2024-01-31T23:59:59.999999") (month_end 2024 1) = true /\
  pystr_leb (month_start 2024 1) (u "2024-01-31T23:59:59.999999") = true /\
  pystr_leb (u "2024-02-01T00:00:00.000001") (month_end 2024 1) = false /\
  pystr_leb (month_start 2024 1) (u "2023-12-31T23:59:59.999999") = false /\
  month_end 2024 12 = u "2025-01-01T00:00:00".
Proof. repeat split; vm_compute; reflexivity. Qed.

(** ** The regular expression of the amount *)

(** [digit c]: the character [c] is matched by [\d]. *)
Abbreviation digit := (is_digit unicode_decimal).

Section AmountPattern.
Import Re LambdaFunction.
Context `{Runtime}.

(** The loop of a greedy star, by its name. *)
Definition star_loop (a : regex) (k : pystr -> option pystr)
  : nat -> pystr -> option pystr :=
  fix loop (fuel : nat) (s : pystr) {struct fuel} : option pystr :=
    match fuel with
    | O => k s
    | S fuel' =>
      match exec a s (fun s' =>
              if (length s' <? length s)%nat then loop fuel' s' else None) with
      | Some rest => Some rest
      | None => k s
      end
    end.

Lemma star_loop_S a k fuel s :
  star_loop a k (S fuel) s =
  match exec a s (fun s' =>
          if (length s' <? length s)%nat then star_loop a k fuel s' else None) with
  | Some rest => Some rest
  | None => k s
  end.
Proof. reflexivity. Qed.

Lemma exec_star a s k : exec (Star a) s k = star_loop a k (length s) s.
Proof. reflexivity. Qed.

(** What is left after the digits at the start. *)
Fixpoint skip_digits (s : pystr) : pystr :=
  match s with
  | c :: s' => if digit c then skip_digits s' else s
  | [] => []
  end.

(** What is left after the groups [,ddd] at the start. *)
Fixpoint skip_groups (s : pystr) : pystr :=
  match s with
  | c :: d1 :: d2 :: d3 :: s' =>
    if (c =? 44) && digit d1 && digit d2 && digit d3 then skip_groups s' else s
  | _ => s
  end.

(** What is left after a fraction [.d+] at the start, if there is one. *)
Definition skip_fraction (s : pystr) : pystr :=
  match s with
  | c :: d :: s' => if (c =? 46) && digit d then skip_digits s' else s
  | _ => s
  end.

Lemma skip_digits_length s : (length (skip_digits s) <= length s)%nat.
Proof.
  induction s as [|c s IH]; simpl; [lia|]. destruct (digit c); simpl; lia.
Qed.

(** A greedy [\d*] in front of a continuation that accepts whatever it is
    given takes all the digits. *)
Lemma star_loop_digit k fuel s :
  (forall s', k s' <> None) -> (length s <= fuel)%nat ->
  star_loop Digit k fuel s = k (skip_digits s).
Proof.
  intros Hk. revert s. induction fuel as [|fuel IH]; intros s Hlen.
  - destruct s; [reflexivity|simpl in Hlen; lia].
  - destruct s as [|c s']; [reflexivity|].
    rewrite star_loop_S. cbn [exec skip_digits]. destruct (digit c); [|reflexivity].
    replace (length s' <? length (c :: s'))%nat with true
      by (symmetry; apply Nat.ltb_lt; simpl; lia).
    rewrite IH by (simpl in Hlen; lia).
    destruct (k (skip_digits s')) eqn:Hks; [reflexivity|].
    exfalso. exact (Hk _ Hks).
Qed.

Lemma exec_star_digit k s :
  (forall s', k s' <> None) -> exec (Star Digit) s k = k (skip_digits s).
Proof. intros Hk. rewrite exec_star. apply star_loop_digit; [exact Hk|lia]. Qed.

Definition group : regex := Seq (Lit 44) (Seq Digit (Seq Digit Digit)).

Lemma exec_group s k :
  exec group s k =
  match s with
  | c :: d1 :: d2 :: d3 :: s' =>
    if (c =? 44) && digit d1 && digit d2 && digit d3 then k s' else None
  | _ => None
  end.
Proof.
  unfold group. cbn [exec].
  destruct s as [|c [|d1 [|d2 [|d3 s']]]]; try reflexivity;
    destruct (c =? 44); try reflexivity;
    destruct (digit d1); try reflexivity;
    destruct (digit d2); try reflexivity.
Qed.

Lemma star_loop_group k fuel s :
  (forall s', k s' <> None) -> (length s <= fuel)%nat ->
  star_loop group k fuel s = k (skip_groups s).
Proof.
  intros Hk. revert s. induction fuel as [|fuel IH]; intros s Hlen.
  - destruct s; [reflexivity|simpl in Hlen; lia].
  - rewrite star_loop_S, exec_group.
    destruct s as [|c [|d1 [|d2 [|d3 s']]]]; try reflexivity.
    cbn [skip_groups].
    destruct ((c =? 44) && digit d1 && digit d2 && digit d3); [|reflexivity].
    replace (length s' <? length (c :: d1 :: d2 :: d3 :: s'))%nat with true
      by (symmetry; apply Nat.ltb_lt; simpl; lia).
    rewrite IH by (simpl in Hlen; lia).
    destruct (k (skip_groups s')) eqn:Hks; [reflexivity|].
    exfalso. exact (Hk _ Hks).
Qed.

Lemma exec_seq a b s k : exec (Seq a b) s k = exec a s (fun s' => exec b s' k).
Proof. reflexivity. Qed.

Lemma exec_alt a b s k :
  exec (Alt a b) s k =
  match exec a s k with Some rest => Some rest | None => exec b s k end.
Proof. reflexivity. Qed.

Lemma exec_lit c s k :
  exec (Lit c) s k =
  match s with x :: s' => if x =? c then k s' else None | [] => None end.
Proof. reflexivity. Qed.

Lemma exec_digit s k :
  exec Digit s k =
  match s with x :: s' => if digit x then k s' else None | [] => None end.
Proof. reflexivity. Qed.

Lemma exec_fraction s :
  exec (Opt (Seq (Lit 46) (Plus Digit))) s Some = Some (skip_fraction s).
Proof.
  unfold Opt, Plus. rewrite exec_alt, exec_seq, exec_lit.
  destruct s as [|c s1]; [reflexivity|].
  destruct (c =? 46) eqn:Hc.
  2:{ destruct s1; cbn [skip_fraction exec]; rewrite ?Hc; reflexivity. }
  rewrite exec_seq, exec_digit.
  destruct s1 as [|d s']; [reflexivity|].
  cbn [skip_fraction]. rewrite Hc.
  destruct (digit d); [|reflexivity].
  rewrite exec_star_digit by discriminate. reflexivity.
Qed.

(** What the pattern consumes at the start of a text. *)
Definition after_amount (s : pystr) : option pystr :=
  match s with
  | c :: s' =>
    if digit c then Some (skip_fraction (skip_groups (skip_digits s'))) else None
  | [] => None
  end.

Lemma exec_amount_pattern s : exec amount_pattern s Some = after_amount s.
Proof.
  unfold amount_pattern, Plus. rewrite !exec_seq, exec_digit.
  destruct s as [|c s']; [reflexivity|]. cbn [after_amount].
  destruct (digit c); [|reflexivity].
  assert (Hk2 : forall s0, exec (Opt (Seq (Lit 46) (Seq Digit (Star Digit)))) s0 Some <> None).
  { intros s0. fold (Plus Digit). rewrite exec_fraction. discriminate. }
  assert (Hk1 : forall s0,
    exec (Seq (Star (Seq (Lit 44) (Seq Digit (Seq Digit Digit))))
              (Opt (Seq (Lit 46) (Seq Digit (Star Digit))))) s0 Some
    = Some (skip_fraction (skip_groups s0))).
  { intros s0. rewrite exec_seq, exec_star. fold group.
    rewrite star_loop_group; [|exact Hk2|lia].
    fold (Plus Digit). apply exec_fraction. }
  rewrite exec_star_digit; [apply Hk1|].
  intros s0. rewrite Hk1. discriminate.
Qed.
End AmountPattern.

(** ** The language of a regular expression *)

Section Language.
Import Re LambdaFunction.
Context `{Runtime}.

(** [matches r m]: the text [m], as a whole, is in the language of [r]. *)
Inductive matches : regex -> pystr -> Prop :=
| MEps : matches Eps []
| MLit c : matches (Lit c) [c]
| MDigit c : digit c = true -> matches Digit [c]
| MSeq a b x y : matches a x -> matches b y -> matches (Seq a b) (x ++ y)
| MAltL a b x : matches a x -> matches (Alt a b) x
| MAltR a b x : matches b x -> matches (Alt a b) x
| MStarNil a : matches (Star a) []
| MStarApp a x y : matches a x -> matches (Star a) y -> matches (Star a) (x ++ y).

Definition all_digits (x : pystr) : Prop := Forall (fun c => digit c = true) x.

(** A run of groups [,ddd]. *)
Inductive groups : pystr -> Prop :=
| GroupsNil : groups []
| GroupsCons d1 d2 d3 x :
    digit d1 = true -> digit d2 = true -> digit d3 = true ->
    groups x -> groups (44 :: d1 :: d2 :: d3 :: x).

(** Nothing, or a point and at least one digit. *)
Definition fraction (x : pystr) : Prop :=
  x = [] \/ exists d fp, x = 46 :: d :: fp /\ digit d = true /\ all_digits fp.

Lemma matches_digit_inv x : matches Digit x -> exists c, x = [c] /\ digit c = true.
Proof. intros Hm. inversion Hm; subst. eauto. Qed.

Lemma matches_lit_inv c x : matches (Lit c) x -> x = [c].
Proof. intros Hm. inversion Hm; subst. reflexivity. Qed.

Lemma matches_seq_inv a b x :
  matches (Seq a b) x -> exists x1 x2, x = x1 ++ x2 /\ matches a x1 /\ matches b x2.
Proof. intros Hm. inversion Hm; subst. eauto. Qed.

Lemma matches_star_digit x : matches (Star Digit) x <-> all_digits x.
Proof.
  split.
  - intros Hm. remember (Star Digit) as r eqn:Hr.
    induction Hm; try discriminate.
    + constructor.
    + injection Hr as ->. apply matches_digit_inv in Hm1 as (c & -> & Hc).
      constructor; [exact Hc|]. apply IHHm2. reflexivity.
  - induction 1 as [|c x Hc _ IH]; [constructor|].
    apply (MStarApp Digit [c] x); [constructor; exact Hc|exact IH].
Qed.

Lemma matches_plus_digit x :
  matches (Plus Digit) x <-> exists c x', x = c :: x' /\ digit c = true /\ all_digits x'.
Proof.
  unfold Plus. split.
  - intros Hm. apply matches_seq_inv in Hm as (x1 & x2 & -> & H1 & H2).
    apply matches_digit_inv in H1 as (c & -> & Hc).
    apply matches_star_digit in H2. exists c, x2. auto.
  - intros (c & x' & -> & Hc & Hx).
    apply (MSeq Digit (Star Digit) [c] x'); [constructor; exact Hc|].
    apply matches_star_digit. exact Hx.
Qed.

Lemma matches_group x :
  matches group x <->
  exists d1 d2 d3, x = [44; d1; d2; d3] /\
                   digit d1 = true /\ digit d2 = true /\ digit d3 = true.
Proof.
  unfold group. split.
  - intros Hm.
    apply matches_seq_inv in Hm as (x1 & x2 & -> & H1 & H2).
    apply matches_lit_inv in H1 as ->.
    apply matches_seq_inv in H2 as (y1 & y2 & -> & H1 & H2).
    apply matches_digit_inv in H1 as (d1 & -> & Hd1).
    apply matches_seq_inv in H2 as (z1 & z2 & -> & H1 & H2).
    apply matches_digit_inv in H1 as (d2 & -> & Hd2).
    apply matches_digit_inv in H2 as (d3 & -> & Hd3).
    exists d1, d2, d3. auto.
  - intros (d1 & d2 & d3 & -> & Hd1 & Hd2 & Hd3).
    apply (MSeq (Lit 44) _ [44] [d1; d2; d3]); [constructor|].
    apply (MSeq Digit _ [d1] [d2; d3]); [constructor; exact Hd1|].
    apply (MSeq Digit _ [d2] [d3]); constructor; assumption.
Qed.

Lemma matches_star_group x : matches (Star group) x <-> groups x.
Proof.
  split.
  - intros Hm. remember (Star group) as r eqn:Hr.
    induction Hm; try discriminate.
    + constructor.
    + injection Hr as ->. apply matches_group in Hm1 as (d1 & d2 & d3 & -> & ? & ? & ?).
      simpl. constructor; auto.
  - induction 1 as [|d1 d2 d3 x Hd1 Hd2 Hd3 _ IH]; [constructor|].
    apply (MStarApp group [44; d1; d2; d3] x); [|exact IH].
    apply matches_group. exists d1, d2, d3. auto.
Qed.

Lemma matches_fraction x :
  matches (Opt (Seq (Lit 46) (Plus Digit))) x <-> fraction x.
Proof.
  unfold Opt, fraction. split.
  - intros Hm. inversion Hm; subst.
    + right. match goal with Hs : matches (Seq _ _) _ |- _ =>
        apply matches_seq_inv in Hs as (x1 & x2 & -> & H1 & H2) end.
      apply matches_lit_inv in H1 as ->.
      apply matches_plus_digit in H2 as (d & fp & -> & Hd & Hfp).
      exists d, fp. auto.
    + left. match goal with He : matches Eps _ |- _ => inversion He end. reflexivity.
  - intros [->|(d & fp & -> & Hd & Hfp)].
    + apply MAltR. constructor.
    + apply MAltL. apply (MSeq (Lit 46) _ [46] (d :: fp)); [constructor|].
      apply matches_plus_digit. exists d, fp. auto.
Qed.

(** The language of the amount pattern, in plain terms: digits, then groups
    of a comma and three digits, then possibly a point and digits. *)
Lemma matches_amount_pattern m :
  matches amount_pattern m <->
  exists c ds gs fr,
    m = c :: ds ++ gs ++ fr /\
    digit c = true /\ all_digits ds /\ groups gs /\ fraction fr.
Proof.
  unfold amount_pattern. split.
  - intros Hm. apply matches_seq_inv in Hm as (x1 & x23 & -> & H1 & H23).
    apply matches_seq_inv in H23 as (x2 & x3 & -> & H2 & H3).
    apply matches_plus_digit in H1 as (c & ds & -> & Hc & Hds).
    apply matches_star_group in H2. apply matches_fraction in H3.
    exists c, ds, x2, x3. auto.
  - intros (c & ds & gs & fr & -> & Hc & Hds & Hgs & Hfr).
    apply (MSeq _ _ (c :: ds) (gs ++ fr)).
    + apply matches_plus_digit. exists c, ds. auto.
    + apply MSeq; [apply matches_star_group|apply matches_fraction]; assumption.
Qed.
End Language.

(** ** What [re.search] finds *)

Section Search.
Import Re LambdaFunction.
Context `{Runtime}.

Lemma comma_is_not_digit : digit 44 = false.
Proof. unfold is_digit. rewrite comma_not_digit. reflexivity. Qed.

Lemma point_is_not_digit : digit 46 = false.
Proof. unfold is_digit. rewrite point_not_digit. reflexivity. Qed.

Lemma skip_digits_split s :
  exists ds, s = ds ++ skip_digits s /\ all_digits ds.
Proof.
  induction s as [|c s (ds & Hs & Hds)]; simpl.
  - exists []. split; [reflexivity|constructor].
  - destruct (digit c) eqn:Hc.
    + exists (c :: ds). split; [simpl; congruence|constructor; assumption].
    + exists []. split; [reflexivity|constructor].
Qed.

Lemma skip_digits_app ds t : all_digits ds -> skip_digits (ds ++ t) = skip_digits t.
Proof.
  induction 1 as [|c ds Hc _ IH]; [reflexivity|]. simpl. rewrite Hc. exact IH.
Qed.

Lemma skip_digits_stuck c t : digit c = false -> skip_digits (c :: t) = c :: t.
Proof. intros Hc. simpl. rewrite Hc. reflexivity. Qed.

Lemma skip_groups_length s : (length (skip_groups s) <= length s)%nat.
Proof.
  remember (length s) as n eqn:Hn. revert s Hn.
  induction n as [n IH] using lt_wf_ind. intros s ->.
  destruct s as [|c [|d1 [|d2 [|d3 s']]]]; simpl; try lia.
  destruct (_ && _); simpl; [|lia].
  specialize (IH (length s') ltac:(simpl; lia) s' eq_refl). lia.
Qed.

Lemma skip_groups_split s :
  exists gs, s = gs ++ skip_groups s /\ groups gs.
Proof.
  remember (length s) as n eqn:Hn. revert s Hn.
  induction n as [n IH] using lt_wf_ind. intros s ->.
  destruct s as [|c [|d1 [|d2 [|d3 s']]]];
    try (exists []; split; [reflexivity|constructor]).
  cbn [skip_groups].
  destruct ((c =? 44) && digit d1 && digit d2 && digit d3) eqn:Hg.
  - apply andb_true_iff in Hg as [Hg Hd3]. apply andb_true_iff in Hg as [Hg Hd2].
    apply andb_true_iff in Hg as [Hc Hd1]. apply N.eqb_eq in Hc as ->.
    destruct (IH (length s') ltac:(simpl; lia) s' eq_refl) as (gs & Hs & Hgs).
    exists (44 :: d1 :: d2 :: d3 :: gs). split; [simpl; congruence|].
    constructor; assumption.
  - exists []. split; [reflexivity|constructor].
Qed.

Lemma skip_groups_app gs t : groups gs -> skip_groups (gs ++ t) = skip_groups t.
Proof.
  induction 1 as [|d1 d2 d3 x Hd1 Hd2 Hd3 _ IH]; [reflexivity|].
  cbn [app skip_groups]. rewrite Hd1, Hd2, Hd3. exact IH.
Qed.

Lemma skip_groups_stuck c t : c <> 44 -> skip_groups (c :: t) = c :: t.
Proof.
  intros Hc. apply N.eqb_neq in Hc.
  destruct t as [|d1 [|d2 [|d3 t]]]; simpl; try reflexivity. rewrite Hc. reflexivity.
Qed.

Lemma skip_fraction_length s : (length (skip_fraction s) <= length s)%nat.
Proof.
  destruct s as [|c [|d s']]; simpl; try lia.
  destruct (_ && _); simpl; [|lia].
  pose proof (skip_digits_length s'). lia.
Qed.

Lemma skip_fraction_split s :
  exists fr, s = fr ++ skip_fraction s /\ fraction fr.
Proof.
  destruct s as [|c [|d s']];
    try (exists []; split; [reflexivity|left; reflexivity]).
  cbn [skip_fraction].
  destruct ((c =? 46) && digit d) eqn:Hf.
  - apply andb_true_iff in Hf as [Hc Hd]. apply N.eqb_eq in Hc as ->.
    destruct (skip_digits_split s') as (fp & Hs & Hfp).
    exists (46 :: d :: fp). split; [simpl; congruence|].
    right. exists d, fp. auto.
  - exists []. split; [reflexivity|left; reflexivity].
Qed.

(** The prefix that the pattern takes is in its language. *)
Lemma after_amount_sound s rest :
  after_amount s = Some rest ->
  exists m, s = m ++ rest /\ matches amount_pattern m.
Proof.
  destruct s as [|c s']; [discriminate|]. simpl.
  destruct (digit c) eqn:Hc; [|discriminate]. intros [= <-].
  destruct (skip_digits_split s') as (ds & H1 & Hds).
  destruct (skip_groups_split (skip_digits s')) as (gs & H2 & Hgs).
  destruct (skip_fraction_split (skip_groups (skip_digits s'))) as (fr & H3 & Hfr).
  exists (c :: ds ++ gs ++ fr). split.
  - simpl. f_equal. rewrite <- !app_assoc, <- H3, <- H2. exact H1.
  - apply matches_amount_pattern. exists c, ds, gs, fr. auto.
Qed.

(** No text of the language that starts at the same place is longer. *)
Lemma after_amount_longest s rest m' post' :
  after_amount s = Some rest ->
  s = m' ++ post' -> matches amount_pattern m' ->
  (length rest <= length post')%nat.
Proof.
  intros Hs Heq Hm'.
  apply matches_amount_pattern in Hm' as (c & ds & gs & fr & -> & Hc & Hds & Hgs & Hfr).
  subst s. simpl in Hs. rewrite Hc in Hs. injection Hs as <-.
  rewrite <- !app_assoc, skip_digits_app by exact Hds.
  pose proof comma_is_not_digit as Hcomma. pose proof point_is_not_digit as Hpoint.
  assert (Hfrac : (length (skip_fraction (fr ++ post')) <= length post')%nat).
  { destruct Hfr as [->|(d & fp & -> & Hd & Hfp)]; [apply skip_fraction_length|].
    cbn [app skip_fraction]. rewrite N.eqb_refl, Hd. cbn [andb].
    rewrite skip_digits_app by exact Hfp. apply skip_digits_length. }
  assert (Hgroups : (length (skip_fraction (skip_groups (fr ++ post'))) <= length post')%nat).
  { destruct Hfr as [->|(d & fp & -> & Hd & Hfp)].
    - simpl. pose proof (skip_groups_length post').
      pose proof (skip_fraction_length (skip_groups post')). lia.
    - cbn [app]. rewrite skip_groups_stuck by discriminate. exact Hfrac. }
  destruct Hgs as [|d1 d2 d3 x Hd1 Hd2 Hd3 Hx].
  - cbn [app]. destruct Hfr as [->|(d & fp & -> & Hd & Hfp)].
    + simpl. pose proof (skip_digits_length post').
      pose proof (skip_groups_length (skip_digits post')).
      pose proof (skip_fraction_length (skip_groups (skip_digits post'))). lia.
    + cbn [app]. rewrite skip_digits_stuck by exact Hpoint. exact Hgroups.
  - cbn [app]. rewrite skip_digits_stuck by exact Hcomma.
    change (44 :: d1 :: d2 :: d3 :: x ++ fr ++ post')
      with ((44 :: d1 :: d2 :: d3 :: x) ++ fr ++ post').
    rewrite skip_groups_app by (constructor; assumption). exact Hgroups.
Qed.

(** Every text of the language starts with a digit. *)
Lemma matches_amount_head m :
  matches amount_pattern m -> exists c m0, m = c :: m0 /\ digit c = true.
Proof.
  intros Hm. apply matches_amount_pattern in Hm as (c & ds & gs & fr & -> & Hc & _).
  eauto.
Qed.

Lemma after_amount_some c s : digit c = true -> after_amount (c :: s) <> None.
Proof. intros Hc. simpl. rewrite Hc. discriminate. Qed.
End Search.

Section FirstMatch.
Import Re LambdaFunction.
Context `{Runtime}.

Definition no_digits (x : pystr) : Prop := Forall (fun c => digit c = false) x.

Lemma match_at_amount s :
  match_at amount_pattern s =
  match after_amount s with
  | Some rest => Some (firstn (length s - length rest) s)
  | None => None
  end.
Proof. unfold match_at. rewrite exec_amount_pattern. reflexivity. Qed.

Lemma match_at_some s rest :
  after_amount s = Some rest ->
  exists m, match_at amount_pattern s = Some m /\ s = m ++ rest.
Proof.
  intros Ha. destruct (after_amount_sound _ _ Ha) as (m & Hs & _).
  exists m. split; [|exact Hs].
  rewrite match_at_amount, Ha. f_equal. subst s.
  rewrite length_app, Nat.add_sub. apply take_app_length.
Qed.

Lemma search_unfold s :
  search amount_pattern s =
  match match_at amount_pattern s with
  | Some m => Some m
  | None => match s with [] => None | _ :: s' => search amount_pattern s' end
  end.
Proof. destruct s; reflexivity. Qed.

Lemma search_some s m :
  search amount_pattern s = Some m ->
  exists pre post,
    s = pre ++ m ++ post /\ no_digits pre /\ after_amount (m ++ post) = Some post.
Proof.
  induction s as [|c s IH]; rewrite search_unfold.
  - rewrite match_at_amount. discriminate.
  - destruct (after_amount (c :: s)) as [rest|] eqn:Ha.
    + destruct (match_at_some _ _ Ha) as (m0 & -> & Hs). intros [= <-].
      exists [], rest. split; [exact Hs|]. split; [constructor|].
      rewrite <- Hs. exact Ha.
    + rewrite match_at_amount, Ha.
      intros Hm. destruct (IH Hm) as (pre & post & -> & Hpre & Hpost).
      exists (c :: pre), post. split; [reflexivity|]. split; [|exact Hpost].
      constructor; [|exact Hpre].
      destruct (digit c) eqn:Hc; [|reflexivity].
      exfalso. exact (after_amount_some _ _ Hc Ha).
Qed.

Lemma search_none s : search amount_pattern s = None -> no_digits s.
Proof.
  induction s as [|c s IH]; [constructor|].
  rewrite search_unfold, match_at_amount.
  destruct (after_amount (c :: s)) as [rest|] eqn:Ha; [discriminate|].
  intros Hs. constructor; [|exact (IH Hs)].
  destruct (digit c) eqn:Hc; [|reflexivity].
  exfalso. exact (after_amount_some _ _ Hc Ha).
Qed.

Lemma no_digits_before pre t pre' c t' :
  no_digits pre -> pre ++ t = pre' ++ c :: t' -> digit c = true ->
  (length pre <= length pre')%nat.
Proof.
  intros Hpre. revert pre'. induction Hpre as [|x pre Hx _ IH]; intros pre' Heq Hc.
  - simpl. lia.
  - destruct pre' as [|y pre']; simpl in Heq.
    + injection Heq as -> _. congruence.
    + injection Heq as _ Heq. simpl. specialize (IH _ Heq Hc). lia.
Qed.

(** [m] is the first text of the amount pattern in [s]: no text of the
    pattern starts further left, and none that starts at the same place is
    longer. *)
Definition first_match (s m : pystr) : Prop :=
  exists pre post,
    s = pre ++ m ++ post /\
    matches amount_pattern m /\
    (forall pre' m' post', s = pre' ++ m' ++ post' -> matches amount_pattern m' ->
       (length pre <= length pre')%nat) /\
    (forall m' post', m ++ post = m' ++ post' -> matches amount_pattern m' ->
       (length m' <= length m)%nat).

(** No part of [s] is a text of the amount pattern. *)
Definition no_match (s : pystr) : Prop :=
  forall pre m post, s = pre ++ m ++ post -> ~ matches amount_pattern m.

Lemma search_first_match s m :
  search amount_pattern s = Some m -> first_match s m.
Proof.
  intros Hs. apply search_some in Hs as (pre & post & -> & Hpre & Ha).
  destruct (after_amount_sound _ _ Ha) as (m0 & Hm0 & Hmatch).
  apply app_inv_tail in Hm0 as <-.
  exists pre, post. split; [reflexivity|]. split; [exact Hmatch|]. split.
  - intros pre' m' post' Heq Hm'.
    apply matches_amount_head in Hm' as (c & m1 & -> & Hc).
    exact (no_digits_before _ _ _ _ _ Hpre Heq Hc).
  - intros m' post' Heq Hm'.
    pose proof (after_amount_longest _ _ _ _ Ha Heq Hm') as Hlen.
    apply (f_equal (@length _)) in Heq. rewrite !length_app in Heq. lia.
Qed.

Lemma search_no_match s : search amount_pattern s = None -> no_match s.
Proof.
  intros Hs pre m post Heq Hm. apply search_none in Hs.
  apply matches_amount_head in Hm as (c & m1 & -> & Hc).
  subst s. unfold no_digits in Hs. rewrite Forall_app in Hs. destruct Hs as [_ Hs].
  inversion Hs; subst. congruence.
Qed.
End FirstMatch.

(** ** The amount is always a number *)

Section AmountValue.
Import Re LambdaFunction.
Context `{Runtime}.

Lemma digit_not_comma c : digit c = true -> c <> 44.
Proof. intros Hc ->. rewrite comma_is_not_digit in Hc. discriminate. Qed.

Lemma remove_commas_app x y : remove_commas (x ++ y) = remove_commas x ++ remove_commas y.
Proof. unfold remove_commas. apply filter_app. Qed.

Lemma remove_commas_cons_keep c x : c <> 44 -> remove_commas (c :: x) = c :: remove_commas x.
Proof. intros Hc. unfold remove_commas. rewrite filter_cons_True by exact Hc. reflexivity. Qed.

Lemma remove_commas_comma x : remove_commas (44 :: x) = remove_commas x.
Proof. unfold remove_commas. rewrite filter_cons_False by auto. reflexivity. Qed.

Lemma remove_commas_digits x : all_digits x -> remove_commas x = x.
Proof.
  induction 1 as [|c x Hc _ IH]; [reflexivity|].
  rewrite remove_commas_cons_keep by (apply digit_not_comma; exact Hc). congruence.
Qed.

Lemma remove_commas_groups x : groups x -> all_digits (remove_commas x).
Proof.
  induction 1 as [|d1 d2 d3 x Hd1 Hd2 Hd3 _ IH]; [constructor|].
  rewrite remove_commas_comma.
  rewrite !remove_commas_cons_keep by (apply digit_not_comma; assumption).
  repeat (constructor; [assumption|]). exact IH.
Qed.

Lemma remove_commas_fraction x : fraction x -> remove_commas x = x.
Proof.
  intros [->|(d & fp & -> & Hd & Hfp)]; [reflexivity|].
  rewrite remove_commas_cons_keep by discriminate.
  rewrite remove_commas_cons_keep by (apply digit_not_comma; exact Hd).
  rewrite remove_commas_digits by exact Hfp. reflexivity.
Qed.

(** The digits at the start of [ds ++ t], when [ds] is made of digits and
    [t] does not start with one. *)
Lemma span_digits_app ds t :
  all_digits ds -> skip_digits t = t ->
  exists vs, span_digits unicode_decimal (ds ++ t) = (vs, t) /\ length vs = length ds.
Proof.
  intros Hds Ht. induction Hds as [|c ds Hc _ (vs & IH & Hlen)].
  - exists []. split; [|reflexivity]. simpl.
    destruct t as [|c t]; [reflexivity|]. simpl in *.
    unfold is_digit in Ht. destruct (unicode_decimal c); [|reflexivity].
    exfalso. pose proof (skip_digits_length t) as Hl. rewrite Ht in Hl. simpl in Hl. lia.
  - unfold is_digit in Hc. simpl.
    destruct (unicode_decimal c) as [v|]; [|discriminate].
    rewrite IH. exists (v :: vs). split; [reflexivity|]. simpl. congruence.
Qed.

(** With its commas removed, a text of the amount pattern is a plain
    decimal literal. *)
Lemma literal_of_match m :
  matches amount_pattern m ->
  exists q, decimal_literal unicode_decimal (remove_commas m) = Some q.
Proof.
  intros Hm. apply matches_amount_pattern in Hm as (c & ds & gs & fr & -> & Hc & Hds & Hgs & Hfr).
  change (c :: ds ++ gs ++ fr) with ((c :: ds) ++ gs ++ fr).
  rewrite !remove_commas_app.
  rewrite (remove_commas_digits (c :: ds)) by (constructor; assumption).
  rewrite (remove_commas_fraction fr) by exact Hfr.
  apply remove_commas_groups in Hgs.
  assert (Hall : all_digits ((c :: ds) ++ remove_commas gs)).
  { apply Forall_app. split; [constructor; assumption|exact Hgs]. }
  rewrite app_assoc.
  set (D := (c :: ds) ++ remove_commas gs) in *.
  assert (HD : (0 < length D)%nat) by (unfold D; simpl; lia).
  unfold decimal_literal.
  destruct Hfr as [->|(d & fp & -> & Hd & Hfp)].
  - destruct (span_digits_app D [] Hall eq_refl) as (vs & -> & Hlen).
    destruct vs as [|v vs]; [simpl in Hlen; lia|]. eauto.
  - assert (Hstuck : skip_digits (46 :: d :: fp) = 46 :: d :: fp)
      by (apply skip_digits_stuck, point_is_not_digit).
    destruct (span_digits_app D _ Hall Hstuck) as (vs & -> & Hlen).
    destruct vs as [|v vs]; [simpl in Hlen; lia|].
    rewrite N.eqb_refl.
    destruct (span_digits_app (d :: fp) [] ltac:(constructor; assumption) eq_refl)
      as (ws & Hws & Hwlen).
    rewrite app_nil_r in Hws. rewrite Hws.
    destruct ws as [|w ws]; [simpl in Hwlen; lia|]. eauto.
Qed.

(** [float] accepts what the pattern found. *)
Lemma float_of_match m :
  matches amount_pattern m ->
  exists q, float_of_str (remove_commas m) = Ok q /\
            decimal_literal unicode_decimal (remove_commas m) = Some q.
Proof.
  intros Hm. destruct (literal_of_match m Hm) as (q & Hq).
  exists q. split; [apply float_of_literal; exact Hq|exact Hq].
Qed.
End AmountValue.

(** ** The parser *)

Section Parser.
Import Re SendLineService LambdaFunction.
Context `{Runtime}.

(** [kw] occurs in [text]. *)
Definition substring (kw text : pystr) : Prop :=
  exists pre post, text = pre ++ kw ++ post.

Lemma starts_with_spec p s : starts_with p s = true <-> exists post, s = p ++ post.
Proof.
  revert s. induction p as [|x p IH]; intros s; simpl.
  - split; [eauto|reflexivity].
  - destruct s as [|y s].
    + split; [discriminate|intros [post Hp]; discriminate].
    + rewrite andb_true_iff, N.eqb_eq, IH. split.
      * intros [-> [post ->]]. eauto.
      * intros [post [= -> ->]]. eauto.
Qed.

Lemma contains_spec kw text : contains kw text = true <-> substring kw text.
Proof.
  unfold substring. induction text as [|c text IH]; simpl.
  - rewrite orb_false_r, starts_with_spec. split.
    + intros [post Hp]. exists [], post. exact Hp.
    + intros (pre & post & Hp). destruct pre; [eauto|discriminate].
  - rewrite orb_true_iff, starts_with_spec, IH. split.
    + intros [[post Hp]|(pre & post & ->)].
      * exists [], post. exact Hp.
      * exists (c :: pre), post. reflexivity.
    + intros (pre & post & Hp). destruct pre as [|x pre].
      * left. eauto.
      * right. injection Hp as -> ->. eauto.
Qed.

Lemma any_in_spec keywords text :
  any_in keywords text = true <-> exists kw, kw ∈ keywords /\ substring kw text.
Proof.
  unfold any_in. rewrite existsb_exists. split.
  - intros (kw & Hin & Hc). exists kw. rewrite list_elem_of_In, <- contains_spec. auto.
  - intros (kw & Hin & Hc). exists kw. rewrite <- list_elem_of_In, contains_spec. auto.
Qed.

(** The parser as the specification words it. *)

(** The keyword groups of the expense categories, in their order of priority. *)
Definition expense_groups : list (pystr * list pystr) :=
  [ (cat_food, food_keywords);
    (cat_transport, transport_keywords);
    (cat_housing, housing_keywords);
    (cat_utilities, utilities_keywords);
    (cat_medical, medical_keywords);
    (cat_entertainment, entertainment_keywords);
    (cat_shopping, shopping_keywords) ].

Definition spec_is_income (text : pystr) : bool := any_in income_keywords text.

Definition spec_type (text : pystr) : pystr :=
  if spec_is_income text then type_income else type_expense.

Definition spec_category (text : pystr) : pystr :=
  if spec_is_income text then
    if any_in [kw_salary; kw_bonus; kw_bonus2] text then cat_salary else cat_income
  else
    match find (fun g => any_in (snd g) text) expense_groups with
    | Some g => fst g
    | None => cat_other
    end.

(** The amount of the specification: the value of the first text of the
    pattern with its commas removed, or nothing when there is none. *)
Definition spec_amount (text : pystr) (amount : option Q) : Prop :=
  match amount with
  | Some q =>
    exists m, first_match text m /\
              decimal_literal unicode_decimal (remove_commas m) = Some q /\
              float_of_str (remove_commas m) = Ok q
  | None => no_match text
  end.

(** On a string the body of the parser does not raise, and this is what it
    returns. *)
Lemma classify_spec (s : pystr) :
  (if any_in income_keywords s then
     (type_income,
      if contains kw_salary s || contains kw_bonus s || contains kw_bonus2 s
      then cat_salary else cat_income)
   else
     (type_expense,
      if any_in food_keywords s then cat_food
      else if any_in transport_keywords s then cat_transport
      else if any_in housing_keywords s then cat_housing
      else if any_in utilities_keywords s then cat_utilities
      else if any_in medical_keywords s then cat_medical
      else if any_in entertainment_keywords s then cat_entertainment
      else if any_in shopping_keywords s then cat_shopping
      else cat_other))
  = (spec_type s, spec_category s).
Proof.
  unfold spec_type, spec_category, spec_is_income.
  destruct (any_in income_keywords s).
  - cbn [any_in existsb]. rewrite orb_false_r, orb_assoc. reflexivity.
  - unfold expense_groups. cbn [find snd fst].
    destruct (any_in food_keywords s); [reflexivity|].
    destruct (any_in transport_keywords s); [reflexivity|].
    destruct (any_in housing_keywords s); [reflexivity|].
    destruct (any_in utilities_keywords s); [reflexivity|].
    destruct (any_in medical_keywords s); [reflexivity|].
    destruct (any_in entertainment_keywords s); [reflexivity|].
    destruct (any_in shopping_keywords s); reflexivity.
Qed.

Lemma parse_body_str (s : pystr) :
  exists amount,
    parse_body (PStr s) = Ok (Parsed (spec_type s) (spec_category s) (PStr s) amount) /\
    spec_amount s amount.
Proof.
  unfold parse_body. cbn [res_bind]. rewrite classify_spec.
  destruct (search amount_pattern s) as [m|] eqn:Hsearch.
  - pose proof (search_first_match _ _ Hsearch) as Hfirst.
    assert (Hm : matches amount_pattern m) by (destruct Hfirst as (? & ? & _ & Hm & _); exact Hm).
    destruct (float_of_match m Hm) as (q & Hfloat & Hlit).
    exists (Some q). rewrite Hfloat. cbn [res_bind]. split; [reflexivity|].
    exists m. auto.
  - exists None. cbn [res_bind]. split; [reflexivity|].
    apply search_no_match. exact Hsearch.
Qed.
End Parser.

Section ParserProperties.
Import Re SendLineService LambdaFunction.
Context `{Runtime}.

(** On a string, [_parse_message] follows the keyword rules and finds the
    first amount: the type is income exactly when an income keyword occurs
    in the text; the category is that of the salary keywords or plain
    income for an income, and that of the first expense group (in the order
    food, transport, housing, utilities, medical, entertainment, shopping)
    with a keyword in the text, or その他; the description is the text; the
    amount is the value of the leftmost text of the amount pattern, the
    longest one that starts there, with its commas removed, and is absent
    when no part of the text is in the pattern. *)
Theorem parser_algorithm (s : pystr) :
  exists amount,
    _parse_message (PStr s)
      = Ok (Parsed (spec_type s) (spec_category s) (PStr s) amount) /\
    spec_amount s amount /\
    (spec_type s = type_income <-> exists kw, kw ∈ income_keywords /\ substring kw s) /\
    (spec_type s = type_expense <-> ~ exists kw, kw ∈ income_keywords /\ substring kw s).
Proof.
  destruct (parse_body_str s) as (amount & Hbody & Hamount).
  exists amount. unfold _parse_message. rewrite Hbody.
  split; [reflexivity|]. split; [exact Hamount|].
  unfold spec_type, spec_is_income. rewrite <- any_in_spec.
  destruct (any_in income_keywords s); split; try split;
    try reflexivity; try discriminate; try congruence; intros; try discriminate.
Qed.

(** [_parse_message] returns a dictionary for every argument.  For a string
    the body of its [try] does not raise: whatever the amount pattern finds
    is accepted by [float].  For an argument that is not a string the
    search raises, and the answer is the default: 支出, その他, the argument
    as description and no amount. *)
Theorem parser_never_raises (v : pyval) :
  (exists d, _parse_message v = Ok d) /\
  (forall s, v = PStr s -> exists d, parse_body v = Ok d /\ _parse_message v = Ok d) /\
  (forall e, parse_body v = Raise e ->
     _parse_message v = Ok (Parsed (u "支出") (u "その他") v None)) /\
  ((forall s, v <> PStr s) ->
     _parse_message v = Ok (Parsed (u "支出") (u "その他") v None)).
Proof.
  split; [|split; [|split]].
  - unfold _parse_message. destruct (parse_body v); eauto.
  - intros s ->. destruct (parse_body_str s) as (amount & Hbody & _).
    unfold _parse_message. rewrite Hbody. eauto.
  - intros e He. unfold _parse_message. rewrite He. reflexivity.
  - intros Hv. destruct v; try reflexivity. exfalso. exact (Hv s eq_refl).
Qed.
End ParserProperties.

Section AmountSign.
Import Re SendLineService LambdaFunction.
Context `{Runtime}.

Lemma decimal_literal_nonneg s q :
  decimal_literal unicode_decimal s = Some q -> (0 <= q)%Q.
Proof.
  unfold decimal_literal.
  destruct (span_digits unicode_decimal s) as [[|v ip] [|c rest]]; try discriminate.
  - intros [= <-]. unfold Qle. simpl. lia.
  - destruct (c =? 46); [|discriminate].
    destruct (span_digits unicode_decimal rest) as [[|d fp] [|c' rest']]; try discriminate.
    intros [= <-]. unfold Qle. simpl. lia.
Qed.

(** The amount that the parser extracts is never negative: the pattern has
    no sign, so a minus in front of the digits is not part of the amount. *)
Theorem parsed_amount_nonneg (s : pystr) (d : parsed) (q : Q) :
  _parse_message (PStr s) = Ok d -> p_amount d = Some q -> (0 <= q)%Q.
Proof.
  intros Hp Hq. destruct (parse_body_str s) as (amount & Hbody & Hamount).
  unfold _parse_message in Hp. rewrite Hbody in Hp. injection Hp as <-.
  simpl in Hq. subst amount. destruct Hamount as (m & _ & Hlit & _).
  exact (decimal_literal_nonneg _ _ Hlit).
Qed.
End AmountSign.

Lemma parsed_amount_nonneg_witness :
  @LambdaFunction._parse_message sample_runtime (PStr (u "返金 -1,500円"))
    = Ok (SendLineService.Parsed (u "支出") (u "その他") (PStr (u "返金 -1,500円"))
            (Some 1500%Q)) /\
  (0 <= 1500)%Q.
Proof.
  assert (Hp : @LambdaFunction._parse_message sample_runtime (PStr (u "返金 -1,500円"))
    = Ok (SendLineService.Parsed (u "支出") (u "その他") (PStr (u "返金 -1,500円"))
            (Some 1500%Q))) by (vm_compute; reflexivity).
  split; [exact Hp|].
  exact (@parsed_amount_nonneg sample_runtime _ _ _ Hp eq_refl).
Defined.

Lemma parser_algorithm_witness :
  exists amount,
    @LambdaFunction._parse_message sample_runtime (PStr (u "昼食 850円"))
      = Ok (SendLineService.Parsed (u "支出") (u "食費") (PStr (u "昼食 850円")) amount).
Proof.
  destruct (@parser_algorithm sample_runtime (u "昼食 850円")) as (amount & Hp & _).
  exists amount. exact Hp.
Defined.

(** ** The ingestion loop *)

Section Ingestion.
Import Table SendLineService LambdaFunction.
Context `{Runtime}.

(** What the guards of the loop make of an event: the user and the text of
    a message to store, nothing for an event that is skipped, an exception
    for an event on which [get] cannot be called. *)
Definition event_target (event : pyval) : res (option (pyval * pyval)) :=
  res_bind (py_get event "type" PNone) (fun ty =>
  if negb (eq_str ty (u "message")) then Ok None else
  res_bind (py_get event "message" (PDict [])) (fun message =>
  res_bind (py_get message "type" PNone) (fun mty =>
  if negb (eq_str mty (u "text")) then Ok None else
  res_bind (py_get event "source" (PDict [])) (fun source =>
  res_bind (py_get source "userId" PNone) (fun user_id =>
  res_bind (py_get message "text" (PStr [])) (fun message_text =>
  if negb (truthy user_id) || negb (truthy message_text) then Ok None
  else Ok (Some (user_id, message_text)))))))).

Definition parsed_of (message_text : pyval) : parsed :=
  match _parse_message message_text with
  | Ok d => d
  | Raise _ => parse_default message_text
  end.

Lemma parse_message_ok message_text :
  _parse_message message_text = Ok (parsed_of message_text).
Proof.
  unfold parsed_of, _parse_message. destruct (parse_body message_text); reflexivity.
Qed.

(** The key and the item of the record written for a message. *)
Definition line_key (user_id : pyval) (w : world) : pystr :=
  u "lmn_" ++ py_str user_id ++ u "_" ++ strftime_compact (clock w (ticks w)).

Definition line_item (user_id message_text : pyval) (d : parsed) (w : world) : item :=
  let current_time := isoformat (clock w (S (ticks w))) in
  drop_none (list_to_map [
    ("lmn"%string, PStr (line_key user_id w));
    ("created_at"%string, PStr current_time);
    ("updated_at"%string, PStr current_time);
    ("deleted_at"%string, PNone);
    ("transaction_type"%string, PStr (p_transaction_type d));
    ("category"%string, PStr (p_category d));
    ("description"%string, p_description d);
    ("amount"%string, opt_num (p_amount d));
    ("line_user_id"%string, user_id);
    ("line_message"%string, message_text) ]).

Lemma line_item_key user_id message_text d w :
  line_item user_id message_text d w !! "lmn"%string = Some (PStr (line_key user_id w)).
Proof.
  unfold line_item, drop_none. apply map_lookup_filter_Some. split; reflexivity.
Qed.

(** One message costs two readings of the clock and one storage call; the
    record is written unless the call is refused. *)
Lemma write_from_line_message_run user_id message_text d w :
  write_from_line_message user_id message_text (Some d) w =
  match fault w (calls w) with
  | None =>
    (Ok (Answer (Success (line_item user_id message_text d w))
                (u "Line transaction written successfully")),
     World (<[line_key user_id w := line_item user_id message_text d w]> (tbl w))
           (clock w) (S (S (ticks w))) (fault w) (S (calls w)))
  | Some e =>
    (Ok (Answer (Failure (str_exn e)) (u "Failed to write line transaction")),
     World (tbl w) (clock w) (S (S (ticks w))) (fault w) (S (calls w)))
  end.
Proof.
  unfold write_from_line_message, write_line_transaction, bind, datetime_now,
    SendLineService._get_current_timestamp, try_except, ret.
  cbn [bind datetime_now ret tbl clock ticks fault calls wd_additional_data
       wd_transaction_type wd_category wd_description wd_amount wd_line_user_id
       wd_line_message].
  fold (line_key user_id w). fold (line_item user_id message_text d w).
  unfold put_item, bind, request. cbn [tbl clock ticks fault calls].
  destruct (fault w (calls w)) as [e|]; [reflexivity|].
  rewrite line_item_key. reflexivity.
Qed.

(** One turn of the loop, by cases on the event. *)
Lemma process_event_run event n w :
  process_event event n w =
  match event_target event with
  | Raise e => (Raise e, w)
  | Ok None => (Ok n, w)
  | Ok (Some (user_id, message_text)) =>
    let (a, w') :=
      write_from_line_message user_id message_text
        (Some (parsed_of message_text)) w in
    (match a with
     | Ok r => Ok (if success r then S n else n)
     | Raise e => Raise e
     end, w')
  end.
Proof.
  unfold process_event, event_target, bind, lift, ret.
  destruct (py_get event "type" PNone) as [ty|e]; cbn [res_bind]; [|reflexivity].
  destruct (negb (eq_str ty (u "message"))); [reflexivity|].
  destruct (py_get event "message" (PDict [])) as [message|e]; cbn [res_bind]; [|reflexivity].
  destruct (py_get message "type" PNone) as [mty|e]; cbn [res_bind]; [|reflexivity].
  destruct (negb (eq_str mty (u "text"))); [reflexivity|].
  destruct (py_get event "source" (PDict [])) as [source|e]; cbn [res_bind]; [|reflexivity].
  destruct (py_get source "userId" PNone) as [user_id|e]; cbn [res_bind]; [|reflexivity].
  destruct (py_get message "text" (PStr [])) as [message_text|e]; cbn [res_bind];
    [|reflexivity].
  destruct (negb (truthy user_id) || negb (truthy message_text)); [reflexivity|].
  rewrite parse_message_ok.
  destruct (write_from_line_message _ _ _ w) as [[r|e] w']; [|reflexivity].
  destruct (success r); reflexivity.
Qed.
End Ingestion.

Section Batch.
Import Table SendLineService LambdaFunction.
Context `{Runtime}.

(** The number of storage calls that are not refused, among the [m] calls
    numbered from [start]. *)
Fixpoint successes (f : nat -> option exn) (start m : nat) : nat :=
  match m with
  | O => 0
  | S m' => (match f start with None => 1 | Some _ => 0 end + successes f (S start) m')%nat
  end.

(** The event leads to a write. *)
Definition is_target (event : pyval) : bool :=
  match event_target event with Ok (Some _) => true | _ => false end.

(** The guards can be evaluated on the event. *)
Definition event_okb (event : pyval) : bool :=
  match event_target event with Raise _ => false | Ok _ => true end.

Definition targets (events : list pyval) : nat :=
  length (List.filter is_target events).

Lemma targets_cons event rest :
  targets (event :: rest) = ((if is_target event then 1 else 0) + targets rest)%nat.
Proof. unfold targets. cbn [List.filter]. destruct (is_target event); reflexivity. Qed.

Lemma process_events_run events n w :
  forallb event_okb events = true ->
  exists w',
    process_events events n w
      = (Ok (n + successes (fault w) (calls w) (targets events))%nat, w') /\
    calls w' = (calls w + targets events)%nat /\
    fault w' = fault w /\ clock w' = clock w.
Proof.
  revert n w. induction events as [|event rest IH]; intros n w Hok.
  - exists w. unfold targets. simpl. unfold ret.
    rewrite !Nat.add_0_r. auto.
  - cbn [forallb] in Hok. apply andb_true_iff in Hok as [Hev Hrest].
    cbn [process_events]. unfold bind at 1. rewrite process_event_run.
    rewrite targets_cons. unfold event_okb in Hev. unfold is_target.
    destruct (event_target event) as [[[user_id message_text]|]|e]; [| |discriminate].
    + rewrite write_from_line_message_run. cbn [successes Nat.add].
      destruct (fault w (calls w)) as [e|] eqn:Hf.
      * match goal with |- context [process_events rest ?n' ?w1] =>
          destruct (IH n' w1 Hrest) as (w' & Hrun & Hc & Hfa & Hcl) end.
        cbn [success outcome] in *. cbn [calls fault clock] in *.
        exists w'. rewrite Hrun.
        split; [f_equal; f_equal; lia|]. split; [lia|]. auto.
      * match goal with |- context [process_events rest ?n' ?w1] =>
          destruct (IH n' w1 Hrest) as (w' & Hrun & Hc & Hfa & Hcl) end.
        cbn [success outcome] in *. cbn [calls fault clock] in *.
        exists w'. rewrite Hrun.
        split; [f_equal; f_equal; lia|]. split; [lia|]. auto.
    + destruct (IH n w Hrest) as (w' & Hrun & Hc & Hfa & Hcl).
      exists w'. rewrite Hrun. auto.
Qed.

Lemma process_events_app events1 events2 n w :
  process_events (events1 ++ events2) n w =
  match process_events events1 n w with
  | (Ok n', w') => process_events events2 n' w'
  | (Raise e, w') => (Raise e, w')
  end.
Proof.
  revert n w. induction events1 as [|event rest IH]; intros n w; [reflexivity|].
  cbn [app process_events]. unfold bind.
  destruct (process_event event n w) as [[n'|e] w1]; [apply IH|reflexivity].
Qed.

(** Every event of a batch is processed on its own.  When the guards can be
    evaluated on every event, the answer is a success, each event that
    passes the guards costs exactly one storage call whether or not the
    calls before it were refused, and [processed_count] is the number of
    those calls that were not refused. *)
Theorem batch_isolation (d : list (string * pyval)) (events : list pyval) (w : world) :
  assoc "events" d = Some (PList events) ->
  forallb event_okb events = true ->
  exists w',
    _process_line_messages (PDict d) w
      = (Ok (Success (successes (fault w) (calls w) (targets events))), w') /\
    calls w' = (calls w + targets events)%nat.
Proof.
  intros Hd Hok.
  destruct (process_events_run events 0 w Hok) as (w' & Hrun & Hc & _).
  exists w'. split; [|exact Hc].
  unfold _process_line_messages, try_except, bind, lift, ret, py_get. rewrite Hd.
  cbn [py_iter]. rewrite Hrun. reflexivity.
Qed.

(** An event on which the guards raise turns the whole batch into a
    failure that carries the text of the exception; the later events are
    not looked at, and what the earlier events wrote stays written. *)
Theorem batch_abort (d : list (string * pyval)) (before after : list pyval)
    (event : pyval) (e : exn) (w : world) :
  assoc "events" d = Some (PList (before ++ event :: after)) ->
  forallb event_okb before = true ->
  event_target event = Raise e ->
  _process_line_messages (PDict d) w
    = (Ok (Failure (str_exn e)), snd (process_events before 0 w)) /\
  calls (snd (process_events before 0 w)) = (calls w + targets before)%nat.
Proof.
  intros Hd Hok He.
  destruct (process_events_run before 0 w Hok) as (w' & Hrun & Hc & _).
  rewrite Hrun. cbn [snd]. split; [|exact Hc].
  unfold _process_line_messages, try_except, bind, lift, ret, py_get. rewrite Hd.
  cbn [py_iter]. rewrite process_events_app, Hrun.
  cbn [process_events]. unfold bind. rewrite process_event_run, He. reflexivity.
Qed.
End Batch.

(** A text message event of the webhook. *)
Definition text_event (user_id text : string) : pyval :=
  PDict [("type"%string, PStr (u "message"));
         ("source"%string, PDict [("userId"%string, PStr (u user_id))]);
         ("message"%string, PDict [("type"%string, PStr (u "text"));
                                   ("text"%string, PStr (u text))])].

Definition three_events : list pyval :=
  [text_event "U1" "昼食 850円"; text_event "U2" "電車 220円"; text_event "U3" "給与 300,000円"].

(** The second storage call is refused. *)
Definition second_fails (n : nat) : option exn :=
  if (n =? 1)%nat then Some (ClientError "ProvisionedThroughputExceededException")
  else None.

Definition flaky_world : world := World ∅ sample_clock 0 second_fails 0.

Lemma batch_isolation_witness :
  forallb event_okb three_events = true /\
  exists w',
    @LambdaFunction._process_line_messages sample_runtime
      (PDict [("events"%string, PList three_events)]) flaky_world
    = (Ok (Success 2%nat), w') /\
    calls w' = 3%nat.
Proof.
  assert (Hok : forallb event_okb three_events = true) by (vm_compute; reflexivity).
  assert (Hd : LambdaFunction.assoc "events" [("events"%string, PList three_events)]
               = Some (PList three_events)) by (vm_compute; reflexivity).
  split; [exact Hok|].
  destruct (@batch_isolation sample_runtime _ _ flaky_world Hd Hok) as (w' & Hrun & Hc).
  exists w'. split.
  - replace 2%nat
      with (successes (fault flaky_world) (calls flaky_world) (targets three_events))
      by (vm_compute; reflexivity).
    exact Hrun.
  - rewrite Hc. vm_compute. reflexivity.
Defined.

(** The third message of that batch is stored although the second was not. *)
Lemma third_message_is_stored :
  let w' := snd (@LambdaFunction._process_line_messages sample_runtime
                   (PDict [("events"%string, PList three_events)]) flaky_world) in
  (tbl w' !! u "lmn_U1_20241201_093000_000000") ≫= (.!! "category"%string)
    = Some (PStr (u "食費")) /\
  tbl w' !! u "lmn_U2_20241201_093002_000000" = None /\
  (tbl w' !! u "lmn_U3_20241201_093004_000000") ≫= (.!! "amount"%string)
    = Some (PNum 300000) /\
  size (tbl w') = 2%nat.
Proof. repeat split; vm_compute; reflexivity. Qed.

Definition broken_events : list pyval :=
  [text_event "U1" "昼食 850円"; PStr (u "oops"); text_event "U3" "給与 300,000円"].

Lemma batch_abort_witness :
  let w' := snd (@LambdaFunction.process_events sample_runtime
                   [text_event "U1" "昼食 850円"] 0%nat empty_world) in
  @LambdaFunction._process_line_messages sample_runtime
      (PDict [("events"%string, PList broken_events)]) empty_world
    = (Ok (Failure (u "object has no attribute 'get'")), w') /\
  calls w' = 1%nat.
Proof.
  assert (Hok : forallb event_okb [text_event "U1" "昼食 850円"] = true)
    by (vm_compute; reflexivity).
  assert (Hd : LambdaFunction.assoc "events" [("events"%string, PList broken_events)]
               = Some (PList ([text_event "U1" "昼食 850円"] ++
                              PStr (u "oops") :: [text_event "U3" "給与 300,000円"])))
    by (vm_compute; reflexivity).
  assert (He : event_target (PStr (u "oops"))
               = Raise (AttributeError "object has no attribute 'get'"))
    by (vm_compute; reflexivity).
  destruct (@batch_abort sample_runtime _ _ _ _ _ empty_world Hd Hok He) as [Hrun Hcalls].
  split.
  - rewrite Hrun. f_equal.
  - rewrite Hcalls. vm_compute. reflexivity.
Defined.

(** * Further properties of the code *)

(** ** The record store, operation by operation *)

Section StoreRuns.
Import Table DynamoDBModel.

Lemma get_item_run k w :
  get_item k w =
  match fault w (calls w) with
  | None => (Ok (tbl w !! k), World (tbl w) (clock w) (ticks w) (fault w) (S (calls w)))
  | Some e => (Raise e, World (tbl w) (clock w) (ticks w) (fault w) (S (calls w)))
  end.
Proof.
  unfold get_item, bind, request. destruct (fault w (calls w)); reflexivity.
Qed.

Lemma read_run k w :
  read k w =
  (Ok (match fault w (calls w) with
       | None => match tbl w !! k with
                 | Some it => Success it
                 | None => Failure (u "Item not found")
                 end
       | Some e => Failure (str_exn e)
       end),
   World (tbl w) (clock w) (ticks w) (fault w) (S (calls w))).
Proof.
  unfold read, try_except, bind. rewrite get_item_run.
  destruct (fault w (calls w)); [reflexivity|].
  destruct (tbl w !! k); reflexivity.
Qed.

Lemma scan_run keep w :
  scan keep w =
  match fault w (calls w) with
  | None =>
    let found := filter (fun it => keep it = true) (map snd (map_to_list (tbl w))) in
    (Ok (ScanResponse found (length found)),
     World (tbl w) (clock w) (ticks w) (fault w) (S (calls w)))
  | Some e => (Raise e, World (tbl w) (clock w) (ticks w) (fault w) (S (calls w)))
  end.
Proof.
  unfold scan, bind, request. destruct (fault w (calls w)); reflexivity.
Qed.

(** The three listing operations differ by their filter only. *)
Definition listing_of (keep : item -> bool) (w : world) : res (result listing) * world :=
  (Ok (match fault w (calls w) with
       | None =>
         let found := filter (fun it => keep it = true) (map snd (map_to_list (tbl w))) in
         Success (Listing found (length found))
       | Some e => Failure (str_exn e)
       end),
   World (tbl w) (clock w) (ticks w) (fault w) (S (calls w))).

Lemma list_all_run include_deleted w :
  list_all include_deleted w =
  listing_of (if include_deleted then (fun _ => true)
              else attribute_not_exists "deleted_at") w.
Proof.
  unfold list_all, listing_of, try_except, bind.
  destruct include_deleted; rewrite scan_run;
    destruct (fault w (calls w)); reflexivity.
Qed.

Lemma query_by_transaction_type_run t w :
  query_by_transaction_type t w =
  listing_of (fun it => attribute_equals "transaction_type" t it
                        && attribute_not_exists "deleted_at" it) w.
Proof.
  unfold query_by_transaction_type, listing_of, try_except, bind.
  rewrite scan_run. destruct (fault w (calls w)); reflexivity.
Qed.

Lemma query_by_category_run c w :
  query_by_category c w =
  listing_of (fun it => attribute_equals "category" c it
                        && attribute_not_exists "deleted_at" it) w.
Proof.
  unfold query_by_category, listing_of, try_except, bind.
  rewrite scan_run. destruct (fault w (calls w)); reflexivity.
Qed.

Lemma delete_item_run k w :
  delete_item k w =
  match fault w (calls w) with
  | None => (Ok tt, World (base.delete k (tbl w)) (clock w) (ticks w) (fault w) (S (calls w)))
  | Some e => (Raise e, World (tbl w) (clock w) (ticks w) (fault w) (S (calls w)))
  end.
Proof.
  unfold delete_item, bind, request. destruct (fault w (calls w)); reflexivity.
Qed.

Lemma hard_delete_run k w :
  delete k false w =
  match fault w (calls w) with
  | None => (Ok (Success {[ "pk"%string := PStr k ]}),
             World (base.delete k (tbl w)) (clock w) (ticks w) (fault w) (S (calls w)))
  | Some e => (Ok (Failure (str_exn e)),
               World (tbl w) (clock w) (ticks w) (fault w) (S (calls w)))
  end.
Proof.
  unfold delete, try_except, bind. rewrite delete_item_run.
  destruct (fault w (calls w)); reflexivity.
Qed.

Lemma update_item_refused key_name k expr values w e :
  fault w (calls w) = Some e ->
  update_item key_name k expr values w =
  (Raise e, World (tbl w) (clock w) (ticks w) (fault w) (S (calls w))).
Proof.
  intros Hf. unfold update_item, bind, request. rewrite Hf. reflexivity.
Qed.

Lemma soft_delete_run k w :
  delete k true w =
  let now := isoformat (clock w (ticks w)) in
  match fault w (calls w) with
  | None =>
    let d := <["deleted_at"%string := PStr now]>
               (default {[ "pk"%string := PStr k ]} (tbl w !! k)) in
    (Ok (Success d),
     World (<[k := d]> (tbl w)) (clock w) (S (ticks w)) (fault w) (S (calls w)))
  | Some e => (Ok (Failure (str_exn e)),
               World (tbl w) (clock w) (S (ticks w)) (fault w) (S (calls w)))
  end.
Proof.
  unfold delete, try_except, bind. rewrite timestamp_run.
  destruct (fault w (calls w)) as [e|] eqn:Hf.
  - rewrite (update_item_refused _ _ _ _ _ e) by exact Hf. reflexivity.
  - rewrite (update_item_ok "pk" k _ _ [("deleted_at"%string, PStr (isoformat (clock w (ticks w))))])
      by (try exact Hf; try reflexivity; apply resolve_deleted_at).
    reflexivity.
Qed.
End StoreRuns.

Section StoreProperties.
Import Table DynamoDBModel.

(** Every operation of the record store whose body runs answers with a
    tagged result: what the service refuses comes back as a [Failure], a
    write that fails leaves the table as it was, and the operations that
    read leave it as it was in any case.  The one way out is the call of
    [update] itself: keyword arguments that Python cannot bind (a keyword
    twice, or one that names [self] or [pk]) raise [TypeError] before the
    [try] has started, with nothing read or written. *)
Theorem store_operations_tagged (w : world) :
  (forall self, exists r w', create self w = (Ok r, w') /\
     (forall error, r = Failure error -> tbl w' = tbl w)) /\
  (forall k, exists r w', read k w = (Ok r, w') /\ tbl w' = tbl w) /\
  (forall k kwargs,
     (bindable ["self"; "pk"]%string kwargs ->
      exists r w', update k kwargs w = (Ok r, w') /\
        (forall error, r = Failure error -> tbl w' = tbl w)) /\
     (~ bindable ["self"; "pk"]%string kwargs ->
      exists e, update k kwargs w = (Raise e, w) /\
        exn_type e = "TypeError"%string)) /\
  (forall k soft_delete, exists r w', delete k soft_delete w = (Ok r, w') /\
     (forall error, r = Failure error -> tbl w' = tbl w)) /\
  (forall include_deleted, exists r w',
     list_all include_deleted w = (Ok r, w') /\ tbl w' = tbl w) /\
  (forall t, exists r w', query_by_transaction_type t w = (Ok r, w') /\ tbl w' = tbl w) /\
  (forall c, exists r w', query_by_category c w = (Ok r, w') /\ tbl w' = tbl w).
Proof.
  repeat split.
  - intros self. destruct (create self w) as [r w'] eqn:Hc.
    apply create_inv in Hc as (it & _ & _ & _ & [[-> Ht]|(e & -> & Ht)]).
    + eexists _, _. split; [reflexivity|]. discriminate.
    + eexists _, _. split; [reflexivity|]. intros _ _. exact Ht.
  - intros k. rewrite read_run. eexists _, _. split; reflexivity.
  - intros Hbind. rewrite update_run.
    rewrite (proj2 (keyword_error_none _ _ _ _) Hbind).
    destruct (update_body "pk" k kwargs w) as [[d|e] w'] eqn:Hb.
    + eexists _, _. split; [reflexivity|]. discriminate.
    + eexists _, _. split; [reflexivity|]. intros _ _.
      exact (update_body_raise _ _ _ _ _ _ Hb).
  - intros Hbind. rewrite update_run.
    destruct (keyword_error _ _ _ _) as [e|] eqn:He.
    + exists e. split; [reflexivity|]. exact (proj1 (keyword_error_some _ _ _ _ _ He)).
    + apply keyword_error_none in He. contradiction.
  - intros k [|].
    + rewrite soft_delete_run. cbv zeta. destruct (fault w (calls w));
        eexists _, _; (split; [reflexivity|]); [reflexivity|discriminate].
    + rewrite hard_delete_run. destruct (fault w (calls w));
        eexists _, _; (split; [reflexivity|]); [reflexivity|discriminate].
  - intros b. rewrite list_all_run. eexists _, _. split; reflexivity.
  - intros t. rewrite query_by_transaction_type_run. eexists _, _. split; reflexivity.
  - intros c. rewrite query_by_category_run. eexists _, _. split; reflexivity.
Qed.

(** What a successful [create] stored. *)
Lemma create_stored self w it w1 :
  create self w = (Ok (Success it), w1) ->
  tbl w1 = <[pk self := it]> (tbl w) /\
  it !! "pk"%string = Some (PStr (pk self)) /\
  it !! "created_at"%string = Some (PStr (isoformat (clock w (ticks w)))) /\
  it !! "updated_at"%string = Some (PStr (isoformat (clock w (ticks w)))) /\
  it !! "deleted_at"%string = None.
Proof.
  unfold create, bind, try_except, ret. rewrite timestamp_run. cbv zeta.
  match goal with |- context [put_item _ ?x] => set (it0 := x) end.
  assert (Hdel : it0 !! "deleted_at"%string = None).
  { unfold it0, drop_none. apply map_lookup_filter_None. right.
    intros v Hv Hn. vm_compute in Hv. injection Hv as <-. discriminate. }
  assert (Hpk : it0 !! "pk"%string = Some (PStr (pk self))).
  { unfold it0, drop_none. apply map_lookup_filter_Some. split; reflexivity. }
  assert (Hcr : it0 !! "created_at"%string = Some (PStr (isoformat (clock w (ticks w))))).
  { unfold it0, drop_none. apply map_lookup_filter_Some. split; reflexivity. }
  assert (Hup : it0 !! "updated_at"%string = Some (PStr (isoformat (clock w (ticks w))))).
  { unfold it0, drop_none. apply map_lookup_filter_Some. split; reflexivity. }
  clearbody it0. intros H.
  destruct (put_item "pk" it0 _) as [[[]|e] w'] eqn:Hput;
    apply put_item_inv in Hput as [(k & Hr & Hk & Ht)|(e' & Hr & Ht)];
    simplify_eq/=.
  auto.
Qed.

(** What [create] stores can be read back: after a successful [create], a
    [read] of the key that is not refused returns the item that [create]
    returned.  The item has the key, the same timestamp as [created_at]
    and [updated_at], and no [deleted_at]. *)
Theorem read_after_create (self : fields) (w w1 : world) (it : item) :
  create self w = (Ok (Success it), w1) ->
  fault w1 (calls w1) = None ->
  fst (read (pk self) w1) = Ok (Success it) /\
  it !! "pk"%string = Some (PStr (pk self)) /\
  it !! "created_at"%string = Some (PStr (isoformat (clock w (ticks w)))) /\
  it !! "updated_at"%string = it !! "created_at"%string /\
  it !! "deleted_at"%string = None.
Proof.
  intros Hc Hf.
  apply create_stored in Hc as (Ht & Hpk & Hcr & Hup & Hdel).
  split; [|split; [exact Hpk|split; [exact Hcr|split; [congruence|exact Hdel]]]].
  rewrite read_run. cbn [fst]. rewrite Hf, Ht, lookup_insert_eq. reflexivity.
Qed.

(** [read] looks at the key only.  A key that is not in the table gives the
    failure "Item not found"; a record that was soft-deleted is still
    returned, with its [deleted_at]. *)
Theorem read_missing_and_deleted (w : world) (k : pystr) :
  fault w (calls w) = None ->
  (tbl w !! k = None -> fst (read k w) = Ok (Failure (u "Item not found"))) /\
  (forall it, tbl w !! k = Some it -> fst (read k w) = Ok (Success it)) /\
  (forall d w1, delete k true w = (Ok (Success d), w1) ->
     fault w1 (calls w1) = None ->
     fst (read k w1) = Ok (Success d) /\
     d !! "deleted_at"%string = Some (PStr (isoformat (clock w (ticks w))))).
Proof.
  intros Hf. split; [|split].
  - intros Hk. rewrite read_run, Hf, Hk. reflexivity.
  - intros it Hk. rewrite read_run, Hf, Hk. reflexivity.
  - intros d w1 Hd Hf1. rewrite soft_delete_run, Hf in Hd. cbv zeta in Hd.
    injection Hd as <- <-. rewrite read_run. cbn [fst tbl].
    cbn [fault calls] in Hf1. cbn [fault calls]. rewrite Hf1, lookup_insert_eq.
    split; [reflexivity|apply lookup_insert_eq].
Qed.

(** A hard delete removes the record and nothing else: afterwards the key
    is not in the table, every other key holds what it held, and the
    answer is the key alone.  It succeeds whether or not the key was
    there. *)
Theorem hard_delete_removes (w : world) (k : pystr) :
  fault w (calls w) = None ->
  exists w1,
    delete k false w = (Ok (Success {[ "pk"%string := PStr k ]}), w1) /\
    tbl w1 !! k = None /\
    (forall k', k' <> k -> tbl w1 !! k' = tbl w !! k') /\
    (fault w1 (calls w1) = None ->
     fst (read k w1) = Ok (Failure (u "Item not found"))).
Proof.
  intros Hf. rewrite hard_delete_run, Hf. eexists. split; [reflexivity|].
  cbn [tbl]. split; [apply lookup_delete_eq|]. split.
  - intros k' Hne. apply lookup_delete_ne. congruence.
  - intros Hf1. rewrite read_run. cbn [fst tbl fault calls] in *.
    rewrite Hf1, lookup_delete_eq. reflexivity.
Qed.
End StoreProperties.

Section StoreWrites.
Import Table DynamoDBModel.

(** A call of [update], and likewise of [update_line_transaction], that
    Python binds.  It goes through whenever the service does not refuse it
    and no keyword sets [updated_at], which the expression assigns already.
    When it answers with a success, the keywords named neither [self] nor
    the key, the item is filed under the key of the call and keeps its key
    attribute, [updated_at] is the current timestamp, every supplied field
    that is not [None] is in the item, every other attribute is as it was,
    and the answer is the item as it is stored. *)
Theorem update_merges_fields (key_name : string) (w : world) (k : pystr)
    (kwargs : list (string * pyval)) :
  key_name = "pk"%string \/ key_name = "lmn"%string ->
  let now := isoformat (clock w (ticks w)) in
  let old := default {[ key_name := PStr k ]} (tbl w !! k) in
  let answers (d : item) (w1 : world) : Prop :=
    (key_name = "pk"%string /\
     update k kwargs w = (Ok (Success d), w1)) \/
    (key_name = "lmn"%string /\
     exists msg, SendLineService.update_line_transaction k kwargs w
                 = (Ok (SendLineService.Answer (Success d) msg), w1)) in
  (fault w (calls w) = None ->
   bindable ["self"; key_name]%string kwargs ->
   (forall v, ("updated_at"%string, v) ∈ kwargs -> v = PNone) ->
   exists d w1, answers d w1) /\
  (forall d w1, answers d w1 ->
     bindable ["self"; key_name]%string kwargs /\
     tbl w1 = <[k := d]> (tbl w) /\
     d !! key_name = old !! key_name /\
     (keyedb key_name (tbl w) = true -> d !! key_name = Some (PStr k)) /\
     d !! "updated_at"%string = Some (PStr now) /\
     (forall key v, (key, v) ∈ kwargs -> v <> PNone -> d !! key = Some v) /\
     (forall a, a <> "updated_at"%string ->
        (forall v, (a, v) ∈ kwargs -> v = PNone) -> d !! a = old !! a)).
Proof.
  intros Hname now old answers. split.
  - intros Hf Hbind Hup.
    assert (Hkn : key_name <> "updated_at"%string)
      by (destruct Hname as [-> | ->]; discriminate).
    destruct (update_body_ok key_name k kwargs w Hf (proj1 Hbind) Hkn Hup)
      as (d & w1 & Hbody).
    exists d, w1. unfold answers. destruct Hname as [-> | ->]; [left|right].
    + split; [reflexivity|]. rewrite update_run.
      rewrite (proj2 (keyword_error_none _ _ _ _) Hbind), Hbody. reflexivity.
    + split; [reflexivity|]. eexists. rewrite update_line_transaction_run.
      rewrite (proj2 (keyword_error_none _ _ _ _) Hbind), Hbody. reflexivity.
  - intros d w1 Hrun. apply update_success in Hrun as [Hbind Hbody].
    apply update_body_inv in Hbody as (Hnd & Hkey & Hd & Hw1).
    fold now old in Hd, Hnd, Hkey.
    set (sets := ("updated_at"%string, PStr now) :: written key_name kwargs) in *.
    assert (Hk : d !! key_name = old !! key_name).
    { rewrite Hd. apply apply_sets_notin. exact Hkey. }
    split; [exact Hbind|]. split; [rewrite Hw1; reflexivity|]. split; [exact Hk|].
    split; [|split; [|split]].
    + intros Hkeyed. rewrite Hk. unfold old.
      destruct (tbl w !! k) as [it|] eqn:Hit; simpl.
      * exact (keyedb_lookup _ _ _ _ Hkeyed Hit).
      * apply lookup_singleton_eq.
    + rewrite Hd. apply apply_sets_in; [exact Hnd|]. left.
    + intros key v Hin Hv. rewrite Hd. apply apply_sets_in; [exact Hnd|].
      right. apply written_in. split; [exact Hin|]. split; [|exact Hv].
      intros ->. apply (proj2 Hbind key_name).
      * apply list_elem_of_fmap. exists (key_name, v). auto.
      * right. left.
    + intros a Ha Hkw. rewrite Hd. apply apply_sets_notin.
      intros Hin. apply elem_of_cons in Hin as [->|Hin]; [exact (Ha eq_refl)|].
      apply list_elem_of_fmap in Hin as [[a' v] [-> Hin]]. simpl in Hkw.
      apply written_in in Hin as (Hin & Hne & Hv).
      exact (Hv (Hkw v Hin)).
Qed.

(** Neither [update] nor a soft delete checks that the record exists.  On
    a key that is not in the table, an update that succeeds creates a
    record that holds the key, [updated_at] and the supplied fields and
    nothing else (so no [created_at] unless it was supplied), and a soft
    delete that succeeds creates a record that holds the key and
    [deleted_at] only. *)
Theorem writes_create_missing (w w1 : world) (k : pystr) (d : item) :
  tbl w !! k = None ->
  let now := isoformat (clock w (ticks w)) in
  (forall kwargs, update k kwargs w = (Ok (Success d), w1) ->
     tbl w1 !! k = Some d /\
     d !! "pk"%string = Some (PStr k) /\
     d !! "updated_at"%string = Some (PStr now) /\
     (forall a, a <> "pk"%string -> a <> "updated_at"%string ->
        (forall v, (a, v) ∈ kwargs -> v = PNone) -> d !! a = None)) /\
  (delete k true w = (Ok (Success d), w1) ->
     tbl w1 !! k = Some d /\
     d = <["deleted_at"%string := PStr now]> {[ "pk"%string := PStr k ]}).
Proof.
  intros Hk now. split.
  - intros kwargs Hu. rewrite update_run in Hu.
    destruct (keyword_error _ _ _ _) as [e|]; [discriminate|].
    destruct (update_body "pk" k kwargs w) as [[d'|e] w'] eqn:Hb; simplify_eq/=.
    apply update_body_inv in Hb as (Hnd & Hkey & Hd & Hw1).
    rewrite Hk in Hd. cbn [default] in Hd. fold now in Hd, Hnd, Hkey.
    split; [rewrite Hw1; apply lookup_insert_eq|]. split; [|split].
    + rewrite Hd, apply_sets_notin by exact Hkey. apply lookup_singleton_eq.
    + rewrite Hd. apply apply_sets_in; [exact Hnd|]. left.
    + intros a Hpk Hup Hnone. rewrite Hd, apply_sets_notin.
      * apply lookup_singleton_ne. congruence.
      * intros Hin. apply elem_of_cons in Hin as [Hin|Hin]; [exact (Hup Hin)|].
        apply list_elem_of_fmap in Hin as [[a' v] [-> Hin]]. cbn [fst] in *.
        apply written_in in Hin as (Hin & _ & Hv). exact (Hv (Hnone v Hin)).
  - intros Hd. rewrite soft_delete_run in Hd. cbv zeta in Hd.
    destruct (fault w (calls w)); simplify_eq/=.
    rewrite Hk. cbn [default]. split; [apply lookup_insert_eq|reflexivity].
Qed.
End StoreWrites.

Lemma read_after_create_witness :
  DynamoDBModel.create lunch empty_world = (Ok (Success lunch_item), lunch_world) /\
  fault lunch_world (calls lunch_world) = None /\
  fst (DynamoDBModel.read (DynamoDBModel.pk lunch) lunch_world) = Ok (Success lunch_item).
Proof.
  assert (H1 : DynamoDBModel.create lunch empty_world
               = (Ok (Success lunch_item), lunch_world)) by (vm_compute; reflexivity).
  assert (H2 : fault lunch_world (calls lunch_world) = None) by (vm_compute; reflexivity).
  split; [exact H1|]. split; [exact H2|].
  exact (proj1 (read_after_create _ _ _ _ H1 H2)).
Defined.

Lemma read_missing_and_deleted_witness :
  fault lunch_world (calls lunch_world) = None /\
  tbl lunch_world !! u "nobody" = None /\
  fst (DynamoDBModel.read (u "nobody") lunch_world) = Ok (Failure (u "Item not found")).
Proof.
  assert (H1 : fault lunch_world (calls lunch_world) = None) by (vm_compute; reflexivity).
  assert (H2 : tbl lunch_world !! u "nobody" = None) by (vm_compute; reflexivity).
  split; [exact H1|]. split; [exact H2|].
  exact (proj1 (read_missing_and_deleted lunch_world (u "nobody") H1) H2).
Defined.

Lemma hard_delete_removes_witness :
  fault lunch_world (calls lunch_world) = None /\
  exists w1,
    DynamoDBModel.delete (DynamoDBModel.pk lunch) false lunch_world
      = (Ok (Success {[ "pk"%string := PStr (DynamoDBModel.pk lunch) ]}), w1) /\
    tbl w1 !! DynamoDBModel.pk lunch = None.
Proof.
  assert (H1 : fault lunch_world (calls lunch_world) = None) by (vm_compute; reflexivity).
  split; [exact H1|].
  destruct (hard_delete_removes lunch_world (DynamoDBModel.pk lunch) H1)
    as (w1 & Hrun & Hgone & _).
  exists w1. split; assumption.
Defined.

(** The update of [example_usage.py] on the example record. *)
Definition lunch_updated : item :=
  match fst (DynamoDBModel.update (DynamoDBModel.pk lunch) lunch_kwargs lunch_world) with
  | Ok (Success d) => d
  | _ => ∅
  end.

Lemma update_merges_fields_witness :
  fault lunch_world (calls lunch_world) = None /\
  bindable ["self"; "pk"]%string lunch_kwargs /\
  keyedb "pk" (tbl lunch_world) = true /\
  DynamoDBModel.update (DynamoDBModel.pk lunch) lunch_kwargs lunch_world
    = (Ok (Success lunch_updated),
       snd (DynamoDBModel.update (DynamoDBModel.pk lunch) lunch_kwargs lunch_world)) /\
  (exists d w1,
     DynamoDBModel.update (DynamoDBModel.pk lunch) lunch_kwargs lunch_world
       = (Ok (Success d), w1)) /\
  lunch_updated !! "pk"%string = Some (PStr (u "user123_20241201_001")) /\
  lunch_updated !! "updated_at"%string = Some (PStr (u "2024-12-01T09:30:01")) /\
  lunch_updated !! "amount"%string = Some (PNum 900).
Proof.
  assert (Hf : fault lunch_world (calls lunch_world) = None) by (vm_compute; reflexivity).
  assert (Hbind : bindable ["self"; "pk"]%string lunch_kwargs).
  { apply (keyword_error_none "" ""). vm_compute. reflexivity. }
  assert (Hk : keyedb "pk" (tbl lunch_world) = true) by (vm_compute; reflexivity).
  assert (H : DynamoDBModel.update (DynamoDBModel.pk lunch) lunch_kwargs lunch_world
    = (Ok (Success lunch_updated),
       snd (DynamoDBModel.update (DynamoDBModel.pk lunch) lunch_kwargs lunch_world)))
    by (vm_compute; reflexivity).
  assert (Hup : forall v, ("updated_at"%string, v) ∈ lunch_kwargs -> v = PNone).
  { intros v Hin. unfold lunch_kwargs in Hin.
    repeat (apply elem_of_cons in Hin as [Hin|Hin]; [discriminate|]). inversion Hin. }
  destruct (update_merges_fields "pk" lunch_world (DynamoDBModel.pk lunch) lunch_kwargs
              (or_introl eq_refl)) as [Hgoes Hdone].
  destruct (Hdone _ _ (or_introl (conj eq_refl H)))
    as (_ & _ & _ & Hkey & Hat & Hset & _).
  split; [exact Hf|]. split; [exact Hbind|]. split; [exact Hk|]. split; [exact H|].
  split; [|split; [exact (Hkey Hk)|split; [exact Hat|]]].
  - destruct (Hgoes Hf Hbind Hup) as (d & w1 & [[_ Hrun]|[Hno _]]); [|discriminate Hno].
    exists d, w1. exact Hrun.
  - apply (Hset "amount"%string (PNum 900)); [|discriminate].
    apply elem_of_cons. right. apply elem_of_cons. left. reflexivity.
Defined.

Lemma store_operations_tagged_witness :
  bindable ["self"; "pk"]%string lunch_kwargs /\
  ~ bindable ["self"; "pk"]%string keyed_kwargs /\
  (exists r w', DynamoDBModel.update (DynamoDBModel.pk lunch) lunch_kwargs lunch_world
                = (Ok r, w')) /\
  (exists e, DynamoDBModel.update (DynamoDBModel.pk lunch) keyed_kwargs lunch_world
             = (Raise e, lunch_world) /\ exn_type e = "TypeError"%string).
Proof.
  assert (Hbind : bindable ["self"; "pk"]%string lunch_kwargs).
  { apply (keyword_error_none "" ""). vm_compute. reflexivity. }
  assert (Hnot : ~ bindable ["self"; "pk"]%string keyed_kwargs).
  { intros Hb. apply (proj2 (keyword_error_none "" "" _ _)) in Hb.
    vm_compute in Hb. discriminate Hb. }
  destruct (proj1 (proj2 (proj2 (store_operations_tagged lunch_world)))
              (DynamoDBModel.pk lunch) lunch_kwargs) as [Hok _].
  destruct (proj1 (proj2 (proj2 (store_operations_tagged lunch_world)))
              (DynamoDBModel.pk lunch) keyed_kwargs) as [_ Hraise].
  split; [exact Hbind|]. split; [exact Hnot|]. split.
  - destruct (Hok Hbind) as (r & w' & Hrun & _). exists r, w'. exact Hrun.
  - exact (Hraise Hnot).
Defined.

(** An update of a record that was never created. *)
Definition orphan_update : res (result item) * world :=
  DynamoDBModel.update (u "ghost") [("amount"%string, PNum 10)] empty_world.

Definition orphan : item :=
  match fst orphan_update with Ok (Success d) => d | _ => ∅ end.

Lemma writes_create_missing_witness :
  tbl empty_world !! u "ghost" = None /\
  DynamoDBModel.update (u "ghost") [("amount"%string, PNum 10)] empty_world
    = (Ok (Success orphan), snd orphan_update) /\
  orphan !! "pk"%string = Some (PStr (u "ghost")) /\
  orphan !! "created_at"%string = None.
Proof.
  assert (H1 : tbl empty_world !! u "ghost" = None) by (vm_compute; reflexivity).
  assert (H2 : DynamoDBModel.update (u "ghost") [("amount"%string, PNum 10)] empty_world
               = (Ok (Success orphan), snd orphan_update))
    by (vm_compute; reflexivity).
  split; [exact H1|]. split; [exact H2|].
  destruct (proj1 (writes_create_missing empty_world (snd orphan_update) (u "ghost")
                     orphan H1) _ H2) as (_ & Hpk & _ & Hrest).
  split; [exact Hpk|].
  apply Hrest; [discriminate|discriminate|].
  intros v Hin. apply elem_of_cons in Hin as [Hin|Hin]; [discriminate|inversion Hin].
Defined.

Section Listings.
Import Table DynamoDBModel.

Lemma filter_keep_all (l : list item) :
  filter (fun it : item => (fun _ : item => true) it = true) l = l.
Proof.
  induction l as [|it l IH]; [reflexivity|].
  rewrite filter_cons_True by reflexivity. congruence.
Qed.

Lemma filter_keep_both (f g : item -> bool) (l : list item) :
  filter (fun it => f it && g it = true) l =
  filter (fun it => f it = true) (filter (fun it => g it = true) l).
Proof.
  induction l as [|it l IH]; [reflexivity|].
  destruct (g it) eqn:Hg.
  - rewrite (filter_cons_True (fun it => g it = true)) by exact Hg.
    destruct (f it) eqn:Hf.
    + rewrite !filter_cons_True by (rewrite ?Hf, ?Hg; reflexivity). congruence.
    + rewrite !filter_cons_False by (rewrite ?Hf, ?Hg; discriminate). exact IH.
  - rewrite (filter_cons_False (fun it => g it = true)) by (rewrite Hg; discriminate).
    rewrite filter_cons_False by (rewrite Hg, andb_false_r; discriminate). exact IH.
Qed.

(** The listings of one table fit together.  When the storage call is not
    refused, the default listing is the full listing without the items
    that have a [deleted_at]; the query by transaction type, and the one by
    category, is the default listing narrowed to the items whose field is
    that string; and every [count] is the length of its [data]. *)
Theorem listings_compose (w : world) :
  fault w (calls w) = None ->
  exists all active,
    fst (list_all true w) = Ok (Success all) /\
    fst (list_all false w) = Ok (Success active) /\
    data active
      = filter (fun it => attribute_not_exists "deleted_at" it = true) (data all) /\
    count all = length (data all) /\
    count active = length (data active) /\
    (count active <= count all)%nat /\
    (forall t, exists l,
       fst (query_by_transaction_type t w) = Ok (Success l) /\
       count l = length (data l) /\
       data l = filter (fun it => attribute_equals "transaction_type" t it = true)
                       (data active)) /\
    (forall c, exists l,
       fst (query_by_category c w) = Ok (Success l) /\
       count l = length (data l) /\
       data l = filter (fun it => attribute_equals "category" c it = true)
                       (data active)).
Proof.
  intros Hf.
  rewrite !list_all_run. unfold listing_of. rewrite Hf. cbv zeta. cbn [fst].
  eexists _, _. split; [reflexivity|]. split; [reflexivity|]. cbn [data count].
  rewrite filter_keep_all.
  split; [reflexivity|]. split; [reflexivity|]. split; [reflexivity|].
  split; [apply length_filter|]. split.
  - intros t. rewrite query_by_transaction_type_run. unfold listing_of.
    rewrite Hf. cbv zeta. cbn [fst]. eexists. split; [reflexivity|].
    cbn [data count]. split; [reflexivity|]. apply filter_keep_both.
  - intros c. rewrite query_by_category_run. unfold listing_of.
    rewrite Hf. cbv zeta. cbn [fst]. eexists. split; [reflexivity|].
    cbn [data count]. split; [reflexivity|]. apply filter_keep_both.
Qed.
End Listings.

Lemma listings_compose_witness :
  fault three_records_world (calls three_records_world) = None /\
  exists all active,
    fst (DynamoDBModel.list_all true three_records_world) = Ok (Success all) /\
    fst (DynamoDBModel.list_all false three_records_world) = Ok (Success active) /\
    (count active <= count all)%nat.
Proof.
  assert (H1 : fault three_records_world (calls three_records_world) = None)
    by (vm_compute; reflexivity).
  split; [exact H1|].
  destruct (listings_compose three_records_world H1)
    as (all & active & Hall & Hact & _ & _ & _ & Hle & _).
  exists all, active. auto.
Defined.

(** ** More on the financial model *)

Section MoneyProperties.
Import Table DynamoDBModel Money.
Context `{Runtime}.

(** [get_monthly_summary] raises exactly when one of its two dates cannot
    be built: a year outside 1..9999, a month outside 1..12, or December
    of the year 9999.  For every other argument it returns a tagged result,
    and it never changes the table. *)
Theorem monthly_summary_raises_iff (w : world) (y m : Z) :
  ((exists e, get_monthly_summary y m w = (Raise e, w)) <->
   ~ ((1 <= y <= 9999)%Z /\ (1 <= m <= 12)%Z /\ ~ (y = 9999 /\ m = 12)%Z)) /\
  ((exists r w', get_monthly_summary y m w = (Ok r, w') /\ tbl w' = tbl w) <->
   ((1 <= y <= 9999)%Z /\ (1 <= m <= 12)%Z /\ ~ (y = 9999 /\ m = 12)%Z)).
Proof.
  assert (Hv : valid_month y m = true <->
               ((1 <= y <= 9999)%Z /\ (1 <= m <= 12)%Z /\ ~ (y = 9999 /\ m = 12)%Z)).
  { unfold valid_month.
    rewrite !andb_true_iff, negb_true_iff, andb_false_iff,
            !Z.leb_le, !Z.eqb_neq. lia. }
  assert (Hok : valid_month y m = true ->
                exists r w', get_monthly_summary y m w = (Ok r, w') /\ tbl w' = tbl w).
  { intros Hvalid. rewrite (get_monthly_summary_valid _ _ _ Hvalid).
    unfold try_except, summary_body, bind, lift, ret. rewrite scan_run.
    destruct (fault w (calls w)); cbv zeta.
    - eexists _, _. split; reflexivity.
    - cbn [Items].
      match goal with |- context [tally_records ?a ?b] => destruct (tally_records a b) end;
        eexists _, _; split; reflexivity. }
  split; split.
  - intros [e He] Hvalid. apply Hv in Hvalid.
    destruct (Hok Hvalid) as (r & w' & Hr & _). congruence.
  - intros Hn. apply get_monthly_summary_invalid.
    destruct (valid_month y m); [|reflexivity]. exfalso. apply Hn, Hv. reflexivity.
  - intros (r & w' & Hr & _). apply Hv.
    destruct (valid_month y m) eqn:Hvalid; [reflexivity|].
    destruct (get_monthly_summary_invalid y m w Hvalid) as [e He]. congruence.
  - intros Hvalid. apply Hok, Hv. exact Hvalid.
Qed.

(** In the monthly summary a record of a recognised type is counted in its
    bucket whether or not it has an amount: an amount that is missing,
    [None] or zero adds nothing to the total. *)
Theorem summary_counts_without_amount (t : tally) (record : item) :
  record !! "amount"%string = None \/
  record !! "amount"%string = Some PNone \/
  record !! "amount"%string = Some (PNum 0) ->
  (record !! "transaction_type"%string = Some (PStr income_tag) ->
   exists total,
     tally_record t record
       = Ok (Tally total (t_expense_total t) (S (t_income_count t)) (t_expense_count t)) /\
     (total == t_income_total t)%Q) /\
  (record !! "transaction_type"%string = Some (PStr expense_tag) ->
   exists total,
     tally_record t record
       = Ok (Tally (t_income_total t) total (t_income_count t) (S (t_expense_count t))) /\
     (total == t_expense_total t)%Q).
Proof.
  intros Hamount.
  assert (Hzero : amount_or_zero record = PNum 0).
  { unfold amount_or_zero.
    destruct Hamount as [->|[->| ->]]; reflexivity. }
  split; intros Hty; unfold tally_record; rewrite Hzero, Hty; cbn [from_option id].
  - cbn [eq_str]. rewrite pystr_eqb_refl. cbn [add_amount res_bind].
    eexists. split; [reflexivity|]. apply Qplus_0_r.
  - cbn [eq_str].
    replace (pystr_eqb expense_tag income_tag) with false by (vm_compute; reflexivity).
    rewrite pystr_eqb_refl. cbn [add_amount res_bind].
    eexists. split; [reflexivity|]. apply Qplus_0_r.
Qed.

(** An amount that cannot be added. *)
Definition not_addable (v : pyval) : bool :=
  match v with
  | PStr (_ :: _) | PList (_ :: _) | PDict (_ :: _) => true
  | _ => false
  end.

Lemma tally_record_type_error t record :
  recognised record = true ->
  not_addable (default (PNum 0) (record !! "amount"%string)) = true ->
  tally_record t record = Raise (TypeError "unsupported operand type(s) for +=").
Proof.
  unfold recognised, tally_record, amount_or_zero.
  destruct (default (PNum 0) (record !! "amount"%string)) as [| | |[|c s]|[|x l]|[|x d]];
    try discriminate; cbn [truthy];
    intros Hr _; destruct (eq_str _ income_tag); try reflexivity;
    cbn [orb] in Hr; rewrite Hr; reflexivity.
Qed.

Lemma tally_record_raise_inv t record e :
  tally_record t record = Raise e ->
  e = TypeError "unsupported operand type(s) for +=".
Proof.
  unfold tally_record.
  destruct (eq_str _ income_tag).
  - destruct (amount_or_zero record); cbn; congruence.
  - destruct (eq_str _ expense_tag); [|discriminate].
    destruct (amount_or_zero record); cbn; congruence.
Qed.

Lemma tally_records_type_error t records :
  Exists (fun record =>
            recognised record = true /\
            not_addable (default (PNum 0) (record !! "amount"%string)) = true) records ->
  tally_records t records = Raise (TypeError "unsupported operand type(s) for +=").
Proof.
  intros Hex. revert t. induction Hex as [record rest [Hr Hbad]|record rest _ IH]; intros t.
  - cbn [tally_records]. rewrite (tally_record_type_error _ _ Hr Hbad). reflexivity.
  - cbn [tally_records]. destruct (tally_record t record) as [t'|e] eqn:Ht; cbn [res_bind].
    + apply IH.
    + f_equal. exact (tally_record_raise_inv _ _ _ Ht).
Qed.

(** A recognised record of the month whose amount cannot be added (a text,
    a list, a dictionary) does not make [get_monthly_summary] raise: the
    [TypeError] of the addition is caught and returned as a failure. *)
Theorem summary_catches_bad_amount (w : world) (y m : Z) (k : pystr) (it : item) :
  valid_month y m = true ->
  fault w (calls w) = None ->
  tbl w !! k = Some it ->
  monthly_filter (month_start y m) (month_end y m) it = true ->
  recognised it = true ->
  not_addable (default (PNum 0) (it !! "amount"%string)) = true ->
  fst (get_monthly_summary y m w)
  = Ok (Failure (u "unsupported operand type(s) for +=")).
Proof.
  intros Hvalid Hf Hk Hkeep Hr Hbad.
  rewrite (get_monthly_summary_valid _ _ _ Hvalid).
  unfold try_except, summary_body, bind, lift, ret. rewrite scan_run, Hf. cbv zeta.
  cbn [Items]. rewrite tally_records_type_error; [reflexivity|].
  apply Exists_exists. exists it. split; [|auto].
  apply list_elem_of_filter. split; [exact Hkeep|].
  apply list_elem_of_fmap. exists (k, it). split; [reflexivity|].
  apply elem_of_map_to_list. exact Hk.
Qed.

(** An amount that [float] rejects whatever the runtime. *)
Definition not_a_number (v : pyval) : bool :=
  match v with PList _ | PDict _ => true | _ => false end.

Lemma sum_amounts_raises total items :
  Exists (fun it : item => exists v, it !! "amount"%string = Some v /\ not_a_number v = true)
         items ->
  exists e, sum_amounts total items = Raise e.
Proof.
  intros Hex. revert total.
  induction Hex as [it rest (v & Hv & Hbad)|it rest _ IH]; intros total.
  - cbn [sum_amounts]. rewrite Hv. destruct v; try discriminate; cbn; eauto.
  - cbn [sum_amounts]. destruct (it !! "amount"%string) as [v|]; [|apply IH].
    destruct (is_none v); [apply IH|].
    destruct (float_of_value v) as [x|e]; cbn [res_bind]; [apply IH|eauto].
Qed.

(** [get_total_amount] has no handler of its own: when an active record
    carries an amount that [float] rejects (a list or a dictionary, which
    the schemaless [update] can store), the exception leaves the
    function. *)
Theorem total_amount_raises (w : world) (k : pystr) (it : item) (v : pyval) :
  fault w (calls w) = None ->
  tbl w !! k = Some it ->
  it !! "deleted_at"%string = None ->
  it !! "amount"%string = Some v ->
  not_a_number v = true ->
  exists e w', get_total_amount None w = (Raise e, w').
Proof.
  intros Hf Hk Hdel Hv Hbad.
  unfold get_total_amount, bind at 1. rewrite list_all_run. unfold listing_of.
  rewrite Hf. cbv zeta. cbn [data]. unfold bind, lift.
  match goal with |- context [sum_amounts ?a ?b] =>
    destruct (sum_amounts_raises a b) as [e He] end.
  - apply Exists_exists. exists it. split; [|eauto].
    apply list_elem_of_filter. split.
    + unfold attribute_not_exists. rewrite Hdel. reflexivity.
    + apply list_elem_of_fmap. exists (k, it). split; [reflexivity|].
      apply elem_of_map_to_list. exact Hk.
  - rewrite He. eauto.
Qed.
End MoneyProperties.

Definition no_amount_item : item :=
  default ∅ (tbl three_records_world !! u "r2").

Lemma summary_counts_without_amount_witness :
  no_amount_item !! "amount"%string = None /\
  no_amount_item !! "transaction_type"%string = Some (PStr Money.income_tag) /\
  exists total,
    Money.tally_record (Money.Tally 0 0 0 0) no_amount_item
      = Ok (Money.Tally total 0 1 0) /\ (total == 0)%Q.
Proof.
  assert (H1 : no_amount_item !! "amount"%string = None) by (vm_compute; reflexivity).
  assert (H2 : no_amount_item !! "transaction_type"%string = Some (PStr Money.income_tag))
    by (vm_compute; reflexivity).
  split; [exact H1|]. split; [exact H2|].
  exact (proj1 (summary_counts_without_amount (Money.Tally 0 0 0 0) no_amount_item
                  (or_introl H1)) H2).
Defined.

(** The table of the three records after [update("r1", amount=[1])]. *)
Definition list_amount_world : world :=
  snd (DynamoDBModel.update (u "r1") [("amount"%string, PList [PNum 1])]
         three_records_world).

Definition list_amount_item : item :=
  default ∅ (tbl list_amount_world !! u "r1").

Lemma summary_catches_bad_amount_witness :
  valid_month 2024 12 = true /\
  fault list_amount_world (calls list_amount_world) = None /\
  tbl list_amount_world !! u "r1" = Some list_amount_item /\
  fst (Money.get_monthly_summary 2024 12 list_amount_world)
  = Ok (Failure (u "unsupported operand type(s) for +=")).
Proof.
  assert (H1 : valid_month 2024 12 = true) by (vm_compute; reflexivity).
  assert (H2 : fault list_amount_world (calls list_amount_world) = None)
    by (vm_compute; reflexivity).
  assert (H3 : tbl list_amount_world !! u "r1" = Some list_amount_item)
    by (vm_compute; reflexivity).
  assert (H4 : Money.monthly_filter (month_start 2024 12) (month_end 2024 12)
                 list_amount_item = true) by (vm_compute; reflexivity).
  assert (H5 : recognised list_amount_item = true) by (vm_compute; reflexivity).
  assert (H6 : not_addable (default (PNum 0) (list_amount_item !! "amount"%string)) = true)
    by (vm_compute; reflexivity).
  split; [exact H1|]. split; [exact H2|]. split; [exact H3|].
  exact (summary_catches_bad_amount _ _ _ _ _ H1 H2 H3 H4 H5 H6).
Defined.

Lemma total_amount_raises_witness :
  fault list_amount_world (calls list_amount_world) = None /\
  tbl list_amount_world !! u "r1" = Some list_amount_item /\
  exists e w', @Money.get_total_amount sample_runtime None list_amount_world = (Raise e, w').
Proof.
  assert (H2 : fault list_amount_world (calls list_amount_world) = None)
    by (vm_compute; reflexivity).
  assert (H3 : tbl list_amount_world !! u "r1" = Some list_amount_item)
    by (vm_compute; reflexivity).
  assert (H4 : list_amount_item !! "deleted_at"%string = None) by (vm_compute; reflexivity).
  assert (H5 : list_amount_item !! "amount"%string = Some (PList [PNum 1]))
    by (vm_compute; reflexivity).
  split; [exact H2|]. split; [exact H3|].
  exact (@total_amount_raises sample_runtime _ _ _ _ H2 H3 H4 H5 eq_refl).
Defined.

(** ** lambda_function.py: the entry point *)

(** [json.loads], which is not in the repository. *)
Class JsonCodec : Type := {
  json_loads : pystr -> res pyval
}.

Module LambdaEntry.
Import LambdaFunction.

(** [key in container] for a string [key]: a key of a dictionary, an
    element of a list, a part of a string; nothing else can be searched. *)
Definition py_in (key : string) (container : pyval) : res bool :=
  match container with
  | PDict d => Ok (match assoc key d with Some _ => true | None => false end)
  | PList l => Ok (existsb (fun v => eq_str v (u key)) l)
  | PStr s => Ok (contains (u key) s)
  | _ => Raise (TypeError "argument is not iterable")
  end.

(** [container[key]] for a string [key]. *)
Definition py_getitem (container : pyval) (key : string) : res pyval :=
  match container with
  | PDict d =>
    match assoc key d with
    | Some v => Ok v
    | None => Raise (Exn "KeyError" (u key))
    end
  | PList _ => Raise (TypeError "list indices must be integers or slices, not str")
  | PStr _ => Raise (TypeError "string indices must be integers")
  | _ => Raise (TypeError "object is not subscriptable")
  end.

(** The body of the [try] of [_is_valid_line_webhook]. *)
Definition valid_body (body : pyval) : res bool :=
  res_bind (py_in "events" body) (fun has_events =>
  if negb has_events then Ok false else
  res_bind (py_getitem body "events") (fun events =>
  match events with
  | PList (first_event :: _) =>
    res_bind (py_get first_event "type" PNone) (fun ty =>
    if negb (eq_str ty (u "message")) then Ok false else
    res_bind (py_in "message" first_event) (fun has_message =>
    if negb has_message then Ok false else Ok true))
  | _ => Ok false
  end)).

Definition _is_valid_line_webhook (body : pyval) : bool :=
  match valid_body body with
  | Ok b => b
  | Raise _ => false
  end.

(** The answer of the handler: the status code and the dictionary whose
    JSON text is the body. *)
Record response : Type := Response {
  statusCode : Z;
  body : list (string * pyval)
}.

(** The request body: [event['body']], decoded when it is a text, or the
    event itself. *)
Definition request_body `{JsonCodec} (event : pyval) : res pyval :=
  res_bind (py_in "body" event) (fun has_body =>
  if has_body then
    res_bind (py_getitem event "body") (fun body =>
    match body with
    | PStr s => json_loads s
    | _ => Ok body
    end)
  else Ok event).

Definition handleLineForMoney `{Runtime} `{JsonCodec} (event context : pyval)
  : M response :=
  try_except
    (let* body := lift (request_body event) in
     if negb (_is_valid_line_webhook body) then
       ret (Response 400 [("error"%string, PStr (u "Invalid LINE webhook data"))])
     else
       let* result := _process_line_messages body in
       match result with
       | Success processed_count =>
         ret (Response 200
                [("message"%string, PStr (u "Messages processed successfully"));
                 ("processed_count"%string,
                  PNum (inject_Z (Z.of_nat processed_count)))])
       | Failure error =>
         ret (Response 500
                [("error"%string, PStr (u "Failed to process messages"));
                 ("details"%string, PStr error)])
       end)
    (fun e =>
       ret (Response 500
              [("error"%string, PStr (u "Internal server error"));
               ("details"%string, PStr (str_exn e))])).

Definition lambda_handler `{Runtime} `{JsonCodec} (event context : pyval) : M response :=
  handleLineForMoney event context.

End LambdaEntry.

(** A decoder that knows no JSON text at all. *)
Definition no_json : JsonCodec :=
  {| json_loads := fun _ => Raise (Exn "JSONDecodeError" (u "Expecting value")) |}.

Section Webhook.
Import LambdaFunction LambdaEntry.
Context `{Runtime} `{JsonCodec}.

(** The check of the webhook looks at the first event only: a body is
    accepted exactly when it is a dictionary whose ['events'] is a list
    that is not empty and whose first element is a dictionary with
    ['type'] equal to "message" and with a key ['message']. *)
Theorem webhook_validity (body : pyval) :
  _is_valid_line_webhook body = true <->
  exists d first rest ty,
    body = PDict d /\
    assoc "events" d = Some (PList (PDict first :: rest)) /\
    assoc "type" first = Some ty /\ eq_str ty (u "message") = true /\
    assoc "message" first <> None.
Proof.
  unfold _is_valid_line_webhook, valid_body. split.
  - destruct body as [|b|q|s|l|d]; try discriminate; cbn [py_in res_bind].
    + destruct (contains _ s); discriminate.
    + destruct (existsb _ l); discriminate.
    + cbn [py_getitem].
      destruct (assoc "events" d) as [events|] eqn:Hev; [|discriminate].
      cbn [negb res_bind].
      destruct events as [|b|q|s|[|first rest]|d']; try discriminate.
      destruct first as [|b|q|s|l|fd]; try discriminate. cbn [py_get res_bind].
      destruct (assoc "type" fd) as [ty|] eqn:Hty; [|discriminate].
      destruct (eq_str ty (u "message")) eqn:Hm; [|discriminate].
      cbn [negb py_in res_bind].
      destruct (assoc "message" fd) eqn:Hmsg; [|discriminate].
      intros _. exists d, fd, rest, ty.
      split; [reflexivity|]. split; [exact Hev|]. split; [exact Hty|].
      split; [exact Hm|]. rewrite Hmsg. discriminate.
  - intros (d & first & rest & ty & -> & Hev & Hty & Hm & Hmsg).
    cbn [py_in res_bind py_getitem]. rewrite Hev. cbn [negb res_bind py_get].
    rewrite Hty, Hm. cbn [negb py_in res_bind].
    destruct (assoc "message" first); [reflexivity|contradiction].
Qed.
End Webhook.

Section Handler.
Import LambdaFunction LambdaEntry.
Context `{Runtime} `{JsonCodec}.

Definition bad_request : response :=
  Response 400 [("error"%string, PStr (u "Invalid LINE webhook data"))].

Definition processed (n : nat) : response :=
  Response 200 [("message"%string, PStr (u "Messages processed successfully"));
                ("processed_count"%string, PNum (inject_Z (Z.of_nat n)))].

Definition processing_failed (error : pystr) : response :=
  Response 500 [("error"%string, PStr (u "Failed to process messages"));
                ("details"%string, PStr error)].

Definition internal_error (e : exn) : response :=
  Response 500 [("error"%string, PStr (u "Internal server error"));
                ("details"%string, PStr (str_exn e))].

(** The handler, by cases. *)
Lemma handler_run event context w :
  handleLineForMoney event context w =
  match request_body event with
  | Raise e => (Ok (internal_error e), w)
  | Ok body =>
    if _is_valid_line_webhook body then
      match _process_line_messages body w with
      | (Ok (Success n), w') => (Ok (processed n), w')
      | (Ok (Failure error), w') => (Ok (processing_failed error), w')
      | (Raise e, w') => (Ok (internal_error e), w')
      end
    else (Ok bad_request, w)
  end.
Proof.
  unfold handleLineForMoney, try_except, bind, lift, ret.
  destruct (request_body event) as [body|e]; [|reflexivity].
  destruct (_is_valid_line_webhook body); [|reflexivity]. cbn [negb].
  destruct (_process_line_messages body w) as [[[n|error]|e] w']; reflexivity.
Qed.

Lemma process_line_messages_run d events w :
  assoc "events" d = Some (PList events) ->
  _process_line_messages (PDict d) w =
  match process_events events 0 w with
  | (Ok n, w') => (Ok (Success n), w')
  | (Raise e, w') => (Ok (Failure (str_exn e)), w')
  end.
Proof.
  intros Hd. unfold _process_line_messages, try_except, bind, lift, ret, py_get.
  rewrite Hd. cbn [py_iter].
  destruct (process_events events 0 w) as [[n|e] w']; reflexivity.
Qed.

(** The request body is the event itself when the event is a dictionary
    without ['body'], and the value of ['body'] when that is not a text. *)
Lemma request_body_direct d :
  assoc "body" d = None -> request_body (PDict d) = Ok (PDict d).
Proof. intros Hd. unfold request_body. cbn [py_in res_bind]. rewrite Hd. reflexivity. Qed.

Lemma request_body_nested d body :
  assoc "body" d = Some body -> (forall s, body <> PStr s) ->
  request_body (PDict d) = Ok body.
Proof.
  intros Hd Hs. unfold request_body. cbn [py_in res_bind py_getitem]. rewrite Hd.
  cbn [res_bind]. destruct body; try reflexivity. exfalso. exact (Hs s eq_refl).
Qed.

(** The handler never raises, and its status tells what happened: 400 for
    a body that fails the check of the webhook, in which case nothing is
    written and no storage call is made; 500 "Internal server error" when
    the body cannot be obtained (an event that cannot be searched, or a
    text that is not JSON); otherwise 200 or 500 after the batch has run. *)
Theorem handler_statuses (event context : pyval) (w : world) :
  (exists r w', handleLineForMoney event context w = (Ok r, w') /\
     (statusCode r = 200 \/ statusCode r = 400 \/ statusCode r = 500)%Z) /\
  (forall body, request_body event = Ok body ->
     _is_valid_line_webhook body = false ->
     handleLineForMoney event context w = (Ok bad_request, w)) /\
  (forall e, request_body event = Raise e ->
     handleLineForMoney event context w = (Ok (internal_error e), w)).
Proof.
  split; [|split].
  - rewrite handler_run. destruct (request_body event) as [body|e].
    + destruct (_is_valid_line_webhook body).
      * destruct (_process_line_messages body w) as [[[n|error]|e] w'];
          eexists _, _; (split; [reflexivity|]); cbn; auto.
      * eexists _, _. split; [reflexivity|]. cbn. auto.
    + eexists _, _. split; [reflexivity|]. cbn. auto.
  - intros body Hb Hv. rewrite handler_run, Hb, Hv. reflexivity.
  - intros e He. rewrite handler_run, He. reflexivity.
Qed.

(** A payload that passes the check and whose events can all be looked at
    is answered with 200, and the count in the answer is the number of
    storage calls that were not refused, one call per event that passes
    the guards of the loop. *)
Theorem handler_accepts (event context : pyval) (d : list (string * pyval))
    (events : list pyval) (w : world) :
  request_body event = Ok (PDict d) ->
  _is_valid_line_webhook (PDict d) = true ->
  assoc "events" d = Some (PList events) ->
  forallb event_okb events = true ->
  exists w',
    handleLineForMoney event context w
      = (Ok (processed (successes (fault w) (calls w) (targets events))), w') /\
    calls w' = (calls w + targets events)%nat.
Proof.
  intros Hb Hv Hd Hok.
  destruct (process_events_run events 0 w Hok) as (w' & Hrun & Hc & _).
  exists w'. split; [|exact Hc].
  rewrite handler_run, Hb, Hv, (process_line_messages_run _ _ _ Hd), Hrun. reflexivity.
Qed.

(** The check of the webhook looks at the first event only.  When a later
    event cannot be looked at, the answer is 500 "Failed to process
    messages" with the text of the exception, although the records of the
    events before it have been written. *)
Theorem handler_partial_failure (event context : pyval) (d : list (string * pyval))
    (before after : list pyval) (bad : pyval) (e : exn) (w : world) :
  request_body event = Ok (PDict d) ->
  _is_valid_line_webhook (PDict d) = true ->
  assoc "events" d = Some (PList (before ++ bad :: after)) ->
  forallb event_okb before = true ->
  event_target bad = Raise e ->
  handleLineForMoney event context w
    = (Ok (processing_failed (str_exn e)), snd (process_events before 0 w)) /\
  calls (snd (process_events before 0 w)) = (calls w + targets before)%nat.
Proof.
  intros Hb Hv Hd Hok He.
  destruct (process_events_run before 0 w Hok) as (w' & Hrun & Hc & _).
  rewrite Hrun. cbn [snd]. split; [|exact Hc].
  rewrite handler_run, Hb, Hv, (process_line_messages_run _ _ _ Hd).
  rewrite process_events_app, Hrun. cbn [process_events]. unfold bind.
  rewrite process_event_run, He. reflexivity.
Qed.
End Handler.

Lemma handler_accepts_witness :
  exists w',
    @LambdaEntry.handleLineForMoney sample_runtime no_json
      (PDict [("events"%string, PList three_events)]) PNone flaky_world
    = (Ok (processed 2), w') /\
    calls w' = 3%nat.
Proof.
  pose (d := [("events"%string, PList three_events)]).
  assert (Hb : @LambdaEntry.request_body no_json (PDict d) = Ok (PDict d))
    by (vm_compute; reflexivity).
  assert (Hv : LambdaEntry._is_valid_line_webhook (PDict d) = true)
    by (vm_compute; reflexivity).
  assert (Hd : LambdaFunction.assoc "events" d = Some (PList three_events))
    by (vm_compute; reflexivity).
  assert (Hok : forallb event_okb three_events = true) by (vm_compute; reflexivity).
  destruct (@handler_accepts sample_runtime no_json (PDict d) PNone d three_events
              flaky_world Hb Hv Hd Hok) as (w' & Hrun & Hc).
  exists w'. split.
  - replace 2%nat
      with (successes (fault flaky_world) (calls flaky_world) (targets three_events))
      by (vm_compute; reflexivity).
    exact Hrun.
  - rewrite Hc. vm_compute. reflexivity.
Defined.

Lemma handler_partial_failure_witness :
  @LambdaEntry.handleLineForMoney sample_runtime no_json
      (PDict [("events"%string,
               PList ([text_event "U1" "昼食 850円"] ++
                      PStr (u "oops") :: [text_event "U3" "給与 300,000円"]))])
      PNone empty_world
    = (Ok (processing_failed
             (str_exn (AttributeError "object has no attribute 'get'"))),
       snd (@LambdaFunction.process_events sample_runtime
              [text_event "U1" "昼食 850円"] 0%nat empty_world)) /\
  calls (snd (@LambdaFunction.process_events sample_runtime
                [text_event "U1" "昼食 850円"] 0%nat empty_world))
  = (calls empty_world + targets [text_event "U1" "昼食 850円"])%nat.
Proof.
  assert (Hb : @LambdaEntry.request_body no_json
                 (PDict [("events"%string,
                          PList ([text_event "U1" "昼食 850円"] ++
                                 PStr (u "oops") :: [text_event "U3" "給与 300,000円"]))])
               = Ok (PDict [("events"%string,
                          PList ([text_event "U1" "昼食 850円"] ++
                                 PStr (u "oops") :: [text_event "U3" "給与 300,000円"]))]))
    by (vm_compute; reflexivity).
  assert (Hv : LambdaEntry._is_valid_line_webhook
                 (PDict [("events"%string,
                          PList ([text_event "U1" "昼食 850円"] ++
                                 PStr (u "oops") :: [text_event "U3" "給与 300,000円"]))])
               = true)
    by (vm_compute; reflexivity).
  assert (Hd : LambdaFunction.assoc "events"
                 [("events"%string,
                   PList ([text_event "U1" "昼食 850円"] ++
                          PStr (u "oops") :: [text_event "U3" "給与 300,000円"]))]
               = Some (PList ([text_event "U1" "昼食 850円"] ++
                              PStr (u "oops") :: [text_event "U3" "給与 300,000円"])))
    by (vm_compute; reflexivity).
  assert (Hok : forallb event_okb [text_event "U1" "昼食 850円"] = true)
    by (vm_compute; reflexivity).
  assert (He : event_target (PStr (u "oops"))
               = Raise (AttributeError "object has no attribute 'get'"))
    by (vm_compute; reflexivity).
  exact (@handler_partial_failure sample_runtime no_json _ PNone _ _ _ _ _
           empty_world Hb Hv Hd Hok He).
Defined.
